(** * Executive AI assistant: the workflow stages and their routing

    A shallow embedding of the email workflow of [eaia]: the promotional
    pre-filter and the triage stage ([eaia/main/triage.py]), the drafting
    stage with its retry policy ([eaia/main/draft_response.py]), the
    refinement stage ([eaia/main/rewrite.py]), the conditional routing of
    the graph ([eaia/main/graph.py], [eaia/main/gmail_agent_node.py]) and
    the preference write of the reflection graph
    ([eaia/reflection_graphs.py]).

    Conventions of the model.
    - A Python [str] is a [string]; text outside ASCII is carried as the
      bytes of its UTF-8 encoding, and [str.lower], [str.upper], slicing and
      the case-insensitive regular expression flag act on ASCII letters.
    - Every stage runs in the monad [M]: it may raise a Python exception and
      it threads the world outside the graph state: what was printed, what
      [asyncio.sleep] was asked to wait, the requests sent to the language
      model, and the preference store.
    - The language model, the few-shot search and the resolved prompt
      configuration are collaborators outside the repository's code; they
      enter as section variables or as fields of the run configuration. *)

From Stdlib Require Import Floats ZArith Ascii String DecimalString.
From stdpp Require Import base option list strings gmap.
From Equations Require Import Equations.

Set Warnings "-inexact-float".
#[local] Open Scope string_scope.
#[local] Open Scope Z_scope.

(** ** Python strings and the [re] fragment the sources use *)

Module Py.

Definition lower_char (c : ascii) : ascii :=
  let n := N_of_ascii c in
  if ((65 <=? n) && (n <=? 90))%N then ascii_of_N (n + 32) else c.

Definition upper_char (c : ascii) : ascii :=
  let n := N_of_ascii c in
  if ((97 <=? n) && (n <=? 122))%N then ascii_of_N (n - 32) else c.

(** [s.lower()] *)
Fixpoint lower (s : string) : string :=
  match s with
  | EmptyString => EmptyString
  | String c r => String (lower_char c) (lower r)
  end.

(** [s.capitalize()]: first character upper-cased, the rest lower-cased. *)
Definition capitalize (s : string) : string :=
  match s with
  | EmptyString => EmptyString
  | String c r => String (upper_char c) (lower r)
  end.

(** [s.startswith(p)] *)
Fixpoint startswith (p s : string) : bool :=
  match p, s with
  | EmptyString, _ => true
  | String _ _, EmptyString => false
  | String a p', String b s' => Ascii.eqb a b && startswith p' s'
  end.

(** [needle in hay] on strings. *)
Fixpoint str_in (needle hay : string) : bool :=
  startswith needle hay ||
  match hay with
  | EmptyString => false
  | String _ hay' => str_in needle hay'
  end.

(** [any(x in s for x in xs)] *)
Definition any_in (xs : list string) (s : string) : bool :=
  existsb (fun x => str_in x s) xs.

(** [bool(s)]: a string is truthy when it is not empty. *)
Definition truthy (s : string) : bool :=
  match s with EmptyString => false | String _ _ => true end.

(** [s[:n]] *)
Fixpoint slice_to (n : nat) (s : string) : string :=
  match n, s with
  | O, _ => EmptyString
  | S _, EmptyString => EmptyString
  | S n', String c r => String c (slice_to n' r)
  end.

(** [s.split(sep)] for a one-character separator: never an empty list. *)
Fixpoint split (sep : ascii) (s : string) : list string :=
  match s with
  | EmptyString => [EmptyString]
  | String c r =>
      if Ascii.eqb c sep then EmptyString :: split sep r
      else match split sep r with
           | [] => [String c EmptyString]
           | w :: ws => String c w :: ws
           end
  end.

(** ASCII white space as [str.split()] sees it. *)
Definition is_space (c : ascii) : bool :=
  let n := N_of_ascii c in
  (((9 <=? n) && (n <=? 13)) || ((28 <=? n) && (n <=? 32)))%N.

(** [s.split()]: the maximal runs of characters that are not white space.
    [cur] is the word being read. *)
Fixpoint split_ws_from (cur : string) (s : string) : list string :=
  match s with
  | EmptyString => if truthy cur then [cur] else []
  | String c r =>
      if is_space c
      then (if truthy cur then cur :: split_ws_from EmptyString r
            else split_ws_from EmptyString r)
      else split_ws_from (cur +:+ String c EmptyString) r
  end.

Definition split_ws (s : string) : list string := split_ws_from EmptyString s.

(** The fragment of [re] patterns the sources use: literal characters,
    [.] (any character but a newline) and a postfix [*]. *)
Inductive regex : Type :=
| Eps
| Fail
| Chr (c : ascii)
| Dot
| Cat (r1 r2 : regex)
| Alt (r1 r2 : regex)
| Star (r : regex).

Definition atom (c : ascii) : regex :=
  if Ascii.eqb c "." then Dot else Chr c.

(** [re.compile(pattern)] on that fragment. *)
Fixpoint compile (pattern : string) : regex :=
  match pattern with
  | EmptyString => Eps
  | String c rest =>
      match rest with
      | String "*" rest' => Cat (Star (atom c)) (compile rest')
      | _ => Cat (atom c) (compile rest)
      end
  end.

Fixpoint nullable (r : regex) : bool :=
  match r with
  | Eps => true
  | Fail => false
  | Chr _ => false
  | Dot => false
  | Cat r1 r2 => nullable r1 && nullable r2
  | Alt r1 r2 => nullable r1 || nullable r2
  | Star _ => true
  end.

(** One step of matching (a Brzozowski derivative) under [re.IGNORECASE]:
    letters are compared after lower-casing. *)
Fixpoint deriv (c : ascii) (r : regex) : regex :=
  match r with
  | Eps => Fail
  | Fail => Fail
  | Chr d => if Ascii.eqb (lower_char c) (lower_char d) then Eps else Fail
  | Dot => if Ascii.eqb c "010" then Fail else Eps
  | Cat r1 r2 =>
      if nullable r1 then Alt (Cat (deriv c r1) r2) (deriv c r2)
      else Cat (deriv c r1) r2
  | Alt r1 r2 => Alt (deriv c r1) (deriv c r2)
  | Star r1 => Cat (deriv c r1) (Star r1)
  end.

(** Some prefix of [s] matches [r]. *)
Fixpoint match_prefix (r : regex) (s : string) : bool :=
  nullable r ||
  match s with
  | EmptyString => false
  | String c s' => match_prefix (deriv c r) s'
  end.

(** [re.search(pattern, s, re.IGNORECASE)] as a truth value. *)
Fixpoint search_from (r : regex) (s : string) : bool :=
  match_prefix r s ||
  match s with
  | EmptyString => false
  | String _ s' => search_from r s'
  end.

Definition re_search (pattern s : string) : bool :=
  search_from (compile pattern) s.

End Py.

(** ** Exceptions, the world outside the graph state, and the stage monad *)

Inductive exn_class : Type :=
| InternalServerError   (* anthropic.InternalServerError *)
| ValueError
| KeyError
| IndexError
| AttributeError
| ValidationError       (* pydantic *)
| OtherException.       (* any other subclass of Exception *)

(** An exception: its class and [str(e)]. *)
Record exn : Type := mk_exn { exn_class_of : exn_class; exn_str : string }.

Inductive outcome (A : Type) : Type :=
| Return (a : A)
| Raise (e : exn).
Arguments Return {A} a.
Arguments Raise {A} e.

(** A prompt sent to the language model: the template it was formatted
    from, the keyword arguments of [format] in source order, and the names
    of the tools bound to the model. *)
Record request : Type := mk_request {
  template : string;
  kwargs : list (string * string);
  tools : list string
}.

(** The world a stage can touch besides the graph state. The store maps
    (namespace, key) to the stored value, a dict of strings. *)
Record World : Type := mk_World {
  console : list string;
  slept : list Z;
  requests : list request;
  store : gmap (string * string) (gmap string string)
}.

Definition M (A : Type) : Type := World -> outcome A * World.

Definition ret {A : Type} (a : A) : M A := fun w => (Return a, w).

Definition bind {A B : Type} (m : M A) (f : A -> M B) : M B := fun w =>
  match m w with
  | (Return a, w') => f a w'
  | (Raise e, w') => (Raise e, w')
  end.

Notation "'let*' x ':=' m 'in' k" := (bind m (fun x => k))
  (at level 10, x name, m at level 100, k at level 200).
Notation "m ';;' k" := (bind m (fun _ => k))
  (at level 100, k at level 200, right associativity).

Definition raise {A : Type} (e : exn) : M A := fun w => (Raise e, w).

(** [try: m except Exception as e: h e] *)
Definition try_except {A : Type} (m : M A) (h : exn -> M A) : M A := fun w =>
  match m w with
  | (Return a, w') => (Return a, w')
  | (Raise e, w') => h e w'
  end.

(** [print(line)] *)
Definition print (line : string) : M unit := fun w =>
  (Return tt, mk_World ((console w ++ [line])%list) (slept w) (requests w) (store w)).

(** [await asyncio.sleep(seconds)] *)
Definition sleep (seconds : Z) : M unit := fun w =>
  (Return tt, mk_World (console w) ((slept w ++ [seconds])%list) (requests w) (store w)).

(** [await store.aget(namespace, key)]: the stored value, or [None]. *)
Definition store_get (namespace key : string) : M (option (gmap string string)) :=
  fun w => (Return (store w !! (namespace, key)), w).

(** [await store.aput(namespace, key, value)] *)
Definition store_put (namespace key : string) (value : gmap string string) : M unit :=
  fun w => (Return tt, mk_World (console w) (slept w) (requests w)
                                (<[(namespace, key) := value]> (store w))).

(** A call of the language model: the request is recorded, and the answer
    is what the collaborator [llm] gives for it, knowing how many requests
    came before. *)
Definition ainvoke {A : Type} (llm : nat -> request -> outcome A) (r : request) : M A :=
  fun w => (llm (length (requests w)) r,
            mk_World (console w) (slept w) ((requests w ++ [r])%list) (store w)).

(** [d[key]] on a dict of strings: [KeyError] when the key is missing. *)
Definition getitem (d : gmap string string) (key : string) : M string :=
  match d !! key with
  | Some v => ret v
  | None => raise (mk_exn KeyError ("'" +:+ key +:+ "'"))
  end.

(** [d.get(key, "")] *)
Definition get_or_empty (d : gmap string string) (key : string) : string :=
  default "" (d !! key).

(** What a computation returns and the world it leaves. *)
Definition result_of {A : Type} (m : M A) (w : World) : outcome A := fst (m w).
Definition world_after {A : Type} (m : M A) (w : World) : World := snd (m w).

(** [str(n)] of a Python int. *)
Definition str_of_Z (n : Z) : string :=
  NilZero.string_of_int (Z.to_int n).

(** ** The graph state ([eaia/schemas.py] declares it; the fields are the
    ones the stages read and write) *)

Inductive pyval : Type :=
| VStr (s : string)
| VBool (b : bool)
| VList (l : list string).

(** A tool call: [{"name": ..., "args": {...}, "id": ...}]. *)
Record tool_call : Type := mk_tool_call {
  tc_name : string;
  tc_args : gmap string pyval;
  tc_id : string
}.

(** The messages of [langchain_core.messages]; [mid] is the message id
    ([None] until the graph assigns one). *)
Inductive message : Type :=
| HumanMessage (mid : option string) (content : string)
| ToolMessage (mid : option string) (content : string) (tool_call_id : string)
| AIMessage (mid : option string) (content : string) (tool_calls : list tool_call)
| RemoveMessage (mid : option string).

Definition message_id (m : message) : option string :=
  match m with
  | HumanMessage i _ | ToolMessage i _ _ | AIMessage i _ _ | RemoveMessage i => i
  end.

(** [m.tool_calls], when the message has that attribute at all. *)
Definition tool_calls_attr (m : message) : option (list tool_call) :=
  match m with
  | AIMessage _ _ tcs => Some tcs
  | _ => None
  end.

Record RespondTo : Type := mk_RespondTo { logic : string; response : string }.

Record State : Type := mk_State {
  email : gmap string string;
  triage : option RespondTo;
  messages : list message
}.

(** The partial update a node returns: a field is [None] when the node's
    dict has no such key. *)
Record Update : Type := mk_Update {
  u_email : option (gmap string string);
  u_triage : option RespondTo;
  u_messages : option (list message);
  u_draft : option message
}.

(** [config["configurable"]], as far as the stages read it: the assistant
    id that names the store namespace, and the prompt configuration that
    [get_config_async] resolves (from the configurable itself or from
    config.yaml). *)
Record RunnableConfig : Type := mk_RunnableConfig {
  assistant_id : option string;
  prompt_config : gmap string string
}.

Definition get_config_async (config : RunnableConfig) : M (gmap string string) :=
  ret (prompt_config config).

(** [(config["configurable"].get("assistant_id", "default"),)] *)
Definition namespace_of (config : RunnableConfig) : string :=
  default "default" (assistant_id config).

(** [seq[-1]]: [IndexError] on an empty list. *)
Definition last_item {A : Type} (l : list A) : M A :=
  match last l with
  | Some x => ret x
  | None => raise (mk_exn IndexError "list index out of range")
  end.

(** [seq[0]]: [IndexError] on an empty list. *)
Definition first_item {A : Type} (l : list A) : M A :=
  match l with
  | x :: _ => ret x
  | [] => raise (mk_exn IndexError "list index out of range")
  end.

(** ** [eaia/main/triage.py] *)

Module Triage.

(** (subject pattern, content pattern, confidence) *)
Definition PROMOTIONAL_INDICATORS : list (string * string * float) :=
  [ ("newsletter", "unsubscribe", 0.9%float);
    ("nvidia.*news", "", 0.8%float);
    ("weekly digest", "", 0.7%float);
    ("personalized.*for you", "", 0.7%float) ].

Definition IMPORTANT_PATTERNS : list string :=
  [ "assignment review"; "interview"; "job offer"; "meeting invitation";
    "calendar invite" ].

(** The [for] loop over the indicators: the first rule that fires prints
    and returns [True]; falling off the end returns [False]. *)
Fixpoint promotional_loop (indicators : list (string * string * float))
    (subject content : string) : M bool :=
  match indicators with
  | [] => ret false
  | (subject_pattern, content_pattern, confidence) :: rest =>
      let subject_match :=
        if Py.truthy subject_pattern
        then Py.re_search subject_pattern subject else false in
      let content_match :=
        if Py.truthy content_pattern
        then Py.re_search content_pattern content else false in
      if (subject_match && content_match && PrimFloat.ltb 0.8 confidence)
         || (subject_match && PrimFloat.ltb 0.9 confidence)
         || (content_match && PrimFloat.ltb 0.9 confidence)
      then print ("Ignoring obvious promotional email: " +:+ subject) ;;
           ret true
      else promotional_loop rest subject content
  end.

Definition should_ignore_immediately (email : gmap string string) : M bool :=
  let subject := Py.lower (get_or_empty email "subject") in
  let content := Py.lower (get_or_empty email "page_content") in
  if existsb (fun pattern =>
                Py.re_search pattern subject || Py.re_search pattern content)
             IMPORTANT_PATTERNS
  then ret false
  else if (Py.str_in "invitation" subject || Py.str_in "invited" subject
           || Py.str_in "calendar" subject)
          && Py.any_in ["@"; "at"; "pm"; "am"] subject
  then ret false
  else promotional_loop PROMOTIONAL_INDICATORS subject content.

(** ["overloaded_error" in str(e).lower()] *)
Definition overloaded (e : exn) : bool :=
  Py.str_in "overloaded_error" (Py.lower (exn_str e)).

Section retry.
Context {A : Type}.
Variable func : M A.
Variables max_retries initial_delay : Z.

(** This file's retry catches [InternalServerError] only. *)
Definition caught (e : exn) : bool :=
  match exn_class_of e with
  | InternalServerError => true
  | _ => false
  end.

(** What one retry does before the loop calls [func] again; [retries] is
    the counter after its increment. *)
Definition backoff (retries : Z) : M unit :=
  let wait_time := initial_delay * 2 ^ (retries - 1) in
  print ("Anthropic API overloaded. Retrying in " +:+ str_of_Z wait_time
         +:+ " seconds (attempt " +:+ str_of_Z retries +:+ "/"
         +:+ str_of_Z max_retries +:+ ")") ;;
  sleep wait_time.

(** The [while True] loop, with [retries] as its state. It ends: every
    turn that does not leave the loop brings [retries] closer to
    [max_retries]. *)
Equations? retry_loop (retries : Z) (w : World) : outcome A * World
  by wf (Z.to_nat (max_retries - retries)) lt :=
retry_loop retries w with func w => {
  | (Return a, w1) => (Return a, w1)
  | (Raise e, w1) with caught e && overloaded e, decide (retries < max_retries) => {
    | true, left _ =>
        retry_loop (retries + 1) (world_after (backoff (retries + 1)) w1)
    | _, _ => (Raise e, w1) } }.
Proof. lia. Qed.

Definition retry_with_exponential_backoff : M A := retry_loop 0.

End retry.

Section stage.
(** The chain [llm | parser]: the parsed answer to a prompt, or the
    exception the call raised. *)
Variable chain_ainvoke : nat -> request -> outcome RespondTo.
(** [get_few_shot_examples(email, store, config)] of [eaia/main/fewshot.py]. *)
Variable get_few_shot_examples :
  gmap string string -> gmap (string * string) (gmap string string) -> outcome string.

(** [[RemoveMessage(id=m.id) for m in state["messages"]]] *)
Definition delete_messages (ms : list message) : list message :=
  map (fun m => RemoveMessage (message_id m)) ms.

(** The dict both branches return: the decision, and the removals when the
    log is not empty. *)
Definition decision_update (state : State) (response : RespondTo) : Update :=
  if (0 <? length (messages state))%nat
  then mk_Update None (Some response) (Some (delete_messages (messages state))) None
  else mk_Update None (Some response) None None.

Definition triage_input (state : State) (config : RunnableConfig) : M Update :=
  let* ignore := should_ignore_immediately (email state) in
  if ignore
  then
    let response :=
      mk_RespondTo "This is clearly promotional content that can be safely ignored."
                   "no" in
    ret (decision_update state response)
  else
    let* examples := (fun w => (get_few_shot_examples (email state) (store w), w)) in
    let* prompt_config := get_config_async config in
    let* email_thread := getitem (email state) "page_content" in
    let* author := getitem (email state) "from_email" in
    let to := get_or_empty (email state) "to_email" in
    let* subject := getitem (email state) "subject" in
    let* name := getitem prompt_config "name" in
    let* full_name := getitem prompt_config "full_name" in
    let* background := getitem prompt_config "background" in
    let* triage_no := getitem prompt_config "triage_no" in
    let* triage_email := getitem prompt_config "triage_email" in
    let* triage_notify := getitem prompt_config "triage_notify" in
    let input_message :=
      mk_request "triage_prompt"
        [ ("email_thread", email_thread); ("author", author); ("to", to);
          ("subject", subject); ("fewshotexamples", examples); ("name", name);
          ("full_name", full_name); ("background", background);
          ("triage_no", triage_no); ("triage_email", triage_email);
          ("triage_notify", triage_notify) ] [] in
    let call_api := ainvoke chain_ainvoke input_message in
    let* response := retry_with_exponential_backoff call_api 5 1 in
    ret (decision_update state response).

End stage.

End Triage.

(** ** [eaia/main/draft_response.py] *)

Module DraftResponse.

Definition nl : string := String "010" EmptyString.

(** ["overloaded_error" in str(e).lower()] *)
Definition overloaded (e : exn) : bool :=
  Py.str_in "overloaded_error" (Py.lower (exn_str e)).

Definition is_InternalServerError (e : exn) : bool :=
  match exn_class_of e with
  | InternalServerError => true
  | _ => false
  end.

Section retry.
Context {A : Type}.
Variable func : M A.
Variables max_retries initial_delay : Z.

(** The body of the first [except] clause when it retries. *)
Definition backoff_overloaded (retries : Z) : M unit :=
  let wait_time := initial_delay * 2 ^ (retries - 1) in
  print ("Anthropic API overloaded. Retrying in " +:+ str_of_Z wait_time
         +:+ " seconds (attempt " +:+ str_of_Z retries +:+ "/"
         +:+ str_of_Z max_retries +:+ ")") ;;
  sleep wait_time.

(** The body of the second [except] clause when it retries. *)
Definition backoff_failed (e : exn) (retries : Z) : M unit :=
  let wait_time := initial_delay * 2 ^ (retries - 1) in
  print ("LLM call failed. Retrying in " +:+ str_of_Z wait_time
         +:+ " seconds (attempt " +:+ str_of_Z retries +:+ "/"
         +:+ str_of_Z max_retries +:+ "). Error: " +:+ exn_str e) ;;
  sleep wait_time.

(** The [while True] loop of this file's retry: [except InternalServerError]
    first, [except Exception] for everything else. *)
Equations? retry_loop (retries : Z) (w : World) : outcome A * World
  by wf (Z.to_nat (max_retries - retries)) lt :=
retry_loop retries w with func w => {
  | (Return a, w1) => (Return a, w1)
  | (Raise e, w1) with is_InternalServerError e => {
    | true with overloaded e, decide (retries < max_retries) => {
      | true, left _ =>
          retry_loop (retries + 1)
                     (world_after (backoff_overloaded (retries + 1)) w1)
      | _, _ => (Raise e, w1) }
    | false with decide (retries < max_retries) => {
      | left _ =>
          retry_loop (retries + 1)
                     (world_after (backoff_failed e (retries + 1)) w1)
      | right _ => (Raise e, w1) } } }.
Proof. all: lia. Qed.

Definition retry_with_exponential_backoff : M A := retry_loop 0.

End retry.

(** The block [draft_response] repeats for each preference key: read the
    key in the assistant's namespace; without a stored ["data"], write the
    configured default back and use it. (The source reads through
    [store.aget] when the store has it and through [store.get] in a thread
    otherwise, and writes likewise: one read and one write either way.) *)
Definition load_preference (prompt_config : gmap string string)
    (namespace key config_key : string) : M string :=
  let* result := store_get namespace key in
  match result ≫= (fun value => value !! "data") with
  | Some data => ret data
  | None =>
      let* fallback := getitem prompt_config config_key in
      store_put namespace key {[ "data" := fallback ]} ;;
      ret fallback
  end.

Definition is_personal_email (email : gmap string string) : bool :=
  let subject := Py.lower (get_or_empty email "subject") in
  let content := Py.lower (get_or_empty email "page_content") in
  let from_email := Py.lower (get_or_empty email "from_email") in
  let personal_domains :=
    ["gmail.com"; "yahoo.com"; "outlook.com"; "hotmail.com"; "icloud.com"] in
  let is_from_personal_domain := Py.any_in personal_domains from_email in
  let personal_indicators :=
    ["catch up"; "how are you"; "miss you"; "coffee"; "lunch"; "friend"] in
  let has_personal_language :=
    existsb (fun indicator =>
               Py.str_in indicator content || Py.str_in indicator subject)
            personal_indicators in
  let is_short_casual :=
    (length (Py.split_ws content) <? 30)%nat
    && Py.any_in ["hi"; "hey"; "hello"] (Py.slice_to 10 content) in
  (is_from_personal_domain && (has_personal_language || is_short_casual))
  || (has_personal_language && is_short_casual).

Definition generate_personal_response (prompt_config email : gmap string string)
    : M string :=
  let sender_name_parts :=
    match Py.split "@" (get_or_empty email "from_email") with
    | local_part :: _ => Py.split "." local_part
    | [] => []
    end in
  let sender_name :=
    match sender_name_parts with
    | first :: _ => Py.capitalize first
    | [] => "there"
    end in
  let content := Py.lower (get_or_empty email "page_content") in
  if Py.any_in ["meet"; "catch up"; "coffee"; "lunch"; "dinner"] content
  then
    let* name := getitem prompt_config "name" in
    ret ("Hi " +:+ sender_name +:+ "," +:+ nl +:+ nl
         +:+ "Great to hear from you! I'd love to catch up. How about sometime next week? I'm free on Tuesday afternoon or Thursday after 5."
         +:+ nl +:+ nl +:+ "Let me know what works for you!" +:+ nl +:+ nl
         +:+ "Best," +:+ nl +:+ name)
  else
    let* name := getitem prompt_config "name" in
    ret ("Hi " +:+ sender_name +:+ "," +:+ nl +:+ nl
         +:+ "Great to hear from you! Thanks for reaching out. Things have been busy on my end with finishing up my degree and working on some exciting AI projects."
         +:+ nl +:+ nl +:+ "How have you been? What's new in your world?"
         +:+ nl +:+ nl +:+ "Best," +:+ nl +:+ name).

(** The tool call both fallbacks synthesize. The source passes the
    arguments under the key ["arguments"]; they are kept as the call's
    arguments here. *)
Definition default_draft (content id : string) : message :=
  AIMessage None ""
    [ mk_tool_call "ResponseEmailDraft"
        {[ "content" := VStr content; "new_recipients" := VList [] ]} id ].

Section stage.
(** [llm.ainvoke(messages)] of the model bound to the action tools. *)
Variable llm_ainvoke : nat -> request -> outcome message.

Definition invoke_llm_with_retry (state : State)
    (prompt_config : gmap string string) (input_message : request) : M message :=
  let* response := ainvoke llm_ainvoke input_message in
  let* tool_calls :=
    match tool_calls_attr response with
    | Some tcs => ret tcs
    | None => raise (mk_exn AttributeError "tool_calls")
    end in
  match tool_calls with
  | [] =>
      if is_personal_email (email state)
      then
        print "Creating default ResponseEmailDraft for personal email" ;;
        let* content := generate_personal_response prompt_config (email state) in
        ret (default_draft content "response_draft_tool_call")
      else
        print "LLM did not return a tool call for non-personal email" ;;
        raise (mk_exn ValueError "LLM did not return a tool call.")
  | _ :: _ => ret response
  end.

Definition draft_response (state : State) (config : RunnableConfig) : M Update :=
  let tools :=
    (["NewEmailDraft"; "ResponseEmailDraft"; "Question"; "MeetingAssistant";
      "SendCalendarInvite"]
     ++ (if (0 <? length (messages state))%nat then ["Ignore"] else []))%list in
  let* prompt_config := get_config_async config in
  let namespace := namespace_of config in
  let* schedule_preferences :=
    load_preference prompt_config namespace "schedule_preferences"
                    "schedule_preferences" in
  let* random_preferences :=
    load_preference prompt_config namespace "random_preferences"
                    "background_preferences" in
  let* response_preferences :=
    load_preference prompt_config namespace "response_preferences"
                    "response_preferences" in
  let* name := getitem prompt_config "name" in
  let* full_name := getitem prompt_config "full_name" in
  let* background := getitem prompt_config "background" in
  let* email_thread := getitem (email state) "page_content" in
  let* author := getitem (email state) "from_email" in
  let* subject := getitem (email state) "subject" in
  let to := get_or_empty (email state) "to_email" in
  let input_message :=
    mk_request "draft_prompt"
      [ ("schedule_preferences", schedule_preferences);
        ("random_preferences", random_preferences);
        ("response_preferences", response_preferences);
        ("name", name); ("full_name", full_name); ("background", background);
        ("email_thread", email_thread); ("author", author);
        ("subject", subject); ("to", to) ] tools in
  let* result :=
    try_except
      (retry_with_exponential_backoff
         (invoke_llm_with_retry state prompt_config input_message) 5 1)
      (fun e =>
         print ("Error generating response: " +:+ exn_str e) ;;
         if is_personal_email (email state)
         then
           let* content := generate_personal_response prompt_config (email state) in
           ret (default_draft content "response_draft_fallback")
         else
           raise (mk_exn ValueError
                    ("Failed to get valid tool call from LLM after retries. Last error: "
                     +:+ exn_str e))) in
  ret (mk_Update None None (Some [result]) (Some result)).

End stage.

End DraftResponse.

(** ** [eaia/main/rewrite.py] *)

Module Rewrite.

(** [str(v)] as [format] renders an argument value. *)
Definition str_of_pyval (v : pyval) : string :=
  match v with
  | VStr s => s
  | VBool true => "True"
  | VBool false => "False"
  | VList l =>
      "[" +:+ String.concat ", " (map (fun x => "'" +:+ x +:+ "'") l) +:+ "]"
  end.

(** Modelled from the spec: [ReWriteEmail.model_validate] of
    [eaia/schemas.py], which is not among the sources. The refinement stage
    "rejects (hard failure) any response that omits the required field":
    the validated answer is the text under ["rewritten_content"], and a
    dict without it is a validation error. *)
Definition model_validate_ReWriteEmail (args : gmap string pyval) : M string :=
  match args !! "rewritten_content" with
  | Some (VStr rewritten_content) => ret rewritten_content
  | _ => raise (mk_exn ValidationError "rewritten_content")
  end.

(** [m.tool_calls[0]] *)
Definition first_tool_call (m : message) : M tool_call :=
  match tool_calls_attr m with
  | Some tcs => first_item tcs
  | None => raise (mk_exn AttributeError "tool_calls")
  end.

Definition message_content (m : message) : string :=
  match m with
  | HumanMessage _ c | ToolMessage _ c _ | AIMessage _ c _ => c
  | RemoveMessage _ => ""
  end.

Section stage.
(** [llm_with_tools.ainvoke(messages)] of the model bound to [ReWriteEmail]. *)
Variable llm_ainvoke : nat -> request -> outcome message.

Definition rewrite (state : State) (config : RunnableConfig) : M Update :=
  let* prev_message := last_item (messages state) in
  let* prev_call := first_tool_call prev_message in
  let* draft :=
    match tc_args prev_call !! "content" with
    | Some v => ret v
    | None => raise (mk_exn KeyError "'content'")
    end in
  let namespace := namespace_of config in
  let* result := store_get namespace "rewrite_instructions" in
  let* prompt_config := get_config_async config in
  let* _prompt :=
    match result ≫= (fun value => value !! "data") with
    | Some data => ret data
    | None =>
        let* fallback := getitem prompt_config "rewrite_preferences" in
        store_put namespace "rewrite_instructions" {[ "data" := fallback ]} ;;
        ret fallback
    end in
  let* email_thread := getitem (email state) "page_content" in
  let* author := getitem (email state) "from_email" in
  let* subject := getitem (email state) "subject" in
  let* to := getitem (email state) "to_email" in
  let* name := getitem prompt_config "name" in
  let input_message :=
    mk_request "rewrite_prompt"
      [ ("email_thread", email_thread); ("author", author);
        ("subject", subject); ("to", to); ("draft", str_of_pyval draft);
        ("instructions", _prompt); ("name", name) ] ["ReWriteEmail"] in
  let* response := ainvoke llm_ainvoke input_message in
  let* tool_call := first_tool_call response in
  let* rewritten_content := model_validate_ReWriteEmail (tc_args tool_call) in
  let tool_calls :=
    [ mk_tool_call (tc_name prev_call)
        (<[ "content" := VStr rewritten_content ]> (tc_args prev_call))
        (tc_id prev_call) ] in
  (* the dict with role "assistant" that the source returns is an AI
     message to the graph *)
  let prev_message' :=
    AIMessage (message_id prev_message) (message_content prev_message) tool_calls in
  ret (mk_Update None None (Some [prev_message']) None).

End stage.

End Rewrite.

(** ** [eaia/reflection_graphs.py]: the write of the reflection graph *)

Module Reflection.

Record ReflectionState : Type := mk_ReflectionState {
  r_messages : list message;
  feedback : string;
  prompt_key : string;
  assistant_key : string;
  instructions : string
}.

Record GeneralResponse : Type := mk_GeneralResponse {
  gr_logic : string;
  update_prompt : bool;
  new_prompt : string
}.

Definition MEMORY_TO_UPDATE_KEYS : list (string * string) :=
  [ ("tone", "rewrite_instructions"); ("background", "random_preferences");
    ("email", "response_preferences"); ("calendar", "schedule_preferences") ].

Section stage.
(** The reflection model with its structured output. *)
Variable reflection_model : nat -> request -> outcome GeneralResponse.
(** [m.pretty_repr()] of [langchain_core]. *)
Variable pretty_repr : message -> string.

Definition get_trajectory_clean (ms : list message) : string :=
  String.concat (String "010" EmptyString) (map pretty_repr ms).

Definition update_general (state : ReflectionState) : M unit :=
  let namespace := assistant_key state in
  let key := prompt_key state in
  let* result := store_get namespace key in
  let* value :=
    match result with
    | Some value => ret value
    | None => raise (mk_exn AttributeError "value")
    end in
  let* current_prompt := getitem value "data" in
  let* output :=
    ainvoke reflection_model
      (mk_request "general_reflection_prompt"
         [ ("current_prompt", current_prompt);
           ("trajectory", get_trajectory_clean (r_messages state));
           ("feedback", feedback state);
           ("instructions", instructions state) ] ["GeneralResponse"]) in
  if update_prompt output
  then store_put namespace key {[ "data" := new_prompt output ]}
  else ret tt.

End stage.

End Reflection.

(** ** [eaia/main/gmail_agent_node.py] and [eaia/main/graph.py]: routing *)

Module Graph.

Definition END : string := "__end__".

(** [should_use_gmail_agent] of [gmail_agent_node.py]. *)
Definition should_use_gmail_agent (state : State) : string :=
  let keywords :=
    ["draft"; "gmail"; "email drafts"; "save email"; "prepare email";
     "write email"] in
  match triage state with
  | Some t =>
      if String.eqb (response t) "email"
      then
        let email_content := Py.lower (get_or_empty (email state) "page_content") in
        let email_subject := Py.lower (get_or_empty (email state) "subject") in
        if Py.any_in keywords (Py.lower email_content)
           || Py.any_in keywords (Py.lower email_subject)
        then "gmail_agent_node"
        else "draft_response"
      else "draft_response"
  | None => "draft_response"
  end.

(** [state["triage"].response] *)
Definition triage_response (state : State) : M string :=
  match triage state with
  | Some t => ret (response t)
  | None => raise (mk_exn AttributeError "'NoneType' object has no attribute 'response'")
  end.

Definition route_after_triage (state : State) : M string :=
  let* ignore := Triage.should_ignore_immediately (email state) in
  if ignore
  then
    print ("Confirmed automated filtering: " +:+ get_or_empty (email state) "subject") ;;
    ret "mark_as_read_node"
  else
    let subject := Py.lower (get_or_empty (email state) "subject") in
    let* decision := triage_response state in
    if String.eqb decision "email" then ret (should_use_gmail_agent state)
    else if String.eqb decision "no" then ret "mark_as_read_node"
    else if String.eqb decision "notify" then
      if Py.str_in "invitation" subject
         && Py.any_in ["@"; "at"; "pm"; "am"] subject
      then
        if Py.any_in ["assignment"; "interview"; "review"; "job"] subject
        then
          print ("Important meeting detected, upgrading notification to response: "
                 +:+ subject) ;;
          ret "draft_response"
        else ret "notify"
      else ret "notify"
    else if String.eqb decision "question" then ret "draft_response"
    else ret "mark_as_read_node".

Definition take_action (state : State) : M string :=
  let* prediction := last_item (messages state) in
  match tool_calls_attr prediction with
  | None => ret "mark_as_read_node"
  | Some [] => ret "mark_as_read_node"
  | Some (tool_call :: _) =>
      if String.eqb (tc_name tool_call) "Question" then ret "send_message"
      else if String.eqb (tc_name tool_call) "ResponseEmailDraft" then ret "rewrite"
      else if String.eqb (tc_name tool_call) "Ignore" then ret "mark_as_read_node"
      else if String.eqb (tc_name tool_call) "MeetingAssistant" then ret "find_meeting_time"
      else if String.eqb (tc_name tool_call) "SendCalendarInvite" then ret "send_cal_invite"
      else ret "bad_tool_name"
  end.

(** [isinstance(m, (ToolMessage, HumanMessage))] *)
Definition is_tool_or_human (m : message) : bool :=
  match m with
  | ToolMessage _ _ _ | HumanMessage _ _ => true
  | _ => false
  end.

Definition enter_after_human (state : State) : M string :=
  match last (messages state) with
  | None =>
      let* decision := triage_response state in
      if String.eqb decision "notify" then ret "mark_as_read_node"
      else ret "draft_response"
  | Some last_message =>
      if is_tool_or_human last_message then ret "draft_response"
      else
        match tool_calls_attr last_message with
        | None => ret "draft_response"
        | Some [] => ret "draft_response"
        | Some (execute :: _) =>
            if String.eqb (tc_name execute) "ResponseEmailDraft" then ret "send_email_node"
            else if String.eqb (tc_name execute) "SendCalendarInvite" then ret "send_cal_invite_node"
            else if String.eqb (tc_name execute) "Ignore" then ret "mark_as_read_node"
            else if String.eqb (tc_name execute) "Question" then ret "draft_response"
            else ret "draft_response"
        end
  end.

Section nodes.
(** [mark_as_read] of [eaia/gmail.py], the mail provider. *)
Variable mark_as_read : string -> M unit.

Definition mark_as_read_node (state : State) : M Update :=
  let* id := getitem (email state) "id" in
  mark_as_read id ;;
  ret (mk_Update (Some (email state)) None None None).

End nodes.

(** [graph_builder.add_edge(a, b)], in source order. *)
Definition edges : list (string * string) :=
  [ ("initialize", "triage_input");
    ("gmail_agent_node", "human_node");
    ("send_message", "human_node");
    ("send_cal_invite", "human_node");
    ("find_meeting_time", "human_node");
    ("bad_tool_name", "draft_response");
    ("send_cal_invite_node", "human_node");
    ("send_email_node", "mark_as_read_node");
    ("rewrite", "send_email_draft");
    ("send_email_draft", "human_node");
    ("mark_as_read_node", END);
    ("notify", "human_node") ].

(** [graph_builder.add_conditional_edges(a, f)] *)
Definition conditional_edges : list (string * (State -> M string)) :=
  [ ("triage_input", route_after_triage);
    ("draft_response", take_action);
    ("human_node", enter_after_human) ].

Fixpoint assoc {V : Type} (key : string) (l : list (string * V)) : option V :=
  match l with
  | [] => None
  | (k, v) :: rest => if String.eqb k key then Some v else assoc key rest
  end.

(** The node the graph runs after [node]: its edge, or what its routing
    function answers on the state; a node with neither ends the run. *)
Definition successor (node : string) (state : State) : M string :=
  match assoc node edges with
  | Some next => ret next
  | None =>
      match assoc node conditional_edges with
      | Some route => route state
      | None => ret END
      end
  end.

(** The nodes the run visits after [node] when no routing function is
    consulted on the way, up to [END]. *)
Fixpoint follow_edges (fuel : nat) (node : string) : list string :=
  match fuel with
  | O => []
  | S fuel' =>
      match assoc node edges with
      | Some next => next :: follow_edges fuel' next
      | None => []
      end
  end.

End Graph.

(** ** Merging a partial update into the state *)

(** Two message ids are the same id. *)
Definition same_id (i j : option string) : bool :=
  match i, j with
  | Some a, Some b => String.eqb a b
  | None, None => true
  | _, _ => false
  end.

(** Modelled from the spec: the merge rule of [messages], which
    [eaia/schemas.py] declares and which is not among the sources. The
    action log "supports two special mutations: append (default merge) and
    bulk-remove-by-id": a removal drops the entries with its id, any other
    message is appended. *)
Definition add_message (log : list message) (m : message) : list message :=
  match m with
  | RemoveMessage i => filter (fun x => same_id (message_id x) i = false) log
  | _ => (log ++ [m])%list
  end.

(** Modelled from the spec: the same merge rule, for the list of messages
    an update carries, taken in order. *)
Definition add_messages (log update : list message) : list message :=
  fold_left add_message update log.

(** Modelled from the spec: the state after a node's update, with the
    merge rules of the State Record: [messages] merges as above, the other
    fields are replaced when the update has them. *)
Definition merge (state : State) (u : Update) : State :=
  mk_State (default (email state) (u_email u))
           (match u_triage u with Some t => Some t | None => triage state end)
           (match u_messages u with
            | Some ms => add_messages (messages state) ms
            | None => messages state
            end).

(** ** The other nodes of [eaia/main/graph.py] *)

Module Nodes.

(** The state a run is started with: a dict in which any key may be
    missing. [in_messages] is [None] when the key is missing or holds
    [None]; [in_triage] is [None] when the key is missing and [Some None]
    when it holds [None]. *)
Record InputState : Type := mk_InputState {
  in_email : option (gmap string string);
  in_messages : option (list message);
  in_triage : option (option RespondTo)
}.

Definition initialize_state_node (state : InputState) : M State :=
  let* email :=
    match in_email state with
    | Some e => ret e
    | None => raise (mk_exn ValueError "Email must be provided in the initial state")
    end in
  let messages :=
    match in_messages state with
    | None => []
    | Some [] => []
    | Some (m :: ms) => m :: ms
    end in
  let triage :=
    match in_triage state with
    | None => Some (mk_RespondTo "Default triage decision for initialization" "no")
    | Some t => t
    end in
  ret (mk_State email triage messages).

(** [s.replace(c, "")] for a one-character [c]. *)
Fixpoint remove_char (c : ascii) (s : string) : string :=
  match s with
  | EmptyString => EmptyString
  | String a r => if Ascii.eqb a c then remove_char c r
                  else String a (remove_char c r)
  end.

(** [l[-1] = x] on a list that is not empty. *)
Definition set_last {A : Type} (l : list A) (x : A) : list A :=
  match l with
  | [] => []
  | _ :: _ => (removelast l ++ [x])%list
  end.

(** [bad_tool_name] renames the first tool call of the last message in
    place, so the message in the log changes with it: the node's result is
    the state as the mutation leaves it, and the update it returns. *)
Definition bad_tool_name (state : State) : M (State * Update) :=
  let* last_message := last_item (messages state) in
  let* tool_call := Rewrite.first_tool_call last_message in
  let message :=
    "Could not find tool with name `" +:+ tc_name tool_call
    +:+ "`. Make sure you are calling one of the allowed tools!" in
  let renamed :=
    mk_tool_call (remove_char ":" (tc_name tool_call)) (tc_args tool_call)
                 (tc_id tool_call) in
  let last_message' :=
    match last_message with
    | AIMessage mid content (_ :: others) => AIMessage mid content (renamed :: others)
    | m => m
    end in
  ret (mk_State (email state) (triage state) (set_last (messages state) last_message'),
       mk_Update None None
         (Some [last_message'; ToolMessage None message (tc_id tool_call)]) None).

(** [args[key]] on the arguments of a tool call. *)
Definition arg (args : gmap string pyval) (key : string) : M pyval :=
  match args !! key with
  | Some v => ret v
  | None => raise (mk_exn KeyError ("'" +:+ key +:+ "'"))
  end.

Section delivery.
(** The delivery functions of [eaia/gmail.py], and [json.loads]. *)
Variable send_calendar_invite : pyval -> pyval -> pyval -> pyval -> string -> M bool.
Variable send_email : string -> pyval -> string -> pyval -> M unit.
Variable json_loads : string -> outcome pyval.

Definition send_cal_invite_node (state : State) (config : RunnableConfig) : M Update :=
  let* last_message := last_item (messages state) in
  let* tool_call := Rewrite.first_tool_call last_message in
  let _args := tc_args tool_call in
  let* email := getitem (prompt_config config) "email" in
  let* message :=
    try_except
      (let* emails := arg _args "emails" in
       let* title := arg _args "title" in
       let* start_time := arg _args "start_time" in
       let* end_time := arg _args "end_time" in
       send_calendar_invite emails title start_time end_time email ;;
       ret "Sent calendar invite!")
      (fun e =>
         ret ("Got the following error when sending a calendar invite: " +:+ exn_str e)) in
  ret (mk_Update None None (Some [ToolMessage None message (tc_id tool_call)]) None).

Definition send_email_node (state : State) (config : RunnableConfig) : M Update :=
  let* last_message := last_item (messages state) in
  let* tool_call := Rewrite.first_tool_call last_message in
  let _args := tc_args tool_call in
  let* email_ := getitem (prompt_config config) "email" in
  let* new_receipients := arg _args "new_recipients" in
  let* new_receipients :=
    match new_receipients with
    | VStr s => fun w => (json_loads s, w)
    | v => ret v
    end in
  let* id := getitem (email state) "id" in
  let* content := arg _args "content" in
  send_email id content email_ new_receipients ;;
  ret (mk_Update (Some (email state)) None (Some (messages state)) None).

End delivery.

(** [human_node] hands the state back as it is. *)
Definition human_node (state : State) : M Update :=
  ret (mk_Update (Some (email state)) None (Some (messages state)) None).

(** [graph_builder.add_node], in source order. *)
Definition nodes : list string :=
  [ "initialize"; "human_node"; "triage_input"; "draft_response";
    "gmail_agent_node"; "send_message"; "rewrite"; "mark_as_read_node";
    "send_email_draft"; "send_email_node"; "bad_tool_name"; "notify";
    "send_cal_invite_node"; "send_cal_invite"; "find_meeting_time" ].

End Nodes.

(** ** [eaia/main/gmail_agent_node.py]: the node *)

Module GmailAgent.

Section stage.
(** The model bound to [draft_gmail_message] and [search_gmail_drafts]. *)
Variable llm_ainvoke : nat -> request -> outcome message.

(** [_gmail_agent_node_impl]. The prompt configuration is the resolved one
    in both branches of the source; every field of the prompt has a
    default. *)
Definition gmail_agent_node (state : State) (config : RunnableConfig) : M Update :=
  let prompt_config := prompt_config config in
  let email_data := email state in
  let prompt :=
    mk_request "gmail_agent_prompt"
      [ ("full_name", default "Executive Assistant" (prompt_config !! "full_name"));
        ("from_email", default "Unknown" (email_data !! "from_email"));
        ("to_email", default "Unknown" (email_data !! "to_email"));
        ("subject", default "No Subject" (email_data !! "subject"));
        ("page_content", default "No content" (email_data !! "page_content")) ]
      ["draft_gmail_message"; "search_gmail_drafts"] in
  let* response := ainvoke llm_ainvoke prompt in
  ret (mk_Update None None (Some [response]) None).

End stage.

End GmailAgent.

(** ** [eaia/reflection_graphs.py]: choosing what to update *)

Module Fanout.

Definition TONE_INSTRUCTIONS : string :=
  "Only update the prompt to include instructions on the **style and tone and format** of the response. Do NOT update the prompt to include anything about the actual content - only the style and tone and format. The user sometimes responds differently to different types of people - take that into account, but don't be too specific.".

Definition RESPONSE_INSTRUCTIONS : string :=
  "Only update the prompt to include instructions on the **content** of the response. Do NOT update the prompt to include anything about the tone or style or format of the response.".

Definition SCHEDULE_INSTRUCTIONS : string :=
  "Only update the prompt to include instructions on how to send calendar invites - eg when to send them, what title should be, length, time of day, etc".

Definition BACKGROUND_INSTRUCTIONS : string :=
  "Only update the propmpt to include pieces of information that are relevant to being the user's assistant. Do not update the instructions to include anything about the tone of emails sent, when to send calendar invites. Examples of good things to include are (but are not limited to): people's emails, addresses, etc.".

Definition MEMORY_TO_UPDATE : list (string * string) :=
  [ ("tone",
     "Instruction about the tone and style and format of the resulting email. Update this if you learn new information about the tone in which the user likes to respond that may be relevant in future emails.");
    ("background",
     "Background information about the user. Update this if you learn new information about the user that may be relevant in future emails");
    ("email",
     "Instructions about the type of content to be included in email. Update this if you learn new information about how the user likes to respond to emails (not the tone, and not information about the user, but specifically about how or when they like to respond to emails) that may be relevant in the future.");
    ("calendar",
     "Instructions about how to send calendar invites (including title, length, time, etc). Update this if you learn new information about how the user likes to schedule events that may be relevant in future emails.") ].

Definition MEMORY_TO_UPDATE_INSTRUCTIONS : list (string * string) :=
  [ ("tone", TONE_INSTRUCTIONS); ("background", BACKGROUND_INSTRUCTIONS);
    ("email", RESPONSE_INSTRUCTIONS); ("calendar", SCHEDULE_INSTRUCTIONS) ].

Record MultiMemoryInput : Type := mk_MultiMemoryInput {
  mm_messages : list message;
  prompt_types : list string;
  mm_feedback : string;
  mm_assistant_key : string
}.

(** [table[key]] on one of the dicts above. *)
Definition table_get (table : list (string * string)) (key : string) : M string :=
  match Graph.assoc key table with
  | Some v => ret v
  | None => raise (mk_exn KeyError ("'" +:+ key +:+ "'"))
  end.

(** A list comprehension or a [for] loop whose body may raise. *)
Fixpoint for_each {A B : Type} (f : A -> M B) (l : list A) : M (list B) :=
  match l with
  | [] => ret []
  | x :: rest =>
      let* y := f x in
      let* ys := for_each f rest in
      ret (y :: ys)
  end.

Section stage.
(** The reflection model with the [MemoryToUpdate] output: the list under
    [memory_types_to_update]. *)
Variable reflection_model : nat -> request -> outcome (list string).
Variable pretty_repr : message -> string.

(** The tasks [determine_what_to_update] sends to the [reflection] node,
    in order. *)
Definition determine_what_to_update (state : MultiMemoryInput)
    : M (list Reflection.ReflectionState) :=
  let trajectory := Reflection.get_trajectory_clean pretty_repr (mm_messages state) in
  let* lines :=
    for_each (fun p_type =>
                let* description := table_get MEMORY_TO_UPDATE p_type in
                ret ("`" +:+ p_type +:+ "`: " +:+ description))
             (prompt_types state) in
  let types_of_prompts := String.concat (String "010" EmptyString) lines in
  let* response :=
    ainvoke reflection_model
      (mk_request "CHOOSE_MEMORY_PROMPT"
         [ ("trajectory", trajectory); ("feedback", mm_feedback state);
           ("types_of_prompts", types_of_prompts) ] ["MemoryToUpdate"]) in
  for_each (fun t =>
              let* key := table_get Reflection.MEMORY_TO_UPDATE_KEYS t in
              let* instructions := table_get MEMORY_TO_UPDATE_INSTRUCTIONS t in
              ret (Reflection.mk_ReflectionState (mm_messages state) (mm_feedback state)
                     key (mm_assistant_key state) instructions))
           response.

End stage.

End Fanout.

(** ** [eaia/gmail_draft_agent.py]: searching the drafts *)

Module GmailDrafts.

(** A draft's message as the Gmail API returns it, as far as
    [search_gmail_drafts] reads it: the fields it subscripts are fields,
    the ones it reads through [in] or [get] are options. [parts] holds the
    [data] of the body of each part. *)
Record payload : Type := mk_payload {
  headers : list (string * string);
  parts : option (list (option string));
  body : option string
}.

(** An entry of [matching_drafts]. *)
Record found : Type := mk_found {
  found_id : string;
  found_subject : string;
  found_snippet : string
}.

(** [l[:n]] for a Python int [n]. *)
Definition slice_list {A : Type} (n : Z) (l : list A) : list A :=
  if 0 <=? n then take (Z.to_nat n) l
  else take (length l - Z.to_nat (- n)) l.

(** [next((h['value'] for h in headers if h['name'].lower() == 'subject'),
    'No Subject')] *)
Fixpoint subject_header (hs : list (string * string)) : string :=
  match hs with
  | [] => "No Subject"
  | (name, value) :: rest =>
      if String.eqb (Py.lower name) "subject" then value else subject_header rest
  end.

Section search.
(** The Gmail service: the ids under [drafts] of the listing ([None] when
    the response has no such key), the message of a draft, and
    [base64.urlsafe_b64decode(data).decode('utf-8')]. *)
Variable drafts_list : outcome (option (list string)).
Variable drafts_get : string -> outcome payload.
Variable b64decode : string -> outcome string.

(** The body of the loop for one draft: the entry it appends, if any. *)
Definition examine (query id : string) : outcome (option found) :=
  match drafts_get id with
  | Raise e => Raise e
  | Return message =>
      let subject := subject_header (headers message) in
      let body_data :=
        match parts message with
        | Some [] => Raise (mk_exn IndexError "list index out of range")
        | Some (data :: _) => Return (default "" data)
        | None => Return (default "" (body message))
        end in
      match body_data with
      | Raise e => Raise e
      | Return body_data =>
          let body_text :=
            if Py.truthy body_data then b64decode body_data
            else Return "No content" in
          match body_text with
          | Raise e => Raise e
          | Return body_text =>
              if Py.str_in (Py.lower query) (Py.lower subject)
                 || Py.str_in (Py.lower query) (Py.lower body_text)
              then Return (Some (mk_found id subject
                                    (if (100 <? String.length body_text)%nat
                                     then Py.slice_to 100 body_text +:+ "..."
                                     else body_text)))
              else Return None
          end
      end
  end.

(** The loop over the drafts examined. *)
Fixpoint matching (query : string) (ids : list string) : outcome (list found) :=
  match ids with
  | [] => Return []
  | id :: rest =>
      match examine query id with
      | Raise e => Raise e
      | Return entry =>
          match matching query rest with
          | Raise e => Raise e
          | Return entries =>
              Return (match entry with
                      | Some m => m :: entries
                      | None => entries
                      end)
          end
      end
  end.

(** The lines of the result, [i] being the number of the first entry. *)
Fixpoint render (i : nat) (entries : list found) : string :=
  match entries with
  | [] => ""
  | m :: rest =>
      str_of_Z (Z.of_nat i) +:+ ". Subject: " +:+ found_subject m
      +:+ String "010" "   Snippet: " +:+ found_snippet m
      +:+ String "010" "   Draft ID: " +:+ found_id m
      +:+ String "010" (String "010" (render (S i) rest))
  end.

Definition search_gmail_drafts (query : string) (max_results : Z) : outcome string :=
  match drafts_list with
  | Raise e => Raise e
  | Return drafts =>
      match default [] drafts with
      | [] => Return "No drafts found."
      | first :: others =>
          match matching query (slice_list max_results (first :: others)) with
          | Raise e => Raise e
          | Return [] => Return ("No drafts found matching '" +:+ query +:+ "'.")
          | Return (m :: ms) =>
              Return ("Found " +:+ str_of_Z (Z.of_nat (length (m :: ms)))
                      +:+ " drafts matching '" +:+ query +:+ "':"
                      +:+ String "010" (String "010" (render 1 (m :: ms))))
          end
      end
  end.

End search.

End GmailDrafts.

(** ** Vocabulary of the statements *)

(** The world with more lines printed and nothing else changed. *)
Definition printed (w : World) (lines : list string) : World :=
  mk_World (console w ++ lines)%list (slept w) (requests w) (store w).

(** The lower-cased text fields the pre-filter and the routing read. *)
Definition subject_of (email : gmap string string) : string :=
  Py.lower (get_or_empty email "subject").
Definition content_of (email : gmap string string) : string :=
  Py.lower (get_or_empty email "page_content").

(** The allow-list of the pre-filter: a career pattern in subject or body. *)
Definition important (email : gmap string string) : bool :=
  existsb (fun pattern => Py.re_search pattern (subject_of email)
                          || Py.re_search pattern (content_of email))
          Triage.IMPORTANT_PATTERNS.

(** The meeting guard of the pre-filter. *)
Definition meeting_like (email : gmap string string) : bool :=
  (Py.str_in "invitation" (subject_of email) || Py.str_in "invited" (subject_of email)
   || Py.str_in "calendar" (subject_of email))
  && Py.any_in ["@"; "at"; "pm"; "am"] (subject_of email).

(** What the indicator table amounts to under its thresholds: only the
    newsletter rule can fire. *)
Definition newsletter_rule (email : gmap string string) : bool :=
  Py.re_search "newsletter" (subject_of email)
  && Py.re_search "unsubscribe" (content_of email).

Definition prefilter_fires (email : gmap string string) : bool :=
  negb (important email) && negb (meeting_like email) && newsletter_rule email.

(** The upgrade test of [route_after_triage] on the lower-cased subject. *)
Definition upgrade_condition (subject : string) : bool :=
  Py.str_in "invitation" subject
  && Py.any_in ["@"; "at"; "pm"; "am"] subject
  && Py.any_in ["assignment"; "interview"; "review"; "job"] subject.

(** The name of the first tool call a message carries, if it carries one. *)
Definition first_tool_name (m : message) : option string :=
  match tool_calls_attr m with
  | Some (tc :: _) => Some (tc_name tc)
  | _ => None
  end.

(** The scenario email of the promotional pre-filter. *)
Definition digest_subject : string := "Weekly NVIDIA news digest — unsubscribe".

Definition digest_email : gmap string string :=
  {[ "id" := "msg-1";
     "from_email" := "news@nvidia.com";
     "to_email" := "me@example.com";
     "subject" := digest_subject;
     "page_content" := "Top stories this week. Click here to unsubscribe." ]}.

Definition sample_config : RunnableConfig :=
  mk_RunnableConfig (Some "assistant-1")
    {[ "name" := "Aryan"; "full_name" := "Aryan G"; "background" := "student";
       "triage_no" := "ads"; "triage_email" := "questions";
       "triage_notify" := "notices";
       "schedule_preferences" := "mornings";
       "background_preferences" := "final year";
       "response_preferences" := "short";
       "rewrite_preferences" := "casual" ]}.

Definition empty_world : World := mk_World [] [] [] ∅.

(** A newsletter the pre-filter does catch, with a notify decision on it. *)
Definition newsletter_state : State :=
  mk_State {[ "subject" := "Monthly newsletter";
              "page_content" := "To stop these emails, unsubscribe here." ]}
           (Some (mk_RespondTo "worth knowing" "notify")) [].

(** The waits of [k] successive retries, the first of them being retry
    number [r + 1]: [d * 2^r], [d * 2^(r+1)], ... *)
Fixpoint backoff_terms (d r : Z) (k : nat) : list Z :=
  match k with
  | O => []
  | S k' => d * 2 ^ r :: backoff_terms d (r + 1) k'
  end.

Definition total (l : list Z) : Z := foldr Z.add 0 l.

(** What [triage.py]'s retry treats as transient: an overloaded
    [InternalServerError]. *)
Definition transient_for_triage (e : exn) : bool :=
  Triage.caught e && Triage.overloaded e.

(** What [draft_response.py]'s retry treats as transient: an overloaded
    [InternalServerError], and any exception of another class. *)
Definition transient_for_draft (e : exn) : bool :=
  if DraftResponse.is_InternalServerError e then DraftResponse.overloaded e else true.

(** The first [k] calls from call number [n] on fail with a transient
    error. *)
Definition fails_transiently {A : Type} (transient : exn -> bool)
    (script : nat -> outcome A) (n k : nat) : Prop :=
  forall i, (i < k)%nat -> exists e, script (n + i)%nat = Raise e /\ transient e = true.

(** An operation for the retry scenarios: the capability answers
    "overloaded" to the first [k] requests and [answer] afterwards. *)
Definition overloaded_error : exn :=
  mk_exn InternalServerError "Error code: 529 - overloaded_error".

Definition overloaded_then {A : Type} (k : nat) (answer : A)
    (n : nat) (_ : request) : outcome A :=
  if (n <? k)%nat then Raise overloaded_error else Return answer.

Definition sample_request : request := mk_request "triage_prompt" [] [].

(** ** Vocabulary for the preference store and the drafting stage *)

(** The text stored for a key, when the entry has a ["data"] field. *)
Definition stored_data (st : gmap (string * string) (gmap string string))
    (namespace key : string) : option string :=
  st !! (namespace, key) ≫= (fun value => value !! "data").

Definition with_store (w : World) (st : gmap (string * string) (gmap string string))
    : World :=
  mk_World (console w) (slept w) (requests w) st.

(** What a preference read uses, and the store it leaves. *)
Definition pref_value (pc : gmap string string)
    (st : gmap (string * string) (gmap string string))
    (namespace key config_key : string) : string :=
  match stored_data st namespace key with
  | Some data => data
  | None => get_or_empty pc config_key
  end.

Definition pref_store (pc : gmap string string)
    (st : gmap (string * string) (gmap string string))
    (namespace key config_key : string)
    : gmap (string * string) (gmap string string) :=
  match stored_data st namespace key with
  | Some _ => st
  | None => <[(namespace, key) := {[ "data" := get_or_empty pc config_key ]}]> st
  end.

Fixpoint has_keys (d : gmap string string) (keys : list string) : bool :=
  match keys with
  | [] => true
  | k :: rest => match d !! k with Some _ => has_keys d rest | None => false end
  end.

(** The configuration and the email have every key [draft_response]
    subscripts. *)
Definition draft_ready (state : State) (config : RunnableConfig) : bool :=
  has_keys (prompt_config config)
    ["schedule_preferences"; "background_preferences"; "response_preferences";
     "name"; "full_name"; "background"]
  && has_keys (email state) ["page_content"; "from_email"; "subject"].

(** The store after the three preference reads of [draft_response], and
    the request it then builds. *)
Definition draft_store (config : RunnableConfig)
    (st : gmap (string * string) (gmap string string))
    : gmap (string * string) (gmap string string) :=
  let pc := prompt_config config in
  let ns := namespace_of config in
  let st1 := pref_store pc st ns "schedule_preferences" "schedule_preferences" in
  let st2 := pref_store pc st1 ns "random_preferences" "background_preferences" in
  pref_store pc st2 ns "response_preferences" "response_preferences".

Definition draft_request (state : State) (config : RunnableConfig)
    (st : gmap (string * string) (gmap string string)) : request :=
  let pc := prompt_config config in
  let ns := namespace_of config in
  let st1 := pref_store pc st ns "schedule_preferences" "schedule_preferences" in
  let st2 := pref_store pc st1 ns "random_preferences" "background_preferences" in
  mk_request "draft_prompt"
    [ ("schedule_preferences",
       pref_value pc st ns "schedule_preferences" "schedule_preferences");
      ("random_preferences",
       pref_value pc st1 ns "random_preferences" "background_preferences");
      ("response_preferences",
       pref_value pc st2 ns "response_preferences" "response_preferences");
      ("name", get_or_empty pc "name");
      ("full_name", get_or_empty pc "full_name");
      ("background", get_or_empty pc "background");
      ("email_thread", get_or_empty (email state) "page_content");
      ("author", get_or_empty (email state) "from_email");
      ("subject", get_or_empty (email state) "subject");
      ("to", get_or_empty (email state) "to_email") ]
    (["NewEmailDraft"; "ResponseEmailDraft"; "Question"; "MeetingAssistant";
      "SendCalendarInvite"]
     ++ (if (0 <? length (messages state))%nat then ["Ignore"] else []))%list.

(** The text of the local fallback reply, or the [KeyError] of a
    configuration without a name. *)
Definition personal_response (pc email : gmap string string) : outcome string :=
  fst (DraftResponse.generate_personal_response pc email empty_world).

(** What one call of [invoke_llm_with_retry] comes to, given the answer of
    the capability to request number [i]. *)
Definition attempt (llm : nat -> request -> outcome message) (state : State)
    (pc : gmap string string) (req : request) (i : nat) : outcome message :=
  match llm i req with
  | Raise e => Raise e
  | Return response =>
      match tool_calls_attr response with
      | None => Raise (mk_exn AttributeError "tool_calls")
      | Some [] =>
          if DraftResponse.is_personal_email (email state)
          then match personal_response pc (email state) with
               | Return content =>
                   Return (DraftResponse.default_draft content "response_draft_tool_call")
               | Raise e => Raise e
               end
          else Raise (mk_exn ValueError "LLM did not return a tool call.")
      | Some (_ :: _) => Return response
      end
  end.

(** The update [draft_response] returns for a drafted message. *)
Definition draft_update (result : message) : Update :=
  mk_Update None None (Some [result]) (Some result).


(** A business email, and a capability that first answers in prose (no
    tool call) and then asks a question through the [Question] tool. *)
Definition business_email : gmap string string :=
  {[ "id" := "msg-2";
     "from_email" := "recruiter@corp.example";
     "to_email" := "me@example.com";
     "subject" := "Role discussion";
     "page_content" := "We would like to discuss a role with you." ]}.

Definition prose_answer : message := AIMessage (Some "run-1") "I am not sure." [].

Definition question_answer : message :=
  AIMessage (Some "run-2") ""
    [ mk_tool_call "Question" {[ "content" := VStr "Do you want to attend?" ]} "call-1" ].

Definition prose_then_question (n : nat) (_ : request) : outcome message :=
  if (n <? 1)%nat then Return prose_answer else Return question_answer.

(** ** Vocabulary for the refinement stage *)

Definition rewrite_ready (state : State) (config : RunnableConfig) : bool :=
  has_keys (prompt_config config) ["rewrite_preferences"; "name"]
  && has_keys (email state) ["page_content"; "from_email"; "subject"; "to_email"].

(** The request [rewrite] builds for a draft. *)
Definition rewrite_request (state : State) (config : RunnableConfig) (draft : pyval)
    (st : gmap (string * string) (gmap string string)) : request :=
  mk_request "rewrite_prompt"
    [ ("email_thread", get_or_empty (email state) "page_content");
      ("author", get_or_empty (email state) "from_email");
      ("subject", get_or_empty (email state) "subject");
      ("to", get_or_empty (email state) "to_email");
      ("draft", Rewrite.str_of_pyval draft);
      ("instructions",
       pref_value (prompt_config config) st (namespace_of config)
                  "rewrite_instructions" "rewrite_preferences");
      ("name", get_or_empty (prompt_config config) "name") ]
    ["ReWriteEmail"].

(** The tool call of the rewritten message, and the update carrying it. *)
Definition rewritten_call (tc : tool_call) (text : string) : tool_call :=
  mk_tool_call (tc_name tc) (<["content" := VStr text]> (tc_args tc)) (tc_id tc).

Definition rewrite_update (prev : message) (tc : tool_call) (text : string) : Update :=
  mk_Update None None
    (Some [AIMessage (message_id prev) (Rewrite.message_content prev)
                     [rewritten_call tc text]])
    None.

(** The text a valid [ReWriteEmail] answer carries. *)
Definition rewritten_text (response : message) : option string :=
  match tool_calls_attr response with
  | Some (tc :: _) =>
      match tc_args tc !! "rewritten_content" with
      | Some (VStr text) => Some text
      | _ => None
      end
  | _ => None
  end.

(** The value a stage put under [key] in the first request it sent. *)
Definition sent_argument (before after : World) (key : string) : option string :=
  (requests after !! length (requests before))
    ≫= (fun r => Graph.assoc key (kwargs r)).

(** A preference read between the stores [st] and [st']: an absent value
    is seeded from the configured default, which is used and written back;
    a stored value is used and its entry left as it is. *)
Definition seeded_or_kept (pc : gmap string string) (namespace key config_key : string)
    (st st' : gmap (string * string) (gmap string string))
    (used : option string) : Prop :=
  match stored_data st namespace key with
  | None =>
      exists fallback, pc !! config_key = Some fallback
        /\ used = Some fallback
        /\ st' !! (namespace, key) = Some {[ "data" := fallback ]}
  | Some data =>
      used = Some data /\ st' !! (namespace, key) = st !! (namespace, key)
  end.

(** Sample runs for the preference store. *)
Definition other_config : RunnableConfig :=
  mk_RunnableConfig (Some "assistant-1")
    {[ "name" := "Aryan"; "full_name" := "Aryan G"; "background" := "student";
       "schedule_preferences" := "evenings";
       "background_preferences" := "graduate";
       "response_preferences" := "long";
       "rewrite_preferences" := "formal" ]}.

Definition drafted_state : State :=
  mk_State business_email None
    [ HumanMessage (Some "m1") "please reply";
      AIMessage (Some "m2") "draft ready"
        [ mk_tool_call "ResponseEmailDraft"
            {[ "content" := VStr "Dear recruiter, I am interested.";
               "new_recipients" := VList ["hr@corp.example"] ]}
            "call-7";
          mk_tool_call "Question" {[ "content" := VStr "unused" ]} "call-8" ] ].

Definition rewrite_answer (_ : nat) (_ : request) : outcome message :=
  Return (AIMessage (Some "run-3") ""
            [ mk_tool_call "ReWriteEmail"
                {[ "tone_logic" := VStr "friendlier";
                   "rewritten_content" := VStr "Hi, count me in!" ]}
                "call-9" ]).

(** ** Vocabulary for the further properties *)

(** The argument [content] of the draft at the end of the log, which
    [rewrite] reads first. *)
Definition drafted_content (state : State) : option pyval :=
  last (messages state) ≫= (fun prev =>
    match tool_calls_attr prev with
    | Some (tc :: _) => tc_args tc !! "content"
    | _ => None
    end).

(** The preference keys of the drafting stage. *)
Definition draft_keys : list string :=
  ["schedule_preferences"; "random_preferences"; "response_preferences"].

(** The memory types of the reflection graph, and the store keys the
    stages read their preferences from. *)
Definition memory_types : list string := ["tone"; "background"; "email"; "calendar"].

Definition preference_keys : list string :=
  ["rewrite_instructions"; "random_preferences"; "response_preferences";
   "schedule_preferences"].

(** The request [determine_what_to_update] sends when every prompt type is
    a known one. *)
Definition choose_request (pretty_repr : message -> string)
    (state : Fanout.MultiMemoryInput) : request :=
  mk_request "CHOOSE_MEMORY_PROMPT"
    [ ("trajectory", Reflection.get_trajectory_clean pretty_repr (Fanout.mm_messages state));
      ("feedback", Fanout.mm_feedback state);
      ("types_of_prompts",
       String.concat (String "010" EmptyString)
         (map (fun p_type =>
                 "`" +:+ p_type +:+ "`: "
                 +:+ default "" (Graph.assoc p_type Fanout.MEMORY_TO_UPDATE))
              (Fanout.prompt_types state))) ]
    ["MemoryToUpdate"].

(** A task of the fan-out is the one for memory type [t] of the input. *)
Definition task_for (state : Fanout.MultiMemoryInput) (t : string)
    (task : Reflection.ReflectionState) : Prop :=
  Graph.assoc t Reflection.MEMORY_TO_UPDATE_KEYS = Some (Reflection.prompt_key task)
  /\ Graph.assoc t Fanout.MEMORY_TO_UPDATE_INSTRUCTIONS
     = Some (Reflection.instructions task)
  /\ Reflection.r_messages task = Fanout.mm_messages state
  /\ Reflection.feedback task = Fanout.mm_feedback state
  /\ Reflection.assistant_key task = Fanout.mm_assistant_key state
  /\ Reflection.prompt_key task ∈ preference_keys.

(** The configuration and the email have every key [triage_input]
    subscripts. *)
Definition triage_ready (state : State) (config : RunnableConfig) : bool :=
  has_keys (prompt_config config)
    ["name"; "full_name"; "background"; "triage_no"; "triage_email"; "triage_notify"]
  && has_keys (email state) ["page_content"; "from_email"; "subject"].

(** ** The model on concrete inputs *)

Example re_search_dot_star :
  Py.re_search "nvidia.*news" "weekly nvidia news digest" = true.
Proof. reflexivity. Qed.

Example re_search_dot_stops_at_newline :
  Py.re_search "nvidia.*news" ("nvidia" +:+ DraftResponse.nl +:+ "news") = false.
Proof. reflexivity. Qed.

Example re_search_ignores_case :
  Py.re_search "job offer" "Your JOB Offer is attached" = true.
Proof. reflexivity. Qed.

Example re_search_needs_adjacent_words :
  Py.re_search "weekly digest" "weekly nvidia news digest" = false.
Proof. reflexivity. Qed.

Example str_in_invitation_has_at : Py.str_in "at" "invitation" = true.
Proof. reflexivity. Qed.

Example split_address :
  Py.split "@" "john.doe@gmail.com" = ["john.doe"; "gmail.com"]
  /\ Py.split "." "john.doe" = ["john"; "doe"]
  /\ Py.split "@" "" = [""].
Proof. repeat split. Qed.

Example split_ws_words :
  Py.split_ws ("  hi   there" +:+ DraftResponse.nl +:+ "friend ") = ["hi"; "there"; "friend"].
Proof. reflexivity. Qed.

Example capitalize_name : Py.capitalize "jOHN" = "John".
Proof. reflexivity. Qed.

Example prefilter_catches_newsletter :
  Triage.should_ignore_immediately (email newsletter_state) empty_world
  = (Return true,
     printed empty_world ["Ignoring obvious promotional email: monthly newsletter"]).
Proof. vm_compute. reflexivity. Qed.

Example prefilter_spares_interview_newsletter :
  Triage.should_ignore_immediately
    {[ "subject" := "Careers newsletter";
       "page_content" := "Interview slots inside. Unsubscribe here." ]} empty_world
  = (Return false, empty_world).
Proof. vm_compute. reflexivity. Qed.

Example personal_email_is_recognised :
  DraftResponse.is_personal_email
    {[ "from_email" := "john.doe@gmail.com"; "subject" := "Long time";
       "page_content" := "Hi! Want to grab coffee next week?" ]} = true
  /\ DraftResponse.is_personal_email business_email = false.
Proof. split; vm_compute; reflexivity. Qed.

Example personal_reply_text :
  personal_response (prompt_config sample_config)
    {[ "from_email" := "john.doe@gmail.com";
       "page_content" := "Hi! Want to grab coffee next week?" ]}
  = Return ("Hi John," +:+ DraftResponse.nl +:+ DraftResponse.nl
            +:+ "Great to hear from you! I'd love to catch up. How about sometime next week? I'm free on Tuesday afternoon or Thursday after 5."
            +:+ DraftResponse.nl +:+ DraftResponse.nl
            +:+ "Let me know what works for you!"
            +:+ DraftResponse.nl +:+ DraftResponse.nl
            +:+ "Best," +:+ DraftResponse.nl +:+ "Aryan").
Proof. vm_compute. reflexivity. Qed.

Example take_action_on_unknown_tool :
  result_of (Graph.take_action
               (mk_State business_email None
                  [AIMessage (Some "m1") "" [mk_tool_call "Question:" ∅ "call-1"]]))
            empty_world
  = Return "bad_tool_name".
Proof. reflexivity. Qed.

Example take_action_on_empty_log :
  result_of (Graph.take_action (mk_State business_email None [])) empty_world
  = Raise (mk_exn IndexError "list index out of range").
Proof. reflexivity. Qed.

Example retry_console_lines :
  console (world_after
             (DraftResponse.retry_with_exponential_backoff
                (ainvoke (fun n _ =>
                            if (n <? 1)%nat then Raise overloaded_error
                            else if (n <? 2)%nat
                                 then Raise (mk_exn ValueError "no tool call")
                                 else Return "ok") sample_request) 5 1)
             empty_world)
  = [ "Anthropic API overloaded. Retrying in 1 seconds (attempt 1/5)";
      "LLM call failed. Retrying in 2 seconds (attempt 2/5). Error: no tool call" ].
Proof. vm_compute. reflexivity. Qed.

Example triage_retry_does_not_catch_other_errors :
  Triage.retry_with_exponential_backoff
    (ainvoke (fun _ _ => Raise (mk_exn ValueError "bad json") : outcome string)
             sample_request) 5 1 empty_world
  = (Raise (mk_exn ValueError "bad json"),
     mk_World [] [] [sample_request] ∅).
Proof. vm_compute. reflexivity. Qed.

Example retriage_of_a_newsletter :
  fst (Triage.triage_input (fun _ _ => Raise overloaded_error) (fun _ _ => Return "")
         (mk_State (email newsletter_state) None
            [HumanMessage (Some "m1") "hello"; AIMessage (Some "m2") "draft" []])
         sample_config empty_world)
  = Return (mk_Update None
              (Some (mk_RespondTo
                       "This is clearly promotional content that can be safely ignored."
                       "no"))
              (Some [RemoveMessage (Some "m1"); RemoveMessage (Some "m2")]) None).
Proof. vm_compute. reflexivity. Qed.

(** ** The pre-filter *)

Lemma promotional_loop_run (subject content : string) (w : World) :
  Triage.promotional_loop Triage.PROMOTIONAL_INDICATORS subject content w =
  if Py.re_search "newsletter" subject && Py.re_search "unsubscribe" content
  then (Return true, printed w ["Ignoring obvious promotional email: " +:+ subject])
  else (Return false, w).
Proof.
  unfold Triage.PROMOTIONAL_INDICATORS.
  cbn [Triage.promotional_loop Py.truthy].
  change (PrimFloat.ltb 0.8 0.9) with true.
  change (PrimFloat.ltb 0.9 0.9) with false.
  change (PrimFloat.ltb 0.8 0.8) with false.
  change (PrimFloat.ltb 0.9 0.8) with false.
  change (PrimFloat.ltb 0.8 0.7) with false.
  change (PrimFloat.ltb 0.9 0.7) with false.
  destruct (Py.re_search "newsletter" subject);
    destruct (Py.re_search "unsubscribe" content);
    destruct (Py.re_search "nvidia.*news" subject);
    destruct (Py.re_search "weekly digest" subject);
    destruct (Py.re_search "personalized.*for you" subject);
    reflexivity.
Qed.

Lemma should_ignore_immediately_run (email : gmap string string) (w : World) :
  Triage.should_ignore_immediately email w =
  if prefilter_fires email
  then (Return true,
        printed w ["Ignoring obvious promotional email: " +:+ subject_of email])
  else (Return false, w).
Proof.
  unfold Triage.should_ignore_immediately, prefilter_fires, newsletter_rule.
  fold (subject_of email). fold (content_of email).
  fold (important email). fold (meeting_like email).
  destruct (important email); [reflexivity|].
  destruct (meeting_like email); [reflexivity|].
  apply promotional_loop_run.
Qed.

(** C1, evaluated on the code. For the scenario subject and every body
    (so also every body containing "unsubscribe"), the pre-filter
    [should_ignore_immediately] answers [False] and prints nothing: the
    subject has no "newsletter" in it, and the rules for "nvidia.*news" and
    "weekly digest" carry confidences 0.8 and 0.7, which no threshold of the
    loop lets through. On the scenario email [triage_input] therefore sends
    its prompt to the classification capability and records whatever that
    answers, instead of recording "no" on its own. *)
Theorem digest_reaches_the_classifier :
  (forall (email : gmap string string) (body : string) (w : World),
     Triage.should_ignore_immediately
       (<["subject" := digest_subject]> (<["page_content" := body]> email)) w
     = (Return false, w))
  /\ (forall (answer : RespondTo),
        let run := Triage.triage_input (fun _ _ => Return answer)
                     (fun _ _ => Return "") (mk_State digest_email None [])
                     sample_config empty_world in
        fst run = Return (mk_Update None (Some answer) None None)
        /\ length (requests (snd run)) = 1%nat).
Proof.
  split.
  - intros email body w.
    rewrite should_ignore_immediately_run.
    assert (Hn : newsletter_rule
                   (<["subject" := digest_subject]> (<["page_content" := body]> email))
                 = false).
    { unfold newsletter_rule, subject_of, get_or_empty.
      rewrite lookup_insert_eq. reflexivity. }
    unfold prefilter_fires. rewrite Hn, andb_false_r. reflexivity.
  - intros answer. vm_compute. split; reflexivity.
Qed.

(** ** Routing *)

Lemma route_after_triage_result (state : State) (w : World) :
  result_of (Graph.route_after_triage state) w =
  if prefilter_fires (email state) then Return "mark_as_read_node"
  else match triage state with
       | None => Raise (mk_exn AttributeError
                          "'NoneType' object has no attribute 'response'")
       | Some t =>
           if String.eqb (response t) "email"
           then Return (Graph.should_use_gmail_agent state)
           else if String.eqb (response t) "no" then Return "mark_as_read_node"
           else if String.eqb (response t) "notify"
           then Return (if upgrade_condition (subject_of (email state))
                        then "draft_response" else "notify")
           else if String.eqb (response t) "question" then Return "draft_response"
           else Return "mark_as_read_node"
       end.
Proof.
  unfold result_of, Graph.route_after_triage, bind.
  rewrite should_ignore_immediately_run.
  destruct (prefilter_fires (email state)); [reflexivity|].
  unfold Graph.triage_response, upgrade_condition.
  fold (subject_of (email state)).
  destruct (triage state) as [t|]; [|reflexivity].
  cbn -[String.eqb Py.str_in Py.any_in subject_of].
  repeat (destruct (String.eqb (response t) _); [reflexivity|]);
    try reflexivity.
  destruct (String.eqb (response t) "notify").
  - destruct (Py.str_in "invitation" (subject_of (email state)));
      destruct (Py.any_in ["@"; "at"; "pm"; "am"] (subject_of (email state)));
      destruct (Py.any_in ["assignment"; "interview"; "review"; "job"]
                          (subject_of (email state))); reflexivity.
  - destruct (String.eqb (response t) "question"); reflexivity.
Qed.

Lemma take_action_run (state : State) (w : World) :
  Graph.take_action state w =
  (match last (messages state) with
   | None => Raise (mk_exn IndexError "list index out of range")
   | Some prediction =>
       match first_tool_name prediction with
       | None => Return "mark_as_read_node"
       | Some name =>
           Return (if String.eqb name "Question" then "send_message"
                   else if String.eqb name "ResponseEmailDraft" then "rewrite"
                   else if String.eqb name "Ignore" then "mark_as_read_node"
                   else if String.eqb name "MeetingAssistant" then "find_meeting_time"
                   else if String.eqb name "SendCalendarInvite" then "send_cal_invite"
                   else "bad_tool_name")
       end
   end, w).
Proof.
  unfold Graph.take_action, bind, last_item, first_tool_name.
  destruct (last (messages state)) as [m|]; [|reflexivity].
  cbn -[String.eqb].
  destruct (tool_calls_attr m) as [[|tc tcs]|]; try reflexivity.
  repeat (destruct (String.eqb (tc_name tc) _); [reflexivity|]).
  reflexivity.
Qed.

Lemma enter_after_human_run (state : State) (w : World) :
  Graph.enter_after_human state w =
  (match last (messages state) with
   | None =>
       match triage state with
       | None => Raise (mk_exn AttributeError
                          "'NoneType' object has no attribute 'response'")
       | Some t => Return (if String.eqb (response t) "notify"
                           then "mark_as_read_node" else "draft_response")
       end
   | Some m =>
       if Graph.is_tool_or_human m then Return "draft_response"
       else match first_tool_name m with
            | None => Return "draft_response"
            | Some name =>
                Return (if String.eqb name "ResponseEmailDraft" then "send_email_node"
                        else if String.eqb name "SendCalendarInvite"
                        then "send_cal_invite_node"
                        else if String.eqb name "Ignore" then "mark_as_read_node"
                        else "draft_response")
            end
   end, w).
Proof.
  unfold Graph.enter_after_human, first_tool_name.
  destruct (last (messages state)) as [m|].
  - destruct (Graph.is_tool_or_human m); [reflexivity|].
    destruct (tool_calls_attr m) as [[|tc tcs]|]; try reflexivity.
    repeat (destruct (String.eqb (tc_name tc) _); [reflexivity|]).
    reflexivity.
  - unfold bind, Graph.triage_response.
    destruct (triage state) as [t|]; [|reflexivity].
    cbn -[String.eqb]. destruct (String.eqb (response t) "notify"); reflexivity.
Qed.

(** C8. Each conditional-routing function is deterministic: on equal state
    snapshots it answers the same successor (or raises the same exception),
    whatever the world around it holds: what was printed before, what the
    store contains, which requests were sent, how long the run slept. *)
Theorem routing_is_deterministic (s1 s2 : State) (w1 w2 : World) :
  s1 = s2 ->
  result_of (Graph.route_after_triage s1) w1 = result_of (Graph.route_after_triage s2) w2
  /\ result_of (Graph.take_action s1) w1 = result_of (Graph.take_action s2) w2
  /\ result_of (Graph.enter_after_human s1) w1 = result_of (Graph.enter_after_human s2) w2.
Proof.
  intros ->. split; [|split].
  - now rewrite !route_after_triage_result.
  - unfold result_of. now rewrite !take_action_run.
  - unfold result_of. now rewrite !enter_after_human_run.
Qed.

Lemma routing_is_deterministic_witness :
  result_of (Graph.route_after_triage newsletter_state) empty_world
  = result_of (Graph.route_after_triage newsletter_state)
              (printed empty_world ["earlier output"])
  /\ result_of (Graph.take_action newsletter_state) empty_world
     = result_of (Graph.take_action newsletter_state)
                 (printed empty_world ["earlier output"])
  /\ result_of (Graph.enter_after_human newsletter_state) empty_world
     = result_of (Graph.enter_after_human newsletter_state)
                 (printed empty_world ["earlier output"]).
Proof.
  apply (routing_is_deterministic newsletter_state newsletter_state
           empty_world (printed empty_world ["earlier output"])).
  reflexivity.
Defined.

(** C9. When the last message of the log carries no tool call at all (it
    has no [tool_calls] attribute, or the list is empty), [take_action],
    the routing function after [draft_response], answers
    [mark_as_read_node], whose only edge leads to [END]; it neither
    answers [bad_tool_name] nor raises. That node hands the id of the email
    to the mail provider's [mark_as_read] and returns the email unchanged. *)
Theorem no_tool_call_marks_as_read (state : State) (w : World) (prediction : message) :
  last (messages state) = Some prediction ->
  tool_calls_attr prediction = None \/ tool_calls_attr prediction = Some [] ->
  Graph.successor "draft_response" state w = (Return "mark_as_read_node", w)
  /\ Graph.take_action state w = (Return "mark_as_read_node", w)
  /\ Graph.follow_edges 3 "mark_as_read_node" = [Graph.END]
  /\ (forall (mark_as_read : string -> M unit) (id : string) (w0 : World),
        email state !! "id" = Some id ->
        Graph.mark_as_read_node mark_as_read state w0
        = (mark_as_read id ;; ret (mk_Update (Some (email state)) None None None)) w0).
Proof.
  intros Hlast Hnone.
  assert (Hrun : Graph.take_action state w = (Return "mark_as_read_node", w)).
  { rewrite take_action_run, Hlast. unfold first_tool_name.
    destruct Hnone as [-> | ->]; reflexivity. }
  split; [exact Hrun | split; [exact Hrun | split; [reflexivity|]]].
  intros mark_as_read id w0 Hid.
  unfold Graph.mark_as_read_node, getitem. rewrite Hid. reflexivity.
Qed.

Lemma no_tool_call_marks_as_read_witness :
  let state := mk_State digest_email None [AIMessage (Some "m1") "nothing to do" []] in
  Graph.successor "draft_response" state empty_world
  = (Return "mark_as_read_node", empty_world)
  /\ Graph.take_action state empty_world = (Return "mark_as_read_node", empty_world).
Proof.
  intros state.
  pose proof (no_tool_call_marks_as_read state empty_world
                (AIMessage (Some "m1") "nothing to do" []) eq_refl
                (or_intror eq_refl)) as (Hnext & Haction & _).
  split; [exact Hnext | exact Haction].
Defined.

(** C4. After the human checkpoint the successor is read off the tail of
    the log by [enter_after_human], the routing function of [human_node].
    A last message whose first tool call is [ResponseEmailDraft] goes to
    [send_email_node] (and from there to [mark_as_read_node] and [END]);
    [SendCalendarInvite] goes to [send_cal_invite_node]; a human message
    appended last goes back to [draft_response]; [Ignore] goes to
    [mark_as_read_node] and then [END]. *)
Theorem resume_routes_by_log_tail (state : State) (w : World) (tail : message) :
  last (messages state) = Some tail ->
  Graph.successor "human_node" state w = Graph.enter_after_human state w
  /\ (first_tool_name tail = Some "ResponseEmailDraft" ->
      Graph.enter_after_human state w = (Return "send_email_node", w))
  /\ (first_tool_name tail = Some "SendCalendarInvite" ->
      Graph.enter_after_human state w = (Return "send_cal_invite_node", w))
  /\ ((exists mid content, tail = HumanMessage mid content) ->
      Graph.enter_after_human state w = (Return "draft_response", w))
  /\ (first_tool_name tail = Some "Ignore" ->
      Graph.enter_after_human state w = (Return "mark_as_read_node", w))
  /\ Graph.follow_edges 3 "send_email_node" = ["mark_as_read_node"; Graph.END]
  /\ Graph.follow_edges 3 "mark_as_read_node" = [Graph.END].
Proof.
  intros Hlast.
  assert (Hcall : forall name, first_tool_name tail = Some name ->
                               Graph.is_tool_or_human tail = false).
  { intros name. destruct tail; cbn; congruence. }
  split; [reflexivity|].
  repeat split.
  - intros H. rewrite enter_after_human_run, Hlast, (Hcall _ H), H. reflexivity.
  - intros H. rewrite enter_after_human_run, Hlast, (Hcall _ H), H. reflexivity.
  - intros (mid & content & ->). rewrite enter_after_human_run, Hlast. reflexivity.
  - intros H. rewrite enter_after_human_run, Hlast, (Hcall _ H), H. reflexivity.
Qed.

Lemma resume_routes_by_log_tail_witness :
  let approved :=
    AIMessage (Some "m2") ""
      [mk_tool_call "ResponseEmailDraft" {[ "content" := VStr "Sounds good." ]} "call-1"] in
  let state := mk_State digest_email None [HumanMessage (Some "m1") "hello"; approved] in
  last (messages state) = Some approved
  /\ first_tool_name approved = Some "ResponseEmailDraft"
  /\ Graph.enter_after_human state empty_world = (Return "send_email_node", empty_world).
Proof.
  intros approved state.
  pose proof (resume_routes_by_log_tail state empty_world approved eq_refl)
    as (_ & Hreply & _).
  split; [reflexivity | split; [reflexivity | apply Hreply; reflexivity]].
Defined.





(** ** The retry policy *)

Lemma triage_retry_loop_unfold {A : Type} (func : M A) (m d r : Z) (w : World) :
  Triage.retry_loop func m d r w =
  match func w with
  | (Return a, w1) => (Return a, w1)
  | (Raise e, w1) =>
      if transient_for_triage e && bool_decide (r < m)
      then Triage.retry_loop func m d (r + 1)
             (world_after (Triage.backoff m d (r + 1)) w1)
      else (Raise e, w1)
  end.
Proof.
  unfold transient_for_triage.
  rewrite Triage.retry_loop_equation_1.
  destruct (func w) as [[a|e] w1].
  { now simp retry_loop. }
  set (again := Triage.retry_loop func m d (r + 1) _).
  simp retry_loop.
  destruct (Triage.caught e && Triage.overloaded e) eqn:Hc;
    destruct (decide (r < m)) as [Hlt|Hge]; simp retry_loop; simpl;
    rewrite ?andb_false_r; try reflexivity.
  - rewrite (bool_decide_eq_true_2 _ Hlt). subst again.
    now rewrite Triage.retry_loop_equation_1.
  - now rewrite (bool_decide_eq_false_2 _ Hge).
Qed.

Lemma draft_retry_loop_unfold {A : Type} (func : M A) (m d r : Z) (w : World) :
  DraftResponse.retry_loop func m d r w =
  match func w with
  | (Return a, w1) => (Return a, w1)
  | (Raise e, w1) =>
      if transient_for_draft e && bool_decide (r < m)
      then DraftResponse.retry_loop func m d (r + 1)
             (world_after (if DraftResponse.is_InternalServerError e
                           then DraftResponse.backoff_overloaded m d (r + 1)
                           else DraftResponse.backoff_failed m d e (r + 1)) w1)
      else (Raise e, w1)
  end.
Proof.
  unfold transient_for_draft.
  rewrite DraftResponse.retry_loop_equation_1.
  destruct (func w) as [[a|e] w1].
  { now simp retry_loop. }
  destruct (DraftResponse.is_InternalServerError e) eqn:Hi.
  - set (again := DraftResponse.retry_loop func m d (r + 1) _).
    simp retry_loop. rewrite Hi. simp retry_loop.
    destruct (DraftResponse.overloaded e) eqn:Ho;
      destruct (decide (r < m)) as [Hlt|Hge]; simp retry_loop; simpl;
      try reflexivity.
    + rewrite (bool_decide_eq_true_2 _ Hlt). subst again.
      now rewrite DraftResponse.retry_loop_equation_1.
    + now rewrite (bool_decide_eq_false_2 _ Hge).
  - set (again := DraftResponse.retry_loop func m d (r + 1) _).
    simp retry_loop. rewrite Hi. simp retry_loop.
    destruct (decide (r < m)) as [Hlt|Hge]; simp retry_loop; simpl.
    + rewrite (bool_decide_eq_true_2 _ Hlt). subst again.
      now rewrite DraftResponse.retry_loop_equation_1.
    + now rewrite (bool_decide_eq_false_2 _ Hge).
Qed.

Lemma backoff_terms_length (d r : Z) (k : nat) : length (backoff_terms d r k) = k.
Proof. revert r. induction k as [|k IH]; intros r; cbn; [reflexivity | now rewrite IH]. Qed.

Lemma backoff_terms_lookup (d r : Z) (k i : nat) :
  (i < k)%nat -> backoff_terms d r k !! i = Some (d * 2 ^ (r + Z.of_nat i)).
Proof.
  revert r i. induction k as [|k IH]; intros r i Hi; [lia|].
  destruct i as [|i]; cbn.
  - now rewrite Z.add_0_r.
  - rewrite IH by lia. do 3 f_equal. lia.
Qed.

Lemma total_backoff_terms (d r : Z) (k : nat) :
  0 <= r -> total (backoff_terms d r k) = d * 2 ^ r * (2 ^ Z.of_nat k - 1).
Proof.
  revert r. induction k as [|k IH]; intros r Hr.
  - cbn. lia.
  - cbn [backoff_terms total foldr]. fold (total (backoff_terms d (r + 1) k)).
    rewrite IH by lia.
    rewrite Nat2Z.inj_succ, Z.pow_succ_r, Z.pow_add_r by lia.
    change (2 ^ 1) with 2. ring.
Qed.

(** What the loops share. [func] is an operation that sends one request
    per call and whose outcome is scripted by the number of requests sent
    before; [pause] is what a retry does to the world between two calls. *)
Section retry_loop_facts.
Context {A : Type}.
Variable func : M A.
Variable transient : exn -> bool.
Variables max_retries initial_delay : Z.
Variable pause : exn -> Z -> World -> World.
Variable loop : Z -> World -> outcome A * World.
Variable script : nat -> outcome A.
Variable req : request.

Hypothesis loop_unfold : forall r w,
  loop r w =
  match func w with
  | (Return a, w1) => (Return a, w1)
  | (Raise e, w1) =>
      if transient e && bool_decide (r < max_retries)
      then loop (r + 1) (pause e r w1)
      else (Raise e, w1)
  end.
Hypothesis pause_slept : forall e r w,
  slept (pause e r w) = (slept w ++ [initial_delay * 2 ^ r])%list.
Hypothesis pause_requests : forall e r w, requests (pause e r w) = requests w.
Hypothesis pause_store : forall e r w, store (pause e r w) = store w.
Hypothesis func_result : forall w, fst (func w) = script (length (requests w)).
Hypothesis func_requests : forall w,
  requests (snd (func w)) = (requests w ++ [req])%list.
Hypothesis func_slept : forall w, slept (snd (func w)) = slept w.
Hypothesis func_store : forall w, store (snd (func w)) = store w.

(** After [k] transient failures the call that succeeds is returned, as
    long as the retries allowed are not used up before. *)
Lemma loop_succeeds (k : nat) : forall (r : Z) (w : World) (v : A),
  r + Z.of_nat k <= max_retries ->
  fails_transiently transient script (length (requests w)) k ->
  script (length (requests w) + k)%nat = Return v ->
  exists w', loop r w = (Return v, w')
    /\ slept w' = (slept w ++ backoff_terms initial_delay r k)%list
    /\ requests w' = (requests w ++ replicate (S k) req)%list
    /\ store w' = store w.
Proof.
  induction k as [|k IH]; intros r w v Hr Hfail Hok.
  - rewrite Nat.add_0_r in Hok.
    pose proof (func_result w) as Hres. rewrite Hok in Hres.
    pose proof (func_requests w) as Hreq.
    pose proof (func_slept w) as Hsl. pose proof (func_store w) as Hst.
    rewrite loop_unfold. destruct (func w) as [[a|e] w1]; cbn in *; [|discriminate].
    injection Hres as ->. exists w1. rewrite app_nil_r. eauto.
  - destruct (Hfail 0%nat ltac:(lia)) as (e & He & Htr).
    rewrite Nat.add_0_r in He.
    pose proof (func_result w) as Hres. rewrite He in Hres.
    pose proof (func_requests w) as Hreq.
    pose proof (func_slept w) as Hsl. pose proof (func_store w) as Hst.
    rewrite loop_unfold. destruct (func w) as [[a|e'] w1]; cbn in *; [discriminate|].
    injection Hres as ->. rewrite Htr, bool_decide_eq_true_2 by lia. cbn.
    destruct (IH (r + 1) (pause e r w1) v) as (w' & Hrun & Hs & Hq & Ht).
    + lia.
    + intros i Hi. rewrite pause_requests, Hreq, length_app. cbn.
      destruct (Hfail (S i) ltac:(lia)) as (e2 & He2 & Htr2).
      exists e2. split; [|exact Htr2]. rewrite <- He2. f_equal. lia.
    + rewrite pause_requests, Hreq, length_app. cbn. rewrite <- Hok. f_equal. lia.
    + exists w'. split; [exact Hrun|].
      rewrite Hs, Hq, Ht, pause_slept, pause_requests, pause_store, Hsl, Hreq, Hst.
      rewrite <- !app_assoc. cbn. eauto.
Qed.

(** After [k] transient failures an error that is not transient, or that
    comes when the retries allowed are used up, leaves the loop as it is. *)
Lemma loop_raises (k : nat) : forall (r : Z) (w : World) (e : exn),
  r + Z.of_nat k <= max_retries ->
  fails_transiently transient script (length (requests w)) k ->
  script (length (requests w) + k)%nat = Raise e ->
  transient e = false \/ r + Z.of_nat k = max_retries ->
  exists w', loop r w = (Raise e, w')
    /\ slept w' = (slept w ++ backoff_terms initial_delay r k)%list
    /\ requests w' = (requests w ++ replicate (S k) req)%list
    /\ store w' = store w.
Proof.
  induction k as [|k IH]; intros r w e Hr Hfail Herr Hstop.
  - rewrite Nat.add_0_r in Herr.
    pose proof (func_result w) as Hres. rewrite Herr in Hres.
    pose proof (func_requests w) as Hreq.
    pose proof (func_slept w) as Hsl. pose proof (func_store w) as Hst.
    rewrite loop_unfold. destruct (func w) as [[a|e'] w1]; cbn in *; [discriminate|].
    injection Hres as ->.
    assert (Hno : transient e && bool_decide (r < max_retries) = false).
    { destruct Hstop as [-> | Hmax]; [reflexivity|].
      rewrite bool_decide_eq_false_2 by lia. apply andb_false_r. }
    rewrite Hno. exists w1. rewrite app_nil_r. eauto.
  - destruct (Hfail 0%nat ltac:(lia)) as (e0 & He & Htr).
    rewrite Nat.add_0_r in He.
    pose proof (func_result w) as Hres. rewrite He in Hres.
    pose proof (func_requests w) as Hreq.
    pose proof (func_slept w) as Hsl. pose proof (func_store w) as Hst.
    rewrite loop_unfold. destruct (func w) as [[a|e'] w1]; cbn in *; [discriminate|].
    injection Hres as ->. rewrite Htr, bool_decide_eq_true_2 by lia. cbn.
    destruct (IH (r + 1) (pause e0 r w1) e) as (w' & Hrun & Hs & Hq & Ht).
    + lia.
    + intros i Hi. rewrite pause_requests, Hreq, length_app. cbn.
      destruct (Hfail (S i) ltac:(lia)) as (e2 & He2 & Htr2).
      exists e2. split; [|exact Htr2]. rewrite <- He2. f_equal. lia.
    + rewrite pause_requests, Hreq, length_app. cbn. rewrite <- Herr. f_equal. lia.
    + destruct Hstop as [Hnt | Hmax]; [left; exact Hnt | right; lia].
    + exists w'. split; [exact Hrun|].
      rewrite Hs, Hq, Ht, pause_slept, pause_requests, pause_store, Hsl, Hreq, Hst.
      rewrite <- !app_assoc. cbn. eauto.
Qed.

(** Every run of the loop ends, having made [j + 1] calls for some [j] and
    slept the first [j] backoff terms between them; the store is as it
    was. *)
Lemma loop_trace (n : nat) : forall (r : Z) (w : World),
  Z.to_nat (max_retries - r) = n ->
  exists j, slept (snd (loop r w)) = (slept w ++ backoff_terms initial_delay r j)%list
    /\ requests (snd (loop r w)) = (requests w ++ replicate (S j) req)%list
    /\ store (snd (loop r w)) = store w
    /\ r + Z.of_nat j <= Z.max r max_retries.
Proof.
  induction n as [n IH] using lt_wf_ind. intros r w Hn.
  pose proof (func_requests w) as Hreq.
  pose proof (func_slept w) as Hsl. pose proof (func_store w) as Hst.
  rewrite loop_unfold. destruct (func w) as [[a|e] w1]; cbn in *.
  - exists 0%nat. cbn. rewrite app_nil_r. repeat split; try assumption. lia.
  - destruct (transient e && bool_decide (r < max_retries)) eqn:Hgo.
    + apply andb_true_iff in Hgo as [_ Hlt]. apply bool_decide_eq_true_1 in Hlt.
      destruct (IH (Z.to_nat (max_retries - (r + 1))) ltac:(lia) (r + 1)
                  (pause e r w1) eq_refl) as (j & Hs & Hq & Ht & Hb).
      exists (S j). rewrite Hs, Hq, Ht, pause_slept, pause_requests, pause_store.
      rewrite Hsl, Hreq, Hst, <- !app_assoc. cbn. repeat split. lia.
    + exists 0%nat. cbn. rewrite app_nil_r. repeat split; try assumption. lia.
Qed.

End retry_loop_facts.

Lemma triage_pause_slept (m d : Z) (r : Z) (w : World) :
  slept (world_after (Triage.backoff m d (r + 1)) w) = (slept w ++ [d * 2 ^ r])%list.
Proof. cbn. now rewrite Z.add_simpl_r. Qed.

Lemma draft_pause_slept (m d : Z) (e : exn) (r : Z) (w : World) :
  slept (world_after (if DraftResponse.is_InternalServerError e
                      then DraftResponse.backoff_overloaded m d (r + 1)
                      else DraftResponse.backoff_failed m d e (r + 1)) w)
  = (slept w ++ [d * 2 ^ r])%list.
Proof.
  destruct (DraftResponse.is_InternalServerError e); cbn; now rewrite Z.add_simpl_r.
Qed.

Lemma draft_pause_requests (m d : Z) (e : exn) (r : Z) (w : World) :
  requests (world_after (if DraftResponse.is_InternalServerError e
                         then DraftResponse.backoff_overloaded m d (r + 1)
                         else DraftResponse.backoff_failed m d e (r + 1)) w)
  = requests w.
Proof. destruct (DraftResponse.is_InternalServerError e); reflexivity. Qed.

Lemma draft_pause_store (m d : Z) (e : exn) (r : Z) (w : World) :
  store (world_after (if DraftResponse.is_InternalServerError e
                      then DraftResponse.backoff_overloaded m d (r + 1)
                      else DraftResponse.backoff_failed m d e (r + 1)) w)
  = store w.
Proof. destruct (DraftResponse.is_InternalServerError e); reflexivity. Qed.

(** The facts above for the two loops of the sources. *)
Ltac triage_loop_facts lem func script req m d :=
  apply (lem _ func transient_for_triage m d
           (fun (_ : exn) r w => world_after (Triage.backoff m d (r + 1)) w)
           (Triage.retry_loop func m d) script req);
  [ intros; apply triage_retry_loop_unfold
  | intros; apply triage_pause_slept
  | reflexivity | reflexivity | .. ].

Ltac draft_loop_facts lem func script req m d :=
  apply (lem _ func transient_for_draft m d
           (fun e r w =>
              world_after (if DraftResponse.is_InternalServerError e
                           then DraftResponse.backoff_overloaded m d (r + 1)
                           else DraftResponse.backoff_failed m d e (r + 1)) w)
           (DraftResponse.retry_loop func m d) script req);
  [ intros; apply draft_retry_loop_unfold
  | intros; apply draft_pause_slept
  | intros; apply draft_pause_requests
  | intros; apply draft_pause_store | .. ].

Section scripted_call.
Context {A : Type}.
Variable llm : nat -> request -> outcome A.
Variable req : request.
Variables max_retries initial_delay : Z.

Lemma triage_retry_succeeds (k : nat) (w : World) (v : A) :
  Z.of_nat k <= max_retries ->
  fails_transiently transient_for_triage (fun i => llm i req) (length (requests w)) k ->
  llm (length (requests w) + k)%nat req = Return v ->
  exists w',
    Triage.retry_with_exponential_backoff (ainvoke llm req) max_retries initial_delay w
    = (Return v, w')
    /\ slept w' = (slept w ++ backoff_terms initial_delay 0 k)%list
    /\ requests w' = (requests w ++ replicate (S k) req)%list
    /\ store w' = store w.
Proof.
  intros Hk Hfail Hok. unfold Triage.retry_with_exponential_backoff.
  triage_loop_facts @loop_succeeds (ainvoke llm req) (fun i => llm i req) req
                    max_retries initial_delay;
    try reflexivity; try assumption; lia.
Qed.

Lemma triage_retry_raises (k : nat) (w : World) (e : exn) :
  Z.of_nat k <= max_retries ->
  fails_transiently transient_for_triage (fun i => llm i req) (length (requests w)) k ->
  llm (length (requests w) + k)%nat req = Raise e ->
  transient_for_triage e = false \/ Z.of_nat k = max_retries ->
  exists w',
    Triage.retry_with_exponential_backoff (ainvoke llm req) max_retries initial_delay w
    = (Raise e, w')
    /\ slept w' = (slept w ++ backoff_terms initial_delay 0 k)%list
    /\ requests w' = (requests w ++ replicate (S k) req)%list
    /\ store w' = store w.
Proof.
  intros Hk Hfail Herr Hstop. unfold Triage.retry_with_exponential_backoff.
  triage_loop_facts @loop_raises (ainvoke llm req) (fun i => llm i req) req
                    max_retries initial_delay;
    try reflexivity; try assumption; lia.
Qed.

Lemma triage_retry_trace (w : World) :
  exists j,
    slept (snd (Triage.retry_with_exponential_backoff (ainvoke llm req)
                  max_retries initial_delay w))
    = (slept w ++ backoff_terms initial_delay 0 j)%list
    /\ requests (snd (Triage.retry_with_exponential_backoff (ainvoke llm req)
                        max_retries initial_delay w))
       = (requests w ++ replicate (S j) req)%list
    /\ store (snd (Triage.retry_with_exponential_backoff (ainvoke llm req)
                     max_retries initial_delay w)) = store w
    /\ 0 + Z.of_nat j <= Z.max 0 max_retries.
Proof.
  unfold Triage.retry_with_exponential_backoff.
  apply (loop_trace (ainvoke llm req) transient_for_triage max_retries initial_delay
           (fun (_ : exn) r w => world_after (Triage.backoff max_retries initial_delay (r + 1)) w)
           (Triage.retry_loop (ainvoke llm req) max_retries initial_delay) req)
    with (n := Z.to_nat (max_retries - 0)); try reflexivity.
  - intros; apply triage_retry_loop_unfold.
  - intros; apply triage_pause_slept.
Qed.

Lemma draft_retry_trace (w : World) :
  exists j,
    slept (snd (DraftResponse.retry_with_exponential_backoff (ainvoke llm req)
                  max_retries initial_delay w))
    = (slept w ++ backoff_terms initial_delay 0 j)%list
    /\ requests (snd (DraftResponse.retry_with_exponential_backoff (ainvoke llm req)
                        max_retries initial_delay w))
       = (requests w ++ replicate (S j) req)%list
    /\ store (snd (DraftResponse.retry_with_exponential_backoff (ainvoke llm req)
                     max_retries initial_delay w)) = store w
    /\ 0 + Z.of_nat j <= Z.max 0 max_retries.
Proof.
  unfold DraftResponse.retry_with_exponential_backoff.
  apply (loop_trace (ainvoke llm req) transient_for_draft max_retries initial_delay
           (fun e r w =>
              world_after (if DraftResponse.is_InternalServerError e
                           then DraftResponse.backoff_overloaded max_retries initial_delay (r + 1)
                           else DraftResponse.backoff_failed max_retries initial_delay e (r + 1)) w)
           (DraftResponse.retry_loop (ainvoke llm req) max_retries initial_delay) req)
    with (n := Z.to_nat (max_retries - 0)); try reflexivity.
  - intros; apply draft_retry_loop_unfold.
  - intros; apply draft_pause_slept.
  - intros; apply draft_pause_requests.
  - intros; apply draft_pause_store.
Qed.

Lemma draft_retry_succeeds (k : nat) (w : World) (v : A) :
  Z.of_nat k <= max_retries ->
  fails_transiently transient_for_draft (fun i => llm i req) (length (requests w)) k ->
  llm (length (requests w) + k)%nat req = Return v ->
  exists w',
    DraftResponse.retry_with_exponential_backoff (ainvoke llm req) max_retries
      initial_delay w = (Return v, w')
    /\ slept w' = (slept w ++ backoff_terms initial_delay 0 k)%list
    /\ requests w' = (requests w ++ replicate (S k) req)%list
    /\ store w' = store w.
Proof.
  intros Hk Hfail Hok. unfold DraftResponse.retry_with_exponential_backoff.
  draft_loop_facts @loop_succeeds (ainvoke llm req) (fun i => llm i req) req
                   max_retries initial_delay;
    try reflexivity; try assumption; lia.
Qed.

Lemma draft_retry_raises (k : nat) (w : World) (e : exn) :
  Z.of_nat k <= max_retries ->
  fails_transiently transient_for_draft (fun i => llm i req) (length (requests w)) k ->
  llm (length (requests w) + k)%nat req = Raise e ->
  transient_for_draft e = false \/ Z.of_nat k = max_retries ->
  exists w',
    DraftResponse.retry_with_exponential_backoff (ainvoke llm req) max_retries
      initial_delay w = (Raise e, w')
    /\ slept w' = (slept w ++ backoff_terms initial_delay 0 k)%list
    /\ requests w' = (requests w ++ replicate (S k) req)%list
    /\ store w' = store w.
Proof.
  intros Hk Hfail Herr Hstop. unfold DraftResponse.retry_with_exponential_backoff.
  draft_loop_facts @loop_raises (ainvoke llm req) (fun i => llm i req) req
                   max_retries initial_delay;
    try reflexivity; try assumption; lia.
Qed.

End scripted_call.

(** C2, as the code has it. Both retry functions take [max_retries] (5 at
    every call site) and [initial_delay] (1), and [max_retries] counts the
    retries, so up to [max_retries + 1] attempts are made. For an operation
    that sends the request [req] to the capability [llm]:
    - the wait before attempt [j] (for [j >= 2]) is
      [initial_delay * 2^(j-2)], and the first [k] waits add up to
      [initial_delay * (2^k - 1)];
    - if the first [k] attempts fail transiently and the next one succeeds,
      with [k <= max_retries], the wrapped call returns that value after
      sleeping exactly the first [k] waits;
    - if the first [max_retries] attempts fail transiently and the next one
      fails too, that last error is raised as it is, after the first
      [max_retries] waits;
    - whatever the capability answers, a run that makes [j + 1] attempts
      sleeps exactly the first [j] waits, and [j] is at most [max_retries].
    Transient means an overloaded [InternalServerError] for triage, and also
    any exception of another class for the drafting stage. *)
Theorem retry_policy {A : Type} (llm : nat -> request -> outcome A) (req : request)
    (max_retries initial_delay : Z) (w : World) (k : nat) :
  let n := length (requests w) in
  let waits := backoff_terms initial_delay 0 k in
  let triage_run :=
    Triage.retry_with_exponential_backoff (ainvoke llm req) max_retries initial_delay w in
  let draft_run :=
    DraftResponse.retry_with_exponential_backoff (ainvoke llm req) max_retries
      initial_delay w in
  (forall j : nat, (2 <= j <= k + 1)%nat ->
     waits !! (j - 2)%nat = Some (initial_delay * 2 ^ (Z.of_nat j - 2)))
  /\ total waits = initial_delay * (2 ^ Z.of_nat k - 1)
  /\ (fails_transiently transient_for_triage (fun i => llm i req) n k ->
      (forall v, llm (n + k)%nat req = Return v -> Z.of_nat k <= max_retries ->
         fst triage_run = Return v /\ slept (snd triage_run) = (slept w ++ waits)%list)
      /\ (forall e, llm (n + k)%nat req = Raise e -> Z.of_nat k = max_retries ->
            fst triage_run = Raise e /\ slept (snd triage_run) = (slept w ++ waits)%list))
  /\ (fails_transiently transient_for_draft (fun i => llm i req) n k ->
      (forall v, llm (n + k)%nat req = Return v -> Z.of_nat k <= max_retries ->
         fst draft_run = Return v /\ slept (snd draft_run) = (slept w ++ waits)%list)
      /\ (forall e, llm (n + k)%nat req = Raise e -> Z.of_nat k = max_retries ->
            fst draft_run = Raise e /\ slept (snd draft_run) = (slept w ++ waits)%list))
  /\ (exists j : nat,
        slept (snd triage_run) = (slept w ++ backoff_terms initial_delay 0 j)%list
        /\ requests (snd triage_run) = (requests w ++ replicate (S j) req)%list
        /\ Z.of_nat j <= Z.max 0 max_retries)
  /\ (exists j : nat,
        slept (snd draft_run) = (slept w ++ backoff_terms initial_delay 0 j)%list
        /\ requests (snd draft_run) = (requests w ++ replicate (S j) req)%list
        /\ Z.of_nat j <= Z.max 0 max_retries).
Proof.
  intros n waits triage_run draft_run. subst waits.
  split; [|split; [|split; [|split; [|split]]]].
  - intros j Hj. rewrite backoff_terms_lookup by lia. do 3 f_equal. lia.
  - rewrite total_backoff_terms by lia. rewrite Z.pow_0_r. lia.
  - intros Hfail. split.
    + intros v Hok Hk.
      destruct (triage_retry_succeeds llm req max_retries initial_delay k w v
                  Hk Hfail Hok) as (w' & Hrun & Hs & _).
      subst triage_run. rewrite Hrun. split; [reflexivity | exact Hs].
    + intros e Herr Hk.
      destruct (triage_retry_raises llm req max_retries initial_delay k w e
                  ltac:(lia) Hfail Herr (or_intror Hk)) as (w' & Hrun & Hs & _).
      subst triage_run. rewrite Hrun. split; [reflexivity | exact Hs].
  - intros Hfail. split.
    + intros v Hok Hk.
      destruct (draft_retry_succeeds llm req max_retries initial_delay k w v
                  Hk Hfail Hok) as (w' & Hrun & Hs & _).
      subst draft_run. rewrite Hrun. split; [reflexivity | exact Hs].
    + intros e Herr Hk.
      destruct (draft_retry_raises llm req max_retries initial_delay k w e
                  ltac:(lia) Hfail Herr (or_intror Hk)) as (w' & Hrun & Hs & _).
      subst draft_run. rewrite Hrun. split; [reflexivity | exact Hs].
  - destruct (triage_retry_trace llm req max_retries initial_delay w)
      as (j & Hs & Hq & _ & Hj).
    exists j. split; [exact Hs | split; [exact Hq | lia]].
  - destruct (draft_retry_trace llm req max_retries initial_delay w)
      as (j & Hs & Hq & _ & Hj).
    exists j. split; [exact Hs | split; [exact Hq | lia]].
Qed.

Lemma overloaded_then_fails {A : Type} (k : nat) (answer : A) (req : request) :
  fails_transiently transient_for_triage (fun i => overloaded_then k answer i req) 0 k
  /\ fails_transiently transient_for_draft (fun i => overloaded_then k answer i req) 0 k.
Proof.
  split; intros i Hi; exists overloaded_error; unfold overloaded_then; cbn [Nat.add];
    (destruct (Nat.ltb_spec i k); [|lia]); split; reflexivity.
Qed.

Lemma retry_policy_witness :
  let op := ainvoke (overloaded_then 2 "ok") sample_request in
  fst (Triage.retry_with_exponential_backoff op 5 1 empty_world) = Return "ok"
  /\ slept (snd (Triage.retry_with_exponential_backoff op 5 1 empty_world)) = [1; 2].
Proof.
  intros op.
  pose proof (retry_policy (overloaded_then 2 "ok") sample_request 5 1 empty_world 2)
    as (_ & _ & Htriage & _).
  destruct (Htriage (proj1 (overloaded_then_fails 2 "ok" sample_request))) as [Hok _].
  exact (Hok "ok" eq_refl ltac:(lia)).
Defined.

(** C2 as stated fails at [max_attempts = 5] and [k = 5]: an operation that
    fails five times and then succeeds is not given up on. Both retry
    functions make a sixth attempt after waiting 1, 2, 4, 8 and 16 seconds,
    and return its value; no error propagates. *)
Lemma retry_policy_counterexample :
  let op := ainvoke (overloaded_then 5 "ok") sample_request in
  Triage.retry_with_exponential_backoff op 5 1 empty_world
  = (Return "ok",
     world_after (Triage.retry_with_exponential_backoff op 5 1) empty_world)
  /\ slept (world_after (Triage.retry_with_exponential_backoff op 5 1) empty_world)
     = [1; 2; 4; 8; 16]
  /\ length (requests (world_after (Triage.retry_with_exponential_backoff op 5 1)
                                   empty_world)) = 6%nat
  /\ result_of (DraftResponse.retry_with_exponential_backoff op 5 1) empty_world
     = Return "ok"
  /\ (forall e, result_of (Triage.retry_with_exponential_backoff op 5 1) empty_world
                <> Raise e).
Proof.
  intros op. subst op.
  split; [vm_compute; reflexivity|].
  split; [vm_compute; reflexivity|].
  split; [vm_compute; reflexivity|].
  split; [vm_compute; reflexivity|].
  intros e. vm_compute. discriminate.
Qed.

(** ** The triage stage *)

(** A computation that, whenever it returns, returns a value with [P]. *)
Lemma bind_returns {A B : Type} (m : M A) (f : A -> M B) (P : B -> Prop) (w : World) :
  (forall a w1, match fst (f a w1) with Return b => P b | Raise _ => True end) ->
  match fst (bind m f w) with Return b => P b | Raise _ => True end.
Proof.
  intros Hf. unfold bind. destruct (m w) as [[a|e] w1]; [apply Hf | exact I].
Qed.

Lemma same_id_refl (i : option string) : same_id i i = true.
Proof. destruct i; cbn; [apply String.eqb_refl | reflexivity]. Qed.

(** Removing every id of [ms] leaves nothing of a log whose entries all
    carry one of those ids. *)
Lemma removals_clear (ms : list message) : forall log : list message,
  (forall x, x ∈ log ->
     exists m, m ∈ ms /\ same_id (message_id x) (message_id m) = true) ->
  add_messages log (Triage.delete_messages ms) = [].
Proof.
  unfold add_messages.
  induction ms as [|m ms IH]; intros log Hcover.
  - destruct log as [|x log]; [reflexivity|].
    destruct (Hcover x) as (m & Hm & _); [left | inversion Hm].
  - cbn. apply IH. intros x Hx.
    apply list_elem_of_filter in Hx as [Hkeep Hx].
    destruct (Hcover x Hx) as (m' & Hm' & Hsame).
    apply elem_of_cons in Hm' as [-> | Hm'].
    + congruence.
    + exists m'. split; assumption.
Qed.

Lemma bulk_remove_clears_log (ms : list message) :
  add_messages ms (Triage.delete_messages ms) = [].
Proof.
  apply removals_clear. intros x Hx. exists x. split; [exact Hx | apply same_id_refl].
Qed.

(** C6. Whatever the classification capability and the few-shot search
    do, an update that [triage_input] returns carries the new decision, and
    - on a log that is not empty, one [RemoveMessage] per logged message,
      with that message's id, in order: merged into the state this bulk
      remove leaves the log empty;
    - on an empty log, no [messages] entry at all: the merge leaves the log
      as it was.
    When the pre-filter fires the update is always returned, and its
    decision is "no"; an exception can only come from the external path. *)
Theorem retriage_clears_log
    (chain_ainvoke : nat -> request -> outcome RespondTo)
    (get_few_shot_examples :
       gmap string string -> gmap (string * string) (gmap string string)
       -> outcome string)
    (state : State) (config : RunnableConfig) (w : World) :
  match fst (Triage.triage_input chain_ainvoke get_few_shot_examples state config w) with
  | Return u =>
      (exists decision, u_triage u = Some decision
         /\ (prefilter_fires (email state) = true -> response decision = "no"))
      /\ u_email u = None /\ u_draft u = None
      /\ match messages state with
         | [] => u_messages u = None /\ messages (merge state u) = []
         | _ :: _ =>
             u_messages u
             = Some (map (fun m => RemoveMessage (message_id m)) (messages state))
             /\ messages (merge state u) = []
         end
  | Raise _ => prefilter_fires (email state) = false
  end.
Proof.
  assert (Hshape : forall decision : RespondTo,
    (prefilter_fires (email state) = true -> response decision = "no") ->
    let u := Triage.decision_update state decision in
    (exists d, u_triage u = Some d
       /\ (prefilter_fires (email state) = true -> response d = "no"))
    /\ u_email u = None /\ u_draft u = None
    /\ match messages state with
       | [] => u_messages u = None /\ messages (merge state u) = []
       | _ :: _ =>
           u_messages u
           = Some (map (fun m => RemoveMessage (message_id m)) (messages state))
           /\ messages (merge state u) = []
       end).
  { intros decision Hno. unfold Triage.decision_update, merge.
    destruct (messages state) as [|m ms] eqn:Hms; cbn.
    - repeat split; eauto.
    - repeat split; eauto.
      exact (bulk_remove_clears_log (m :: ms)). }
  unfold Triage.triage_input, bind at 1.
  rewrite should_ignore_immediately_run.
  destruct (prefilter_fires (email state)) eqn:Hfire.
  - cbn [fst]. unfold ret. cbn [fst]. apply Hshape. reflexivity.
  - set (P := fun u : Update =>
      (exists d, u_triage u = Some d /\ (false = true -> response d = "no"))
      /\ u_email u = None /\ u_draft u = None
      /\ match messages state with
         | [] => u_messages u = None /\ messages (merge state u) = []
         | _ :: _ =>
             u_messages u
             = Some (map (fun m => RemoveMessage (message_id m)) (messages state))
             /\ messages (merge state u) = []
         end).
    assert (Hret : match fst (Triage.triage_input chain_ainvoke get_few_shot_examples
                                state config w) with
                   | Return u => P u | Raise _ => True end).
    { unfold Triage.triage_input, bind at 1.
      rewrite should_ignore_immediately_run, Hfire.
      repeat (apply bind_returns; intros).
      unfold ret. cbn [fst]. subst P. cbn beta.
      apply Hshape. discriminate. }
    unfold Triage.triage_input, bind at 1 in Hret.
    rewrite should_ignore_immediately_run, Hfire in Hret.
    match goal with
    | |- match fst ?run with _ => _ end =>
        destruct (fst run) as [u|e]; [exact Hret | reflexivity]
    end.
Qed.

(** ** The drafting stage *)

Lemma with_store_same (w : World) : with_store w (store w) = w.
Proof. destruct w; reflexivity. Qed.

Lemma has_keys_lookup (d : gmap string string) (keys : list string) (k : string) :
  has_keys d keys = true -> k ∈ keys -> d !! k = Some (get_or_empty d k).
Proof.
  induction keys as [|k' keys IH]; intros Hk Hin; [inversion Hin|].
  cbn in Hk. destruct (d !! k') as [v|] eqn:Hv; [|discriminate].
  apply elem_of_cons in Hin as [-> | Hin]; [|now apply IH].
  unfold get_or_empty. now rewrite Hv.
Qed.

Lemma getitem_run (d : gmap string string) (k : string) (w : World) :
  d !! k = Some (get_or_empty d k) -> getitem d k w = (Return (get_or_empty d k), w).
Proof. intros H. unfold getitem. rewrite H. reflexivity. Qed.

Lemma load_preference_run (pc : gmap string string) (ns key cfg : string) (w : World) :
  pc !! cfg = Some (get_or_empty pc cfg) ->
  DraftResponse.load_preference pc ns key cfg w
  = (Return (pref_value pc (store w) ns key cfg),
     with_store w (pref_store pc (store w) ns key cfg)).
Proof.
  intros Hcfg.
  unfold DraftResponse.load_preference, bind, store_get, pref_value, pref_store,
    stored_data.
  destruct (store w !! (ns, key) ≫= _) as [data|].
  - unfold ret. now rewrite with_store_same.
  - rewrite (getitem_run _ _ _ Hcfg). reflexivity.
Qed.

Lemma generate_personal_response_run (pc email : gmap string string) (w : World) :
  DraftResponse.generate_personal_response pc email w = (personal_response pc email, w).
Proof.
  unfold personal_response, DraftResponse.generate_personal_response.
  destruct (Py.any_in _ _); unfold bind, getitem;
    destruct (pc !! "name"); reflexivity.
Qed.

Lemma invoke_run (llm : nat -> request -> outcome message) (state : State)
    (pc : gmap string string) (req : request) (w : World) :
  fst (DraftResponse.invoke_llm_with_retry llm state pc req w)
  = attempt llm state pc req (length (requests w))
  /\ requests (snd (DraftResponse.invoke_llm_with_retry llm state pc req w))
     = (requests w ++ [req])%list
  /\ slept (snd (DraftResponse.invoke_llm_with_retry llm state pc req w)) = slept w
  /\ store (snd (DraftResponse.invoke_llm_with_retry llm state pc req w)) = store w.
Proof.
  unfold DraftResponse.invoke_llm_with_retry, attempt, bind, ainvoke, ret, raise, print.
  destruct (llm (length (requests w)) req) as [response|e]; [|now cbn].
  destruct (tool_calls_attr response) as [[|tc tcs]|]; try now cbn.
  destruct (DraftResponse.is_personal_email (email state)); [|now cbn].
  rewrite generate_personal_response_run.
  destruct (personal_response pc (email state)); now cbn.
Qed.

(** The drafting call under its retry: the facts shared by the loops. *)
Section drafting_call.
Variable llm : nat -> request -> outcome message.
Variable state : State.
Variable pc : gmap string string.
Variable req : request.

Let call : M message := DraftResponse.invoke_llm_with_retry llm state pc req.



Lemma drafting_retry_trace (w : World) :
  exists j,
    slept (snd (DraftResponse.retry_with_exponential_backoff call 5 1 w))
    = (slept w ++ backoff_terms 1 0 j)%list
    /\ requests (snd (DraftResponse.retry_with_exponential_backoff call 5 1 w))
       = (requests w ++ replicate (S j) req)%list
    /\ store (snd (DraftResponse.retry_with_exponential_backoff call 5 1 w)) = store w
    /\ 0 + Z.of_nat j <= Z.max 0 5.
Proof.
  unfold DraftResponse.retry_with_exponential_backoff.
  apply (loop_trace call transient_for_draft 5 1
           (fun e r w =>
              world_after (if DraftResponse.is_InternalServerError e
                           then DraftResponse.backoff_overloaded 5 1 (r + 1)
                           else DraftResponse.backoff_failed 5 1 e (r + 1)) w)
           (DraftResponse.retry_loop call 5 1) req)
    with (n := Z.to_nat (5 - 0)); try reflexivity.
  - intros; apply draft_retry_loop_unfold.
  - intros; apply draft_pause_slept.
  - intros; apply draft_pause_requests.
  - intros; apply draft_pause_store.
  - intros w0; apply (invoke_run llm state pc req w0).
  - intros w0; apply (invoke_run llm state pc req w0).
  - intros w0; apply (invoke_run llm state pc req w0).
Qed.

End drafting_call.

Lemma draft_ready_keys (state : State) (config : RunnableConfig) :
  draft_ready state config = true ->
  (forall k, k ∈ ["schedule_preferences"; "background_preferences";
                  "response_preferences"; "name"; "full_name"; "background"] ->
     prompt_config config !! k = Some (get_or_empty (prompt_config config) k))
  /\ (forall k, k ∈ ["page_content"; "from_email"; "subject"] ->
        email state !! k = Some (get_or_empty (email state) k)).
Proof.
  unfold draft_ready. intros H. apply andb_true_iff in H as [Hc He].
  split; intros k Hk; eapply has_keys_lookup; eassumption.
Qed.

(** [draft_response] on a ready configuration, in terms of what its
    retried call comes to. *)
Lemma draft_response_run (llm : nat -> request -> outcome message)
    (state : State) (config : RunnableConfig) (w : World) :
  draft_ready state config = true ->
  DraftResponse.draft_response llm state config w =
  match DraftResponse.retry_with_exponential_backoff
          (DraftResponse.invoke_llm_with_retry llm state (prompt_config config)
             (draft_request state config (store w))) 5 1
          (with_store w (draft_store config (store w))) with
  | (Return m, w4) => (Return (draft_update m), w4)
  | (Raise e, w4) =>
      let w5 := printed w4 ["Error generating response: " +:+ exn_str e] in
      if DraftResponse.is_personal_email (email state)
      then match personal_response (prompt_config config) (email state) with
           | Return content =>
               (Return (draft_update
                          (DraftResponse.default_draft content "response_draft_fallback")),
                w5)
           | Raise e' => (Raise e', w5)
           end
      else (Raise (mk_exn ValueError
                     ("Failed to get valid tool call from LLM after retries. Last error: "
                      +:+ exn_str e)), w5)
  end.
Proof.
  intros Hready. destruct (draft_ready_keys state config Hready) as [Hc He].
  cbv [DraftResponse.draft_response bind get_config_async ret try_except].
  rewrite load_preference_run by (apply Hc; set_solver).
  rewrite load_preference_run by (apply Hc; set_solver).
  rewrite load_preference_run by (apply Hc; set_solver).
  rewrite !getitem_run by (first [apply Hc | apply He]; set_solver).
  change (draft_update) with (fun result => mk_Update None None (Some [result]) (Some result)).
  cbv beta.
  match goal with
  | |- match match ?run1 with _ => _ end with _ => _ end = match ?run2 with _ => _ end =>
      change run1 with run2; destruct run2 as [[m|e] w4]
  end.
  - reflexivity.
  - cbv [print]. cbv beta iota zeta.
    destruct (DraftResponse.is_personal_email (email state)).
    + rewrite generate_personal_response_run.
      destruct (personal_response (prompt_config config) (email state)); reflexivity.
    + reflexivity.
Qed.






(** ** The refinement stage *)

Lemma bind_returns_from {A B : Type} (m : M A) (f : A -> M B) (P : B -> Prop)
    (w : World) :
  (forall a w1, m w = (Return a, w1) ->
     match fst (f a w1) with Return b => P b | Raise _ => True end) ->
  match fst (bind m f w) with Return b => P b | Raise _ => True end.
Proof.
  intros Hf. unfold bind. destruct (m w) as [[a|e] w1]; [now apply Hf | exact I].
Qed.

Lemma bind_ok {A B : Type} (m : M A) (f : A -> M B) (w : World) (a : A) (w1 : World) :
  m w = (Return a, w1) -> bind m f w = f a w1.
Proof. intros H. unfold bind. now rewrite H. Qed.

(** The block that reads a preference, given what [store.aget] returned. *)
Lemma seed_block_run (pc : gmap string string) (ns key cfg : string)
    (result : option (gmap string string)) (w : World) :
  result = store w !! (ns, key) ->
  pc !! cfg = Some (get_or_empty pc cfg) ->
  match result ≫= (fun value => value !! "data") with
  | Some data => ret data
  | None =>
      let* fallback := getitem pc cfg in
      store_put ns key {[ "data" := fallback ]} ;;
      ret fallback
  end w
  = (Return (pref_value pc (store w) ns key cfg),
     with_store w (pref_store pc (store w) ns key cfg)).
Proof.
  intros -> Hcfg. unfold pref_value, pref_store, stored_data.
  destruct (store w !! (ns, key) ≫= _) as [data|].
  - unfold ret. now rewrite with_store_same.
  - unfold bind. rewrite (getitem_run _ _ _ Hcfg). reflexivity.
Qed.

Lemma rewrite_ready_keys (state : State) (config : RunnableConfig) :
  rewrite_ready state config = true ->
  (forall k, k ∈ ["rewrite_preferences"; "name"] ->
     prompt_config config !! k = Some (get_or_empty (prompt_config config) k))
  /\ (forall k, k ∈ ["page_content"; "from_email"; "subject"; "to_email"] ->
        email state !! k = Some (get_or_empty (email state) k)).
Proof.
  unfold rewrite_ready. intros H. apply andb_true_iff in H as [Hc He].
  split; intros k Hk; eapply has_keys_lookup; eassumption.
Qed.

(** [rewrite] on a drafted reply and a ready configuration, in terms of the
    capability's answer. *)
Lemma rewrite_run (llm : nat -> request -> outcome message) (state : State)
    (config : RunnableConfig) (w : World) (prev : message) (tc : tool_call)
    (rest : list tool_call) (draft : pyval) :
  rewrite_ready state config = true ->
  last (messages state) = Some prev ->
  tool_calls_attr prev = Some (tc :: rest) ->
  tc_args tc !! "content" = Some draft ->
  let req := rewrite_request state config draft (store w) in
  let w1 :=
    mk_World (console w) (slept w) (requests w ++ [req])%list
      (pref_store (prompt_config config) (store w) (namespace_of config)
                  "rewrite_instructions" "rewrite_preferences") in
  Rewrite.rewrite llm state config w =
  match llm (length (requests w)) req with
  | Raise e => (Raise e, w1)
  | Return response =>
      match tool_calls_attr response with
      | None => (Raise (mk_exn AttributeError "tool_calls"), w1)
      | Some [] => (Raise (mk_exn IndexError "list index out of range"), w1)
      | Some (answer :: _) =>
          match tc_args answer !! "rewritten_content" with
          | Some (VStr text) => (Return (rewrite_update prev tc text), w1)
          | _ => (Raise (mk_exn ValidationError "rewritten_content"), w1)
          end
      end
  end.
Proof.
  intros Hready Hlast Hcalls Hcontent req w1.
  destruct (rewrite_ready_keys state config Hready) as [Hc He].
  unfold Rewrite.rewrite.
  erewrite bind_ok by (unfold last_item; rewrite Hlast; reflexivity).
  erewrite bind_ok by (unfold Rewrite.first_tool_call; rewrite Hcalls; reflexivity).
  erewrite bind_ok by (rewrite Hcontent; reflexivity).
  erewrite bind_ok by reflexivity.
  erewrite bind_ok by reflexivity.
  erewrite bind_ok
    by (apply seed_block_run; [reflexivity | apply Hc; set_solver]).
  do 5 (erewrite bind_ok
          by (apply getitem_run; first [apply Hc | apply He]; set_solver)).
  unfold bind at 1, ainvoke. cbn [requests with_store console slept store].
  subst w1 req. unfold rewrite_request.
  match goal with
  | |- context [llm ?n ?r] => destruct (llm n r) as [response|e]; [|reflexivity]
  end.
  unfold bind at 1, Rewrite.first_tool_call, first_item.
  destruct (tool_calls_attr response) as [[|answer answers]|]; try reflexivity.
  unfold ret at 1. unfold bind, Rewrite.model_validate_ReWriteEmail.
  destruct (tc_args answer !! "rewritten_content") as [[text|b|l]|]; reflexivity.
Qed.

(** C7. When the last message of the log carries a drafted reply (its
    first tool call has a [content] argument), every update [rewrite]
    returns holds one message, with the id and the content of that last
    message and a single tool call: the id and the name of the drafted call,
    and its arguments with only [content] replaced by the text the rewrite
    capability returned. On a ready configuration, and for an answer that
    carries [rewritten_content], the update is returned. *)
Theorem rewrite_replaces_content_only (llm : nat -> request -> outcome message)
    (state : State) (config : RunnableConfig) (w : World) (prev : message)
    (tc : tool_call) (rest : list tool_call) (draft : pyval) :
  last (messages state) = Some prev ->
  tool_calls_attr prev = Some (tc :: rest) ->
  tc_args tc !! "content" = Some draft ->
  (forall u, fst (Rewrite.rewrite llm state config w) = Return u ->
     exists text call,
       u_messages u
       = Some [AIMessage (message_id prev) (Rewrite.message_content prev) [call]]
       /\ tc_id call = tc_id tc
       /\ tc_name call = tc_name tc
       /\ tc_args call !! "content" = Some (VStr text)
       /\ (forall k, k <> "content" -> tc_args call !! k = tc_args tc !! k))
  /\ (rewrite_ready state config = true ->
      forall response text,
        llm (length (requests w)) (rewrite_request state config draft (store w))
        = Return response ->
        rewritten_text response = Some text ->
        fst (Rewrite.rewrite llm state config w) = Return (rewrite_update prev tc text)).
Proof.
  intros Hlast Hcalls Hcontent. split.
  - set (P := fun u : Update => exists text call,
       u_messages u
       = Some [AIMessage (message_id prev) (Rewrite.message_content prev) [call]]
       /\ tc_id call = tc_id tc
       /\ tc_name call = tc_name tc
       /\ tc_args call !! "content" = Some (VStr text)
       /\ (forall k, k <> "content" -> tc_args call !! k = tc_args tc !! k)).
    assert (Hret : match fst (Rewrite.rewrite llm state config w) with
                   | Return u => P u | Raise _ => True end).
    { unfold Rewrite.rewrite.
      apply bind_returns_from. intros prev' w1 Hprev.
      unfold last_item in Hprev. rewrite Hlast in Hprev.
      injection Hprev as <- <-.
      apply bind_returns_from. intros tc' w2 Htc.
      unfold Rewrite.first_tool_call in Htc. rewrite Hcalls in Htc.
      injection Htc as <- <-.
      repeat (apply bind_returns; intros).
      unfold ret. cbn [fst]. subst P. cbn beta.
      eexists _, _. split; [reflexivity|]. cbn [tc_id tc_name tc_args].
      split; [reflexivity|]. split; [reflexivity|].
      split; [apply lookup_insert_eq|].
      intros k Hk. now apply lookup_insert_ne. }
    intros u Hu. rewrite Hu in Hret. exact Hret.
  - intros Hready response text Hanswer Htext.
    rewrite (rewrite_run llm state config w prev tc rest draft Hready Hlast Hcalls
               Hcontent).
    cbv zeta. rewrite Hanswer. unfold rewritten_text in Htext.
    destruct (tool_calls_attr response) as [[|answer answers]|]; try discriminate.
    destruct (tc_args answer !! "rewritten_content") as [[t|b|l]|]; try discriminate.
    injection Htext as ->. reflexivity.
Qed.

Lemma rewrite_replaces_content_only_witness :
  fst (Rewrite.rewrite rewrite_answer drafted_state sample_config empty_world)
  = Return (mk_Update None None
      (Some [AIMessage (Some "m2") "draft ready"
               [mk_tool_call "ResponseEmailDraft"
                  (<["content" := VStr "Hi, count me in!"]>
                     {[ "content" := VStr "Dear recruiter, I am interested.";
                        "new_recipients" := VList ["hr@corp.example"] ]})
                  "call-7"]])
      None).
Proof.
  pose proof (rewrite_replaces_content_only rewrite_answer drafted_state sample_config
                empty_world
                (AIMessage (Some "m2") "draft ready"
                   [ mk_tool_call "ResponseEmailDraft"
                       {[ "content" := VStr "Dear recruiter, I am interested.";
                          "new_recipients" := VList ["hr@corp.example"] ]}
                       "call-7";
                     mk_tool_call "Question" {[ "content" := VStr "unused" ]} "call-8" ])
                (mk_tool_call "ResponseEmailDraft"
                   {[ "content" := VStr "Dear recruiter, I am interested.";
                      "new_recipients" := VList ["hr@corp.example"] ]}
                   "call-7")
                [mk_tool_call "Question" {[ "content" := VStr "unused" ]} "call-8"]
                (VStr "Dear recruiter, I am interested.")
                eq_refl eq_refl eq_refl) as [_ Hreturns].
  exact (Hreturns eq_refl _ "Hi, count me in!" eq_refl eq_refl).
Defined.

(** ** The preference store *)

Lemma stored_data_agree (st st' : gmap (string * string) (gmap string string))
    (ns key : string) :
  st' !! (ns, key) = st !! (ns, key) -> stored_data st' ns key = stored_data st ns key.
Proof. unfold stored_data. now intros ->. Qed.

Lemma pref_store_lookup_ne (pc : gmap string string)
    (st : gmap (string * string) (gmap string string)) (ns key cfg key' : string) :
  key <> key' -> pref_store pc st ns key cfg !! (ns, key') = st !! (ns, key').
Proof.
  intros Hne. unfold pref_store.
  destruct (stored_data st ns key); [reflexivity|].
  apply lookup_insert_ne. congruence.
Qed.

(** One preference read, seen from the store [st0] the stage started with
    and the store [st'] it ended with, when neither differs at this key
    from the stores just before and just after the read. *)
Lemma pref_read_seeded_or_kept (pc : gmap string string) (ns key cfg : string)
    (st0 st st' : gmap (string * string) (gmap string string)) :
  st !! (ns, key) = st0 !! (ns, key) ->
  st' !! (ns, key) = pref_store pc st ns key cfg !! (ns, key) ->
  pc !! cfg = Some (get_or_empty pc cfg) ->
  seeded_or_kept pc ns key cfg st0 st' (Some (pref_value pc st ns key cfg)).
Proof.
  intros Hbefore Hafter Hcfg. unfold seeded_or_kept.
  rewrite <- (stored_data_agree st0 st ns key Hbefore).
  rewrite Hafter. unfold pref_value, pref_store.
  destruct (stored_data st ns key) as [data|].
  - split; [reflexivity | exact Hbefore].
  - exists (get_or_empty pc cfg). split; [exact Hcfg|]. split; [reflexivity|].
    apply lookup_insert_eq.
Qed.

(** After a read the key holds the value that was used. *)
Lemma seeded_or_kept_stored (pc : gmap string string) (ns key cfg : string)
    (st st' : gmap (string * string) (gmap string string)) (used : option string) :
  seeded_or_kept pc ns key cfg st st' used ->
  exists v, used = Some v /\ stored_data st' ns key = Some v.
Proof.
  unfold seeded_or_kept. destruct (stored_data st ns key) as [data|] eqn:Hst.
  - intros [-> Hsame]. exists data. split; [reflexivity|].
    now rewrite (stored_data_agree st st' ns key Hsame).
  - intros (fallback & _ & -> & Hnew). exists fallback. split; [reflexivity|].
    unfold stored_data. rewrite Hnew. cbn. apply lookup_singleton_eq.
Qed.

(** A read that finds a stored value uses it, whatever the default is. *)
Lemma seeded_or_kept_reads_stored (pc : gmap string string) (ns key cfg : string)
    (st st' : gmap (string * string) (gmap string string)) (used : option string)
    (v : string) :
  stored_data st ns key = Some v ->
  seeded_or_kept pc ns key cfg st st' used ->
  used = Some v /\ st' !! (ns, key) = st !! (ns, key).
Proof. unfold seeded_or_kept. now intros ->. Qed.

(** What [draft_response] does to the world outside the console: it sends
    its request at least once, and leaves the store as the three reads made
    it. *)
Lemma draft_response_effects (llm : nat -> request -> outcome message)
    (state : State) (config : RunnableConfig) (w : World) :
  draft_ready state config = true ->
  let w' := world_after (DraftResponse.draft_response llm state config) w in
  (exists j, requests w'
             = (requests w ++ replicate (S j) (draft_request state config (store w)))%list)
  /\ store w' = draft_store config (store w).
Proof.
  intros Hready w'. subst w'. unfold world_after.
  rewrite (draft_response_run llm state config w Hready).
  destruct (drafting_retry_trace llm state (prompt_config config)
              (draft_request state config (store w))
              (with_store w (draft_store config (store w))))
    as (j & _ & Hq & Hs & _).
  destruct (DraftResponse.retry_with_exponential_backoff _ 5 1 _) as [[m|e] w4];
    cbn [snd] in *.
  - split; [exists j; exact Hq | exact Hs].
  - destruct (DraftResponse.is_personal_email (email state));
      [destruct (personal_response (prompt_config config) (email state))|];
      cbn [snd printed requests store]; (split; [exists j; exact Hq | exact Hs]).
Qed.

Lemma sent_argument_first (w w' : World) (req : request) (j : nat) (key : string) :
  requests w' = (requests w ++ replicate (S j) req)%list ->
  sent_argument w w' key = Graph.assoc key (kwargs req).
Proof.
  intros Hq. unfold sent_argument. rewrite Hq. cbn [replicate].
  now rewrite list_lookup_middle.
Qed.

Lemma draft_response_reads (llm : nat -> request -> outcome message)
    (state : State) (config : RunnableConfig) (w : World) :
  draft_ready state config = true ->
  let pc := prompt_config config in
  let ns := namespace_of config in
  let w' := world_after (DraftResponse.draft_response llm state config) w in
  seeded_or_kept pc ns "schedule_preferences" "schedule_preferences"
    (store w) (store w') (sent_argument w w' "schedule_preferences")
  /\ seeded_or_kept pc ns "random_preferences" "background_preferences"
       (store w) (store w') (sent_argument w w' "random_preferences")
  /\ seeded_or_kept pc ns "response_preferences" "response_preferences"
       (store w) (store w') (sent_argument w w' "response_preferences").
Proof.
  intros Hready pc ns w'.
  destruct (draft_ready_keys state config Hready) as [Hc _].
  destruct (draft_response_effects llm state config w Hready) as [[j Hq] Hs].
  fold w' in Hq, Hs.
  rewrite !(sent_argument_first w w' _ j _ Hq), Hs.
  unfold draft_store, draft_request. fold pc ns. cbn [kwargs Graph.assoc].
  change (String.eqb "schedule_preferences" "schedule_preferences") with true.
  change (String.eqb "schedule_preferences" "random_preferences") with false.
  change (String.eqb "random_preferences" "random_preferences") with true.
  change (String.eqb "schedule_preferences" "response_preferences") with false.
  change (String.eqb "random_preferences" "response_preferences") with false.
  change (String.eqb "response_preferences" "response_preferences") with true.
  cbv iota.
  split; [|split].
  - apply pref_read_seeded_or_kept; [reflexivity | | apply Hc; set_solver].
    now rewrite !pref_store_lookup_ne by discriminate.
  - apply pref_read_seeded_or_kept; [ | | apply Hc; set_solver].
    + now rewrite pref_store_lookup_ne by discriminate.
    + now rewrite pref_store_lookup_ne by discriminate.
  - apply pref_read_seeded_or_kept; [ | reflexivity | apply Hc; set_solver].
    now rewrite !pref_store_lookup_ne by discriminate.
Qed.

Lemma rewrite_reads (llm : nat -> request -> outcome message) (state : State)
    (config : RunnableConfig) (w : World) (prev : message) (tc : tool_call)
    (rest : list tool_call) (draft : pyval) :
  rewrite_ready state config = true ->
  last (messages state) = Some prev ->
  tool_calls_attr prev = Some (tc :: rest) ->
  tc_args tc !! "content" = Some draft ->
  let w' := world_after (Rewrite.rewrite llm state config) w in
  seeded_or_kept (prompt_config config) (namespace_of config)
    "rewrite_instructions" "rewrite_preferences"
    (store w) (store w') (sent_argument w w' "instructions").
Proof.
  intros Hready Hlast Hcalls Hcontent w'.
  destruct (rewrite_ready_keys state config Hready) as [Hc _].
  assert (Hw : requests w'
               = (requests w ++ [rewrite_request state config draft (store w)])%list
               /\ store w' = pref_store (prompt_config config) (store w)
                               (namespace_of config)
                               "rewrite_instructions" "rewrite_preferences").
  { subst w'. unfold world_after.
    rewrite (rewrite_run llm state config w prev tc rest draft Hready Hlast Hcalls
               Hcontent).
    cbv zeta.
    destruct (llm _ _) as [response|e]; [|split; reflexivity].
    destruct (tool_calls_attr response) as [[|answer answers]|]; try (split; reflexivity).
    destruct (tc_args answer !! "rewritten_content") as [[text|b|l]|];
      split; reflexivity. }
  destruct Hw as [Hq Hs].
  rewrite (sent_argument_first w w' _ 0 _ Hq), Hs.
  apply pref_read_seeded_or_kept; [reflexivity | reflexivity | apply Hc; set_solver].
Qed.

(** The write of the reflection graph: on a stored prompt, and for an
    answer of the reflection model, the entry is overwritten when the
    answer asks for it, and the store is left alone otherwise. *)
Lemma update_general_writes
    (reflection_model : nat -> request -> outcome Reflection.GeneralResponse)
    (pretty_repr : message -> string) (rstate : Reflection.ReflectionState)
    (w : World) (current : string) (output : Reflection.GeneralResponse) :
  stored_data (store w) (Reflection.assistant_key rstate) (Reflection.prompt_key rstate)
  = Some current ->
  (forall r, reflection_model (length (requests w)) r = Return output) ->
  let w' := world_after (Reflection.update_general reflection_model pretty_repr rstate) w in
  result_of (Reflection.update_general reflection_model pretty_repr rstate) w = Return tt
  /\ store w'
     = if Reflection.update_prompt output
       then <[(Reflection.assistant_key rstate, Reflection.prompt_key rstate)
              := {[ "data" := Reflection.new_prompt output ]}]> (store w)
       else store w.
Proof.
  intros Hstored Hmodel w'. subst w'.
  unfold result_of, world_after, Reflection.update_general.
  unfold stored_data in Hstored.
  destruct (store w !! (Reflection.assistant_key rstate, Reflection.prompt_key rstate))
    as [value|] eqn:Hvalue; [|discriminate].
  cbn in Hstored.
  erewrite bind_ok by (unfold store_get; rewrite Hvalue; reflexivity).
  erewrite bind_ok by reflexivity.
  erewrite bind_ok by (unfold getitem; rewrite Hstored; reflexivity).
  erewrite bind_ok by (unfold ainvoke; rewrite Hmodel; reflexivity).
  destruct (Reflection.update_prompt output); split; reflexivity.
Qed.

(** C5. For each preference key a stage reads ([schedule_preferences],
    [random_preferences] and [response_preferences] in [draft_response],
    [rewrite_instructions] in [rewrite]), in the namespace of the
    assistant:
    - when the store holds no text for the key, the stage puts the
      configured default into its prompt and writes it back to the store;
      when it holds one, the stage puts the stored text into its prompt and
      leaves the entry alone;
    - so a later run reads what the earlier run used, also under a
      configuration whose default is another one;
    - after the reflection graph overwrites a key, the next run reads the
      new text. *)
Theorem preferences_are_seeded_once :
  (forall (llm : nat -> request -> outcome message) (state : State)
          (config : RunnableConfig) (w : World),
     draft_ready state config = true ->
     let pc := prompt_config config in
     let ns := namespace_of config in
     let w' := world_after (DraftResponse.draft_response llm state config) w in
     seeded_or_kept pc ns "schedule_preferences" "schedule_preferences"
       (store w) (store w') (sent_argument w w' "schedule_preferences")
     /\ seeded_or_kept pc ns "random_preferences" "background_preferences"
          (store w) (store w') (sent_argument w w' "random_preferences")
     /\ seeded_or_kept pc ns "response_preferences" "response_preferences"
          (store w) (store w') (sent_argument w w' "response_preferences"))
  /\ (forall (llm : nat -> request -> outcome message) (state : State)
             (config : RunnableConfig) (w : World) (prev : message)
             (tc : tool_call) (rest : list tool_call) (draft : pyval),
        rewrite_ready state config = true ->
        last (messages state) = Some prev ->
        tool_calls_attr prev = Some (tc :: rest) ->
        tc_args tc !! "content" = Some draft ->
        let w' := world_after (Rewrite.rewrite llm state config) w in
        seeded_or_kept (prompt_config config) (namespace_of config)
          "rewrite_instructions" "rewrite_preferences"
          (store w) (store w') (sent_argument w w' "instructions"))
  /\ (forall (llm1 llm2 : nat -> request -> outcome message) (state1 state2 : State)
             (config1 config2 : RunnableConfig) (w : World),
        draft_ready state1 config1 = true ->
        draft_ready state2 config2 = true ->
        namespace_of config2 = namespace_of config1 ->
        let w1 := world_after (DraftResponse.draft_response llm1 state1 config1) w in
        let w2 := world_after (DraftResponse.draft_response llm2 state2 config2) w1 in
        forall key,
          key ∈ ["schedule_preferences"; "random_preferences"; "response_preferences"] ->
          sent_argument w1 w2 key = sent_argument w w1 key
          /\ store w2 !! (namespace_of config1, key)
             = store w1 !! (namespace_of config1, key))
  /\ (forall (reflection_model : nat -> request -> outcome Reflection.GeneralResponse)
             (pretty_repr : message -> string) (rstate : Reflection.ReflectionState)
             (w : World) (current : string) (output : Reflection.GeneralResponse)
             (llm : nat -> request -> outcome message) (state : State)
             (config : RunnableConfig),
        stored_data (store w) (Reflection.assistant_key rstate)
                    (Reflection.prompt_key rstate) = Some current ->
        (forall r, reflection_model (length (requests w)) r = Return output) ->
        Reflection.update_prompt output = true ->
        draft_ready state config = true ->
        namespace_of config = Reflection.assistant_key rstate ->
        Reflection.prompt_key rstate
          ∈ ["schedule_preferences"; "random_preferences"; "response_preferences"] ->
        let w1 := world_after (Reflection.update_general reflection_model pretty_repr
                                 rstate) w in
        let w2 := world_after (DraftResponse.draft_response llm state config) w1 in
        stored_data (store w1) (Reflection.assistant_key rstate)
                    (Reflection.prompt_key rstate)
        = Some (Reflection.new_prompt output)
        /\ sent_argument w1 w2 (Reflection.prompt_key rstate)
           = Some (Reflection.new_prompt output)).
Proof.
  split; [exact draft_response_reads|].
  split; [exact rewrite_reads|].
  split.
  - intros llm1 llm2 state1 state2 config1 config2 w Hr1 Hr2 Hns w1 w2 key Hkey.
    pose proof (draft_response_reads llm1 state1 config1 w Hr1) as (Ha & Hb & Hc).
    pose proof (draft_response_reads llm2 state2 config2 w1 Hr2) as (Ha' & Hb' & Hc').
    fold w1 in Ha, Hb, Hc. fold w2 in Ha', Hb', Hc'. rewrite Hns in Ha', Hb', Hc'.
    repeat (apply elem_of_cons in Hkey as [-> | Hkey]); [| | |inversion Hkey].
    + destruct (seeded_or_kept_stored _ _ _ _ _ _ _ Ha) as (v & -> & Hv).
      exact (seeded_or_kept_reads_stored _ _ _ _ _ _ _ _ Hv Ha').
    + destruct (seeded_or_kept_stored _ _ _ _ _ _ _ Hb) as (v & -> & Hv).
      exact (seeded_or_kept_reads_stored _ _ _ _ _ _ _ _ Hv Hb').
    + destruct (seeded_or_kept_stored _ _ _ _ _ _ _ Hc) as (v & -> & Hv).
      exact (seeded_or_kept_reads_stored _ _ _ _ _ _ _ _ Hv Hc').
  - intros model pretty rstate w current output llm state config Hstored Hmodel Hup
           Hready Hns Hkey w1 w2.
    destruct (update_general_writes model pretty rstate w current output Hstored Hmodel)
      as [_ Hstore].
    fold w1 in Hstore. rewrite Hup in Hstore.
    assert (Hnew : stored_data (store w1) (Reflection.assistant_key rstate)
                     (Reflection.prompt_key rstate)
                   = Some (Reflection.new_prompt output)).
    { unfold stored_data. rewrite Hstore, lookup_insert_eq. cbn.
      apply lookup_singleton_eq. }
    split; [exact Hnew|].
    pose proof (draft_response_reads llm state config w1 Hready) as (Ha & Hb & Hc).
    fold w2 in Ha, Hb, Hc. rewrite Hns in Ha, Hb, Hc.
    repeat (apply elem_of_cons in Hkey as [Hk | Hkey]); [| | |inversion Hkey];
      rewrite Hk in *.
    + exact (proj1 (seeded_or_kept_reads_stored _ _ _ _ _ _ _ _ Hnew Ha)).
    + exact (proj1 (seeded_or_kept_reads_stored _ _ _ _ _ _ _ _ Hnew Hb)).
    + exact (proj1 (seeded_or_kept_reads_stored _ _ _ _ _ _ _ _ Hnew Hc)).
Qed.

Lemma preferences_are_seeded_once_witness :
  let state := mk_State business_email None [] in
  let w1 := world_after (DraftResponse.draft_response prose_then_question state
                           sample_config) empty_world in
  let w2 := world_after (DraftResponse.draft_response prose_then_question state
                           other_config) w1 in
  sent_argument empty_world w1 "schedule_preferences" = Some "mornings"
  /\ stored_data (store w1) "assistant-1" "schedule_preferences" = Some "mornings"
  /\ sent_argument w1 w2 "schedule_preferences" = Some "mornings".
Proof.
  intros state w1 w2.
  pose proof preferences_are_seeded_once as (Hfirst & _ & Hlater & _).
  pose proof (Hfirst prose_then_question state sample_config empty_world eq_refl)
    as (Hschedule & _ & _).
  destruct (Hlater prose_then_question prose_then_question state state sample_config
              other_config empty_world eq_refl eq_refl eq_refl
              "schedule_preferences" ltac:(constructor)) as [Hsame _].
  fold w1 in Hschedule, Hsame. fold w2 in Hsame.
  destruct Hschedule as (fallback & Hcfg & Hused & Hstored).
  assert (fallback = "mornings") as -> by (vm_compute in Hcfg; congruence).
  split; [exact Hused|]. split.
  - unfold stored_data. change (namespace_of sample_config) with "assistant-1" in Hstored.
    rewrite Hstored. reflexivity.
  - rewrite Hsame. exact Hused.
Defined.

(** * Further properties of the code *)

(** ** Substrings *)

Lemma startswith_spec (p s : string) :
  Py.startswith p s = true <-> exists t, s = p +:+ t.
Proof.
  revert s. induction p as [|a p IH]; intros s; cbn.
  - split; [intros _; exists s; reflexivity | reflexivity].
  - destruct s as [|b s]; cbn.
    + split; [discriminate | intros [t Ht]; discriminate].
    + rewrite andb_true_iff, IH. split.
      * intros [Hab [t ->]]. apply Ascii.eqb_eq in Hab as ->. exists t. reflexivity.
      * intros [t Ht]. injection Ht as -> ->. split; [apply Ascii.eqb_refl | eauto].
Qed.

Lemma str_in_spec (needle hay : string) :
  Py.str_in needle hay = true <-> exists pre post, hay = pre +:+ needle +:+ post.
Proof.
  induction hay as [|c hay IH].
  - cbn [Py.str_in]. rewrite orb_false_r, startswith_spec. split.
    + intros [t Ht]. exists "", t. exact Ht.
    + intros (pre & post & H). destruct pre as [|a pre]; [|discriminate].
      exists post. exact H.
  - cbn [Py.str_in]. rewrite orb_true_iff, startswith_spec, IH. split.
    + intros [[t Ht] | (pre & post & ->)].
      * exists "", t. exact Ht.
      * exists (String c pre), post. reflexivity.
    + intros (pre & post & H). destruct pre as [|a pre].
      * left. exists post. exact H.
      * right. cbn in H. injection H as -> ->. exists pre, post. reflexivity.
Qed.

Lemma app_string_assoc (a b c : string) : (a +:+ b) +:+ c = a +:+ (b +:+ c).
Proof.
  induction a as [|x a IH]; [reflexivity|].
  change (String x ((a +:+ b) +:+ c) = String x (a +:+ (b +:+ c))).
  f_equal. exact IH.
Qed.

Lemma str_in_trans (a b c : string) :
  Py.str_in a b = true -> Py.str_in b c = true -> Py.str_in a c = true.
Proof.
  rewrite !str_in_spec. intros (p1 & q1 & ->) (p2 & q2 & ->).
  exists (p2 +:+ p1), (q1 +:+ q2). now rewrite !app_string_assoc.
Qed.

(** ** More on the pre-filter *)

(** X1. [should_ignore_immediately] never raises and touches nothing but
    the console. It answers [True] exactly when no career pattern occurs
    in subject or body, the subject is not meeting-like, the subject
    matches "newsletter" and the body matches "unsubscribe": the rules for
    "nvidia.*news", "weekly digest" and "personalized.*for you" never
    decide anything. It prints one line when it answers [True] and nothing
    otherwise. *)
Theorem prefilter_fires_only_on_newsletters (email : gmap string string) (w : World) :
  let run := Triage.should_ignore_immediately email w in
  (exists b, fst run = Return b)
  /\ (fst run = Return true <->
      important email = false /\ meeting_like email = false
      /\ Py.re_search "newsletter" (subject_of email) = true
      /\ Py.re_search "unsubscribe" (content_of email) = true)
  /\ slept (snd run) = slept w /\ requests (snd run) = requests w
  /\ store (snd run) = store w
  /\ (console (snd run) = console w \/ fst run = Return true)
  /\ (fst run = Return true ->
      console (snd run)
      = (console w ++ ["Ignoring obvious promotional email: " +:+ subject_of email])%list).
Proof.
  intros run. subst run. rewrite should_ignore_immediately_run.
  unfold prefilter_fires, newsletter_rule.
  destruct (important email), (meeting_like email),
    (Py.re_search "newsletter" (subject_of email)),
    (Py.re_search "unsubscribe" (content_of email)); cbn;
    (split; [eexists; reflexivity|]);
    (split; [split; [intros H; try discriminate H; auto
                    | intros (H1 & H2 & H3 & H4); congruence]|]);
    repeat split; auto; try discriminate.
Qed.

Lemma invitation_has_time_marker (s : string) :
  Py.str_in "invitation" s = true -> Py.any_in ["@"; "at"; "pm"; "am"] s = true.
Proof.
  intros H. unfold Py.any_in. cbn [existsb].
  rewrite (str_in_trans "at" "invitation" s eq_refl H).
  now rewrite orb_true_r.
Qed.

(** X2. The time-marker test is met by the word "invitation" itself, which
    contains "at". So an email whose lower-cased subject contains
    "invitation" is never ignored by the pre-filter, whatever else it
    says, and with a notify decision it is upgraded to [draft_response]
    exactly when the subject also contains a career term. *)
Theorem invitation_subjects_pass (state : State) (w : World) (t : RespondTo) :
  Py.str_in "invitation" (subject_of (email state)) = true ->
  Triage.should_ignore_immediately (email state) w = (Return false, w)
  /\ upgrade_condition (subject_of (email state))
     = Py.any_in ["assignment"; "interview"; "review"; "job"] (subject_of (email state))
  /\ (triage state = Some t -> response t = "notify" ->
      result_of (Graph.route_after_triage state) w
      = Return (if Py.any_in ["assignment"; "interview"; "review"; "job"]
                             (subject_of (email state))
                then "draft_response" else "notify")).
Proof.
  intros Hinv. pose proof (invitation_has_time_marker _ Hinv) as Hmark.
  assert (Hquiet : prefilter_fires (email state) = false).
  { unfold prefilter_fires, meeting_like. rewrite Hinv, Hmark. cbn.
    now rewrite andb_false_r. }
  assert (Hup : upgrade_condition (subject_of (email state))
                = Py.any_in ["assignment"; "interview"; "review"; "job"]
                            (subject_of (email state))).
  { unfold upgrade_condition. now rewrite Hinv, Hmark. }
  split; [|split].
  - now rewrite should_ignore_immediately_run, Hquiet.
  - exact Hup.
  - intros Ht Hr. rewrite route_after_triage_result, Hquiet, Ht, Hr, Hup. reflexivity.
Qed.

Lemma invitation_subjects_pass_witness :
  let state :=
    mk_State {[ "subject" := "Newsletter: invitation to our webinar";
                "page_content" := "Join us. Unsubscribe here." ]}
             (Some (mk_RespondTo "fyi" "notify")) [] in
  Triage.should_ignore_immediately (email state) empty_world = (Return false, empty_world)
  /\ result_of (Graph.route_after_triage state) empty_world = Return "notify".
Proof.
  intros state.
  pose proof (invitation_subjects_pass state empty_world (mk_RespondTo "fyi" "notify")
                eq_refl) as (Hquiet & _ & Hroute).
  split; [exact Hquiet | exact (Hroute eq_refl eq_refl)].
Defined.

(** ** More on the retry policy *)

Lemma triage_retry_last_call {A : Type} (func : M A) (m d : Z) (n : nat) :
  forall (r : Z) (w : World),
    Z.to_nat (m - r) = n -> exists w0, Triage.retry_loop func m d r w = func w0.
Proof.
  induction n as [n IH] using lt_wf_ind. intros r w Hn.
  rewrite triage_retry_loop_unfold.
  destruct (func w) as [[a|e] w1] eqn:Hf.
  - exists w. now rewrite Hf.
  - destruct (transient_for_triage e && bool_decide (r < m)) eqn:Hgo.
    + apply andb_true_iff in Hgo as [_ Hlt]. apply bool_decide_eq_true_1 in Hlt.
      apply (IH (Z.to_nat (m - (r + 1)))); [lia | reflexivity].
    + exists w. now rewrite Hf.
Qed.

Lemma draft_retry_last_call {A : Type} (func : M A) (m d : Z) (n : nat) :
  forall (r : Z) (w : World),
    Z.to_nat (m - r) = n -> exists w0, DraftResponse.retry_loop func m d r w = func w0.
Proof.
  induction n as [n IH] using lt_wf_ind. intros r w Hn.
  rewrite draft_retry_loop_unfold.
  destruct (func w) as [[a|e] w1] eqn:Hf.
  - exists w. now rewrite Hf.
  - destruct (transient_for_draft e && bool_decide (r < m)) eqn:Hgo.
    + apply andb_true_iff in Hgo as [_ Hlt]. apply bool_decide_eq_true_1 in Hlt.
      apply (IH (Z.to_nat (m - (r + 1)))); [lia | reflexivity].
    + exists w. now rewrite Hf.
Qed.

(** X3. The retry functions of both files add no outcome of their own:
    for every wrapped operation, every [max_retries] and every delay, what
    the wrapper returns or raises, and the world it leaves, is what the
    operation returned or raised, and left, on one of its calls (the last
    one). So an error is never wrapped or replaced, and nothing is printed
    or slept after the last call. *)
Theorem retry_ends_with_a_call {A : Type} (func : M A) (max_retries initial_delay : Z)
    (w : World) :
  (exists w0,
     Triage.retry_with_exponential_backoff func max_retries initial_delay w = func w0)
  /\ (exists w0,
        DraftResponse.retry_with_exponential_backoff func max_retries initial_delay w
        = func w0).
Proof.
  split.
  - exact (triage_retry_last_call func max_retries initial_delay _ 0 w eq_refl).
  - exact (draft_retry_last_call func max_retries initial_delay _ 0 w eq_refl).
Qed.



(** ** What the triage stage does to the world *)

Lemma total_backoff_bound (j : nat) :
  Z.of_nat j <= 5 -> total (backoff_terms 1 0 j) <= 31.
Proof.
  intros Hj. rewrite total_backoff_terms by lia.
  assert (2 ^ Z.of_nat j <= 2 ^ 5) by (apply Z.pow_le_mono_r; lia).
  change (2 ^ 5) with 32 in *. change (2 ^ 0) with 1. lia.
Qed.

Lemma triage_ready_keys (state : State) (config : RunnableConfig) :
  triage_ready state config = true ->
  (forall k, k ∈ ["name"; "full_name"; "background"; "triage_no"; "triage_email";
                  "triage_notify"] ->
     prompt_config config !! k = Some (get_or_empty (prompt_config config) k))
  /\ (forall k, k ∈ ["page_content"; "from_email"; "subject"] ->
        email state !! k = Some (get_or_empty (email state) k)).
Proof.
  unfold triage_ready. intros H. apply andb_true_iff in H as [Hc He].
  split; intros k Hk; eapply has_keys_lookup; eassumption.
Qed.

(** X5. Whatever the classifier and the few-shot search answer, one run of
    [triage_input] never writes the preference store, and the requests it
    sends are copies of one prompt: none when the pre-filter fires, at
    most six otherwise, and at least one when the few-shot search returns
    and the email and the configuration hold every key the stage
    subscripts; between them lie the backoff waits 1, 2, 4, ..., at most
    31 seconds in all. *)
Theorem triage_sends_at_most_six_requests
    (chain_ainvoke : nat -> request -> outcome RespondTo)
    (get_few_shot_examples :
       gmap string string -> gmap (string * string) (gmap string string)
       -> outcome string)
    (state : State) (config : RunnableConfig) (w : World) :
  let w' := world_after (Triage.triage_input chain_ainvoke get_few_shot_examples
                           state config) w in
  store w' = store w
  /\ exists (n : nat) (req : request),
       (n <= 6)%nat
       /\ requests w' = (requests w ++ replicate n req)%list
       /\ slept w' = (slept w ++ backoff_terms 1 0 (n - 1))%list
       /\ total (backoff_terms 1 0 (n - 1)) <= 31
       /\ (prefilter_fires (email state) = true -> n = 0%nat)
       /\ (prefilter_fires (email state) = false ->
           triage_ready state config = true ->
           (exists examples,
              get_few_shot_examples (email state) (store w) = Return examples) ->
           (1 <= n)%nat).
Proof.
  intros w'.
  set (P := fun w0 : World =>
    store w0 = store w
    /\ exists (n : nat) (req : request),
         (n <= 6)%nat
         /\ requests w0 = (requests w ++ replicate n req)%list
         /\ slept w0 = (slept w ++ backoff_terms 1 0 (n - 1))%list
         /\ total (backoff_terms 1 0 (n - 1)) <= 31
         /\ (prefilter_fires (email state) = true -> n = 0%nat)
         /\ (prefilter_fires (email state) = false ->
             triage_ready state config = true ->
             (exists examples,
                get_few_shot_examples (email state) (store w) = Return examples) ->
             (1 <= n)%nat)).
  change (P w'). subst w'.
  assert (Hnone : forall (w0 : World),
            store w0 = store w -> requests w0 = requests w -> slept w0 = slept w ->
            (prefilter_fires (email state) = false ->
             triage_ready state config = true ->
             (exists examples,
                get_few_shot_examples (email state) (store w) = Return examples) ->
             False) ->
            P w0).
  { intros w0 Hs Hr Hl Hnot. split; [exact Hs|]. exists 0%nat, sample_request.
    cbn. rewrite !app_nil_r. repeat split; auto; try lia.
    intros H1 H2 H3. destruct (Hnot H1 H2 H3). }
  unfold world_after, Triage.triage_input.
  unfold bind at 1. rewrite should_ignore_immediately_run.
  destruct (prefilter_fires (email state)) eqn:Hfire.
  { apply Hnone; try reflexivity. discriminate. }
  unfold bind at 1.
  destruct (get_few_shot_examples (email state) (store w)) as [examples|e] eqn:Hshot.
  2:{ apply Hnone; try reflexivity. intros _ _ [examples Hex]. discriminate. }
  unfold get_config_async. unfold bind at 1. unfold ret at 1.
  repeat (unfold bind at 1;
          match goal with
          | |- context [getitem ?d ?k w] =>
              let Hk := fresh "Hk" in
              unfold getitem at 1; destruct (d !! k) eqn:Hk;
              [ unfold ret at 1
              | apply Hnone; try reflexivity;
                intros _ Hready _;
                destruct (triage_ready_keys state config Hready) as [Hc He];
                first [ rewrite Hc in Hk by repeat constructor
                      | rewrite He in Hk by repeat constructor ];
                discriminate Hk ]
          end).
  unfold bind at 1.
  match goal with
  | |- context [Triage.retry_with_exponential_backoff (ainvoke _ ?r) _ _ w] =>
      destruct (triage_retry_trace chain_ainvoke r 5 1 w) as (j & Hs & Hq & Ht & Hb);
      destruct (Triage.retry_with_exponential_backoff (ainvoke chain_ainvoke r) 5 1 w)
        as [[answer|e] w1];
      cbn [snd ret] in *; (split; [exact Ht|]); exists (S j), r;
      rewrite Nat.sub_succ, Nat.sub_0_r;
      (repeat split; [lia | exact Hq | exact Hs | apply total_backoff_bound; lia
                     | discriminate | intros; lia])
  end.
Qed.

Lemma triage_sends_at_most_six_requests_witness :
  requests (world_after (Triage.triage_input
                           (fun _ _ => Return (mk_RespondTo "worth a reply" "email"))
                           (fun _ _ => Return "") newsletter_state sample_config)
                        empty_world) = [].
Proof.
  destruct (triage_sends_at_most_six_requests
              (fun _ _ => Return (mk_RespondTo "worth a reply" "email"))
              (fun _ _ => Return "") newsletter_state sample_config empty_world)
    as (_ & n & req & _ & Hq & _ & _ & Hzero & _).
  rewrite Hq, (Hzero eq_refl). reflexivity.
Defined.

(** ** More on the drafting stage *)

Lemma attempt_of_business_email (llm : nat -> request -> outcome message)
    (state : State) (pc : gmap string string) (req : request) (i : nat) (m : message) :
  DraftResponse.is_personal_email (email state) = false ->
  attempt llm state pc req i = Return m ->
  llm i req = Return m /\ exists tc tcs, tool_calls_attr m = Some (tc :: tcs).
Proof.
  intros Hp. unfold attempt. rewrite Hp.
  destruct (llm i req) as [response|e]; [|discriminate].
  destruct (tool_calls_attr response) as [[|tc tcs]|] eqn:Htc; try discriminate.
  intros [= <-]. eauto.
Qed.

(** X6. For an email that is not a low-stakes personal one, on a complete
    configuration: every message the drafting stage returns is an answer
    the model gave to the drafting prompt, unchanged, and it carries at
    least one tool call; it is both the only message of the update and its
    draft. Every failure of the stage is a [ValueError] whose text is
    "Failed to get valid tool call from LLM after retries. Last error: "
    followed by the text of the last error, whatever the class of that
    error was and whether or not anything was retried. *)
Theorem business_draft_outcome (llm : nat -> request -> outcome message)
    (state : State) (config : RunnableConfig) (w : World) :
  draft_ready state config = true ->
  DraftResponse.is_personal_email (email state) = false ->
  match fst (DraftResponse.draft_response llm state config w) with
  | Return u =>
      exists (m : message) (i : nat) (tc : tool_call) (tcs : list tool_call),
        u = mk_Update None None (Some [m]) (Some m)
        /\ llm i (draft_request state config (store w)) = Return m
        /\ tool_calls_attr m = Some (tc :: tcs)
  | Raise e =>
      exists last_error : string,
        e = mk_exn ValueError
              ("Failed to get valid tool call from LLM after retries. Last error: "
               +:+ last_error)
  end.
Proof.
  intros Hready Hbusiness. rewrite draft_response_run by exact Hready.
  unfold DraftResponse.retry_with_exponential_backoff.
  destruct (draft_retry_last_call
              (DraftResponse.invoke_llm_with_retry llm state (prompt_config config)
                 (draft_request state config (store w))) 5 1 _ 0
              (with_store w (draft_store config (store w))) eq_refl) as [w0 ->].
  destruct (invoke_run llm state (prompt_config config)
              (draft_request state config (store w)) w0) as (Hres & _).
  destruct (DraftResponse.invoke_llm_with_retry llm state (prompt_config config)
              (draft_request state config (store w)) w0) as [[m|e] w4]; cbn [fst] in *.
  - symmetry in Hres.
    destruct (attempt_of_business_email _ _ _ _ _ _ Hbusiness Hres)
      as (Hllm & tc & tcs & Htc).
    exists m, (length (requests w0)), tc, tcs. auto.
  - rewrite Hbusiness. cbn [fst]. eauto.
Qed.

Lemma business_draft_outcome_witness :
  exists (m : message) (i : nat),
    fst (DraftResponse.draft_response prose_then_question
           (mk_State business_email None []) sample_config empty_world)
    = Return (mk_Update None None (Some [m]) (Some m))
    /\ prose_then_question i
         (draft_request (mk_State business_email None []) sample_config ∅)
       = Return m.
Proof.
  pose proof (business_draft_outcome prose_then_question
                (mk_State business_email None []) sample_config empty_world
                eq_refl eq_refl) as H.
  destruct (fst (DraftResponse.draft_response prose_then_question
                   (mk_State business_email None []) sample_config empty_world))
    as [u|e] eqn:Hrun.
  - destruct H as (m & i & tc & tcs & -> & Hllm & _). exists m, i. split; auto.
  - exfalso.
    assert (Hok : fst (DraftResponse.draft_response prose_then_question
                         (mk_State business_email None []) sample_config empty_world)
                  = Return (draft_update question_answer))
      by (vm_compute; reflexivity).
    rewrite Hrun in Hok. discriminate.
Defined.

Lemma pref_store_lookup_other (pc : gmap string string)
    (st : gmap (string * string) (gmap string string))
    (ns key cfg ns' key' : string) :
  (ns', key') <> (ns, key) ->
  pref_store pc st ns key cfg !! (ns', key') = st !! (ns', key').
Proof.
  intros Hne. unfold pref_store. destruct (stored_data st ns key); [reflexivity|].
  apply lookup_insert_ne. congruence.
Qed.

Lemma pref_store_keeps_data (pc : gmap string string)
    (st : gmap (string * string) (gmap string string))
    (ns key cfg ns' key' data : string) :
  stored_data st ns' key' = Some data ->
  pref_store pc st ns key cfg !! (ns', key') = st !! (ns', key').
Proof.
  intros Hdata. destruct (decide ((ns', key') = (ns, key))) as [[= -> ->]|Hne].
  - unfold pref_store. now rewrite Hdata.
  - now apply pref_store_lookup_other.
Qed.

(** X7. What one run of [draft_response] does to the world, on a complete
    configuration and for every behaviour of the model: in the store only
    the three preference keys of the assistant's own namespace can change,
    and an entry that holds a text is never overwritten; between one and
    six copies of one request are sent, with the waits 1, 2, 4, ...
    between them; the [Ignore] tool is offered exactly when the log is not
    empty. *)
Theorem draft_response_frame (llm : nat -> request -> outcome message)
    (state : State) (config : RunnableConfig) (w : World) :
  draft_ready state config = true ->
  let w' := world_after (DraftResponse.draft_response llm state config) w in
  let req := draft_request state config (store w) in
  (forall ns key,
     ~ (ns = namespace_of config /\ key ∈ draft_keys) ->
     store w' !! (ns, key) = store w !! (ns, key))
  /\ (forall ns key data,
        stored_data (store w) ns key = Some data ->
        store w' !! (ns, key) = store w !! (ns, key))
  /\ (exists j : nat,
        (j <= 5)%nat
        /\ requests w' = (requests w ++ replicate (S j) req)%list
        /\ slept w' = (slept w ++ backoff_terms 1 0 j)%list)
  /\ ("Ignore" ∈ tools req <-> messages state <> []).
Proof.
  intros Hready w' req.
  assert (Hstore : store w' = draft_store config (store w))
    by apply (draft_response_effects llm state config w Hready).
  split; [|split; [|split]].
  - intros ns key Hout. rewrite Hstore. unfold draft_store.
    rewrite !pref_store_lookup_other; [reflexivity | | |];
      intros [= -> ->]; apply Hout; (split; [reflexivity|]);
      unfold draft_keys; set_solver.
  - intros ns key data Hdata. rewrite Hstore. unfold draft_store. cbv zeta.
    set (pc := prompt_config config). set (nsp := namespace_of config).
    set (st1 := pref_store pc (store w) nsp "schedule_preferences"
                  "schedule_preferences").
    set (st2 := pref_store pc st1 nsp "random_preferences" "background_preferences").
    assert (H1 : st1 !! (ns, key) = store w !! (ns, key))
      by (eapply pref_store_keeps_data; exact Hdata).
    assert (D1 : stored_data st1 ns key = Some data)
      by (rewrite (stored_data_agree _ _ _ _ H1); exact Hdata).
    assert (H2 : st2 !! (ns, key) = st1 !! (ns, key))
      by (eapply pref_store_keeps_data; exact D1).
    assert (D2 : stored_data st2 ns key = Some data)
      by (rewrite (stored_data_agree _ _ _ _ H2); exact D1).
    rewrite (pref_store_keeps_data pc st2 nsp _ _ ns key data D2).
    now rewrite H2, H1.
  - subst w'. unfold world_after. rewrite draft_response_run by exact Hready.
    destruct (drafting_retry_trace llm state (prompt_config config) req
                (with_store w (draft_store config (store w))))
      as (j & Hs & Hq & _ & Hb).
    exists j. split; [lia|].
    fold req.
    destruct (DraftResponse.retry_with_exponential_backoff _ 5 1 _) as [[m|e] w4];
      cbn [snd] in *.
    + auto.
    + destruct (DraftResponse.is_personal_email (email state));
        [destruct (personal_response _ _)|]; cbn; auto.
  - subst req. unfold draft_request. cbn [tools].
    rewrite list_elem_of_In.
    destruct (messages state) as [|m ms]; cbn.
    + split; [intros Hin | intros H; now destruct H].
      repeat (destruct Hin as [Hin|Hin]; [discriminate Hin|]). destruct Hin.
    + split; [discriminate | intros _; tauto].
Qed.

Lemma draft_response_frame_witness :
  let state := mk_State business_email None [] in
  let w := with_store empty_world
             {[ ("assistant-1", "schedule_preferences") := {[ "data" := "late mornings" ]};
                ("assistant-2", "schedule_preferences") := {[ "data" := "never" ]} ]} in
  let w' := world_after (DraftResponse.draft_response prose_then_question state
                           sample_config) w in
  store w' !! ("assistant-1", "schedule_preferences")
  = Some {[ "data" := "late mornings" ]}
  /\ store w' !! ("assistant-2", "schedule_preferences") = Some {[ "data" := "never" ]}.
Proof.
  intros state w w'.
  destruct (draft_response_frame prose_then_question state sample_config w eq_refl)
    as (Hout & Hkeep & _).
  subst w'. split.
  - rewrite (Hkeep "assistant-1" "schedule_preferences" "late mornings" eq_refl).
    reflexivity.
  - rewrite (Hout "assistant-2" "schedule_preferences"); [reflexivity|].
    intros [Hns _]. discriminate Hns.
Defined.

(** ** More on the refinement stage *)

(** X8. [rewrite] needs a draft to work on. When the log is empty, when
    its last message has no [tool_calls] attribute or an empty list, or
    when the first tool call has no [content] argument, the stage fails
    with an [IndexError], an [AttributeError] or the [KeyError] of
    ['content'], and it fails before it touches anything: no request is
    sent, nothing is read from the configuration, and the store is as it
    was. *)
Theorem rewrite_needs_a_draft (llm : nat -> request -> outcome message)
    (state : State) (config : RunnableConfig) (w : World) :
  drafted_content state = None ->
  exists e,
    Rewrite.rewrite llm state config w = (Raise e, w)
    /\ (exn_class_of e = IndexError \/ exn_class_of e = AttributeError
        \/ e = mk_exn KeyError "'content'")
    /\ (messages state = [] -> exn_class_of e = IndexError).
Proof.
  unfold drafted_content, Rewrite.rewrite, last_item, Rewrite.first_tool_call,
    first_item.
  intros Hnone.
  destruct (last (messages state)) as [prev|] eqn:Hlast; cbn in Hnone.
  - assert (Hne : messages state <> []) by (intros E; rewrite E in Hlast; discriminate).
    unfold bind at 1. unfold ret at 1. unfold bind at 1.
    destruct (tool_calls_attr prev) as [[|tc rest]|].
    + eexists. split; [reflexivity|]. split; [now left | intros E; now destruct Hne].
    + unfold ret at 1. unfold bind at 1. rewrite Hnone.
      eexists. split; [reflexivity|].
      split; [now right; right | intros E; now destruct Hne].
    + eexists. split; [reflexivity|].
      split; [now right; left | intros E; now destruct Hne].
  - eexists. split; [reflexivity|]. split; [now left | reflexivity].
Qed.

Lemma rewrite_needs_a_draft_witness :
  exists e,
    Rewrite.rewrite rewrite_answer
      (mk_State business_email None [HumanMessage (Some "m1") "please reply"])
      sample_config empty_world
    = (Raise e, empty_world).
Proof.
  destruct (rewrite_needs_a_draft rewrite_answer
              (mk_State business_email None [HumanMessage (Some "m1") "please reply"])
              sample_config empty_world eq_refl) as (e & Hrun & _).
  exists e. exact Hrun.
Defined.

(** X9. [rewrite] has no retry. With a draft in the log and a complete
    configuration it sends exactly one request and never waits or prints,
    whatever the model answers; an error of the model, an overloaded one
    included, leaves the stage as it is; and in the store only the entry
    [rewrite_instructions] of the assistant's namespace can change. *)
Theorem rewrite_calls_the_model_once (llm : nat -> request -> outcome message)
    (state : State) (config : RunnableConfig) (w : World) (prev : message)
    (tc : tool_call) (rest : list tool_call) (draft : pyval) :
  rewrite_ready state config = true ->
  last (messages state) = Some prev ->
  tool_calls_attr prev = Some (tc :: rest) ->
  tc_args tc !! "content" = Some draft ->
  let w' := world_after (Rewrite.rewrite llm state config) w in
  let req := rewrite_request state config draft (store w) in
  requests w' = (requests w ++ [req])%list
  /\ slept w' = slept w
  /\ console w' = console w
  /\ (forall ns key,
        (ns, key) <> (namespace_of config, "rewrite_instructions") ->
        store w' !! (ns, key) = store w !! (ns, key))
  /\ (forall e, llm (length (requests w)) req = Raise e ->
        result_of (Rewrite.rewrite llm state config) w = Raise e).
Proof.
  intros Hready Hlast Htc Hdraft w' req. subst w'.
  unfold world_after, result_of.
  rewrite (rewrite_run llm state config w prev tc rest draft Hready Hlast Htc Hdraft).
  cbv zeta. fold req.
  assert (Hstore : forall ns key,
            (ns, key) <> (namespace_of config, "rewrite_instructions") ->
            pref_store (prompt_config config) (store w) (namespace_of config)
              "rewrite_instructions" "rewrite_preferences" !! (ns, key)
            = store w !! (ns, key)).
  { intros ns key Hne. now apply pref_store_lookup_other. }
  destruct (llm (length (requests w)) req) as [response|e].
  - destruct (tool_calls_attr response) as [[|answer others]|];
      [| destruct (tc_args answer !! "rewritten_content") as [[text|b|l]|] |];
      cbn [fst snd requests slept console store];
      (repeat split; [exact Hstore | discriminate]).
  - cbn [fst snd requests slept console store].
    repeat split; [exact Hstore | now intros e' [= ->]].
Qed.

Lemma rewrite_calls_the_model_once_witness :
  let busy (_ : nat) (_ : request) : outcome message := Raise overloaded_error in
  result_of (Rewrite.rewrite busy drafted_state sample_config) empty_world
  = Raise overloaded_error
  /\ length (requests (world_after (Rewrite.rewrite busy drafted_state sample_config)
                                   empty_world)) = 1%nat
  /\ slept (world_after (Rewrite.rewrite busy drafted_state sample_config)
                        empty_world) = [].
Proof.
  intros busy.
  destruct (rewrite_calls_the_model_once busy drafted_state sample_config empty_world
              _ _ _ _ eq_refl eq_refl eq_refl eq_refl) as (Hq & Hs & _ & _ & He).
  split; [apply He; reflexivity|]. split.
  - rewrite Hq. reflexivity.
  - rewrite Hs. reflexivity.
Defined.

(** ** More on the reflection graph *)

(** X10. [update_general] changes nothing but the one entry it is asked to
    update, and it cannot create that entry: with nothing stored under the
    key it fails with an [AttributeError], and with an entry that has no
    ["data"] field with the [KeyError] of ['data'], in both cases before
    any request is sent. It sends at most one request and never waits, and
    when it fails the store is as it was. *)
Theorem update_general_frame
    (reflection_model : nat -> request -> outcome Reflection.GeneralResponse)
    (pretty_repr : message -> string) (rstate : Reflection.ReflectionState)
    (w : World) :
  let run := Reflection.update_general reflection_model pretty_repr rstate w in
  let ns := Reflection.assistant_key rstate in
  let key := Reflection.prompt_key rstate in
  (forall ns' key', (ns', key') <> (ns, key) ->
     store (snd run) !! (ns', key') = store w !! (ns', key'))
  /\ (store w !! (ns, key) = None -> run = (Raise (mk_exn AttributeError "value"), w))
  /\ (forall value, store w !! (ns, key) = Some value -> value !! "data" = None ->
        run = (Raise (mk_exn KeyError "'data'"), w))
  /\ (requests (snd run) = requests w
      \/ exists req, requests (snd run) = (requests w ++ [req])%list)
  /\ slept (snd run) = slept w
  /\ (forall e, fst run = Raise e -> store (snd run) = store w).
Proof.
  cbv zeta.
  unfold Reflection.update_general, bind, store_get, getitem, ainvoke, ret, raise,
    store_put.
  destruct (store w !! (Reflection.assistant_key rstate, Reflection.prompt_key rstate))
    as [value|] eqn:Hentry.
  2:{ cbn. repeat split; auto; discriminate. }
  destruct (value !! "data") as [current|] eqn:Hdata.
  2:{ cbn. repeat split; auto; discriminate. }
  match goal with
  | |- context [reflection_model ?n ?r] =>
      set (req := r); destruct (reflection_model n req) as [output|e] eqn:Hanswer
  end.
  2:{ cbn. repeat split; eauto; try discriminate.
      intros value' [= <-] Hno. congruence. }
  destruct (Reflection.update_prompt output) eqn:Hupd; cbn.
  - repeat split; eauto; try discriminate.
    + intros ns' key' Hne. apply lookup_insert_ne. congruence.
    + intros value' [= <-] Hno. congruence.
  - repeat split; eauto; try discriminate.
    intros value' [= <-] Hno. congruence.
Qed.

Lemma update_general_frame_witness :
  Reflection.update_general
    (fun _ _ => Return (Reflection.mk_GeneralResponse "be brief" true "Keep it short."))
    (fun _ => "")
    (Reflection.mk_ReflectionState [] "too long" "response_preferences" "assistant-1"
       Fanout.RESPONSE_INSTRUCTIONS)
    empty_world
  = (Raise (mk_exn AttributeError "value"), empty_world).
Proof.
  destruct (update_general_frame
              (fun _ _ => Return (Reflection.mk_GeneralResponse "be brief" true
                                    "Keep it short."))
              (fun _ => "")
              (Reflection.mk_ReflectionState [] "too long" "response_preferences"
                 "assistant-1" Fanout.RESPONSE_INSTRUCTIONS)
              empty_world) as (_ & Hnone & _).
  apply Hnone. reflexivity.
Defined.

Lemma table_get_run (table : list (string * string)) (key : string) (w : World) :
  Fanout.table_get table key w
  = (match Graph.assoc key table with
     | Some v => Return v
     | None => Raise (mk_exn KeyError ("'" +:+ key +:+ "'"))
     end, w).
Proof. unfold Fanout.table_get. now destruct (Graph.assoc key table). Qed.

(** A loop whose body leaves the world alone: it returns the results of
    the body in order, or raises the error of the first element on which
    the body raises. *)
Lemma for_each_pure {A B : Type} (f : A -> M B) (g : A -> outcome B) (l : list A)
    (w : World) :
  (forall x w0, f x w0 = (g x, w0)) ->
  snd (Fanout.for_each f l w) = w
  /\ (forall ys, fst (Fanout.for_each f l w) = Return ys ->
        Forall2 (fun x y => g x = Return y) l ys)
  /\ (Forall (fun x => exists y, g x = Return y) l ->
        exists ys, fst (Fanout.for_each f l w) = Return ys)
  /\ (forall e, fst (Fanout.for_each f l w) = Raise e ->
        exists x, x ∈ l /\ g x = Raise e).
Proof.
  intros Hf. induction l as [|x l IH].
  - cbn [Fanout.for_each]. unfold ret. cbn. repeat split.
    + intros ys [= <-]. constructor.
    + eauto.
    + discriminate.
  - destruct IH as (Hw & Hret & Hall & Hraise).
    assert (E : Fanout.for_each f (x :: l) w
                = match g x with
                  | Return y =>
                      match Fanout.for_each f l w with
                      | (Return ys, w1) => (Return (y :: ys), w1)
                      | (Raise e, w1) => (Raise e, w1)
                      end
                  | Raise e => (Raise e, w)
                  end).
    { cbn [Fanout.for_each]. unfold bind, ret. rewrite Hf.
      destruct (g x); [destruct (Fanout.for_each f l w) as [[ys|e] w1]|]; reflexivity. }
    rewrite E. clear E.
    destruct (g x) as [y|e] eqn:Hgx.
    + destruct (Fanout.for_each f l w) as [[ys|e] w1] eqn:Hrest; cbn in *; subst w1.
      * repeat split.
        -- intros ys' [= <-]. constructor; auto.
        -- eauto.
        -- discriminate.
      * repeat split.
        -- discriminate.
        -- intros Hforall. apply Forall_cons in Hforall as [_ Hl].
           destruct (Hall Hl) as [ys Hys]. discriminate.
        -- intros e' [= <-]. destruct (Hraise e eq_refl) as (x' & Hin & Hx').
           exists x'. split; [now right | exact Hx'].
    + cbn. repeat split.
      * discriminate.
      * intros Hforall. apply Forall_cons in Hforall as [[y Hy] _]. congruence.
      * intros e' [= <-]. exists x. split; [now left | exact Hgx].
Qed.

Lemma known_memory_type (t : string) :
  t ∈ memory_types ->
  (exists description, Graph.assoc t Fanout.MEMORY_TO_UPDATE = Some description)
  /\ (exists key, Graph.assoc t Reflection.MEMORY_TO_UPDATE_KEYS = Some key
                  /\ key ∈ preference_keys)
  /\ (exists text, Graph.assoc t Fanout.MEMORY_TO_UPDATE_INSTRUCTIONS = Some text).
Proof.
  unfold memory_types, preference_keys. intros Hin.
  repeat (apply elem_of_cons in Hin as [-> | Hin]);
    [| | | | inversion Hin];
    (split; [eexists; reflexivity|]; split; [eexists; split; [reflexivity|]|
                                            eexists; reflexivity]);
    cbn; rewrite list_elem_of_In; cbn; tauto.
Qed.

Lemma unknown_memory_type (t : string) :
  t ∉ memory_types ->
  Graph.assoc t Fanout.MEMORY_TO_UPDATE = None
  /\ Graph.assoc t Reflection.MEMORY_TO_UPDATE_KEYS = None
  /\ Graph.assoc t Fanout.MEMORY_TO_UPDATE_INSTRUCTIONS = None.
Proof.
  unfold memory_types. intros Hout.
  assert (H1 : String.eqb "tone" t = false)
    by (apply String.eqb_neq; intros <-; apply Hout; rewrite list_elem_of_In; cbn; tauto).
  assert (H2 : String.eqb "background" t = false)
    by (apply String.eqb_neq; intros <-; apply Hout; rewrite list_elem_of_In; cbn; tauto).
  assert (H3 : String.eqb "email" t = false)
    by (apply String.eqb_neq; intros <-; apply Hout; rewrite list_elem_of_In; cbn; tauto).
  assert (H4 : String.eqb "calendar" t = false)
    by (apply String.eqb_neq; intros <-; apply Hout; rewrite list_elem_of_In; cbn; tauto).
  unfold Fanout.MEMORY_TO_UPDATE, Reflection.MEMORY_TO_UPDATE_KEYS,
    Fanout.MEMORY_TO_UPDATE_INSTRUCTIONS, Graph.assoc.
  now rewrite H1, H2, H3, H4.
Qed.

Lemma Forall2_returns_map {A B : Type} (g : A -> outcome B) (h : A -> B)
    (l : list A) (ys : list B) :
  (forall x y, g x = Return y -> y = h x) ->
  Forall2 (fun x y => g x = Return y) l ys -> ys = map h l.
Proof.
  intros Hg HF. induction HF as [|x y l ys Hxy _ IH]; [reflexivity|].
  cbn. now rewrite (Hg x y Hxy), IH.
Qed.

Lemma Forall2_returns_all {A B : Type} (g : A -> outcome B) (l : list A)
    (ys : list B) (x : A) :
  Forall2 (fun x y => g x = Return y) l ys -> x ∈ l -> exists y, g x = Return y.
Proof.
  intros HF. induction HF as [|x' y l ys Hxy _ IH]; intros Hin; [inversion Hin|].
  apply elem_of_cons in Hin as [-> | Hin]; eauto.
Qed.

(** X11. The fan-out of the reflection graph, for every answer of the
    model. A prompt type outside tone, background, email and calendar
    makes [determine_what_to_update] fail with a [KeyError] before any
    request is sent. With known prompt types it sends one request, and
    then: an error of the model is raised as it is; an answer naming only
    known memory types gives one task per name, in the order of the
    answer, each with the messages, the feedback and the assistant key of
    the input, and with the store key and the instructions of its type;
    that key is always one of the four keys the stages read their
    preferences from; an answer naming any other type fails with a
    [KeyError]. The store is never touched. *)
Theorem fanout_tasks (reflection_model : nat -> request -> outcome (list string))
    (pretty_repr : message -> string) (state : Fanout.MultiMemoryInput) (w : World) :
  let run := Fanout.determine_what_to_update reflection_model pretty_repr state w in
  let req := choose_request pretty_repr state in
  store (snd run) = store w
  /\ ((exists p, p ∈ Fanout.prompt_types state /\ p ∉ memory_types) ->
      exists e, run = (Raise e, w) /\ exn_class_of e = KeyError)
  /\ (Forall (fun p => p ∈ memory_types) (Fanout.prompt_types state) ->
      requests (snd run) = (requests w ++ [req])%list
      /\ (forall e, reflection_model (length (requests w)) req = Raise e ->
            fst run = Raise e)
      /\ (forall types, reflection_model (length (requests w)) req = Return types ->
            (Forall (fun t => t ∈ memory_types) types ->
             exists tasks, fst run = Return tasks
                           /\ Forall2 (task_for state) types tasks)
            /\ ((exists t, t ∈ types /\ t ∉ memory_types) ->
                exists e, fst run = Raise e /\ exn_class_of e = KeyError))).
Proof.
  intros run req.
  set (f1 := fun p_type : string =>
               let* description := Fanout.table_get Fanout.MEMORY_TO_UPDATE p_type in
               ret ("`" +:+ p_type +:+ "`: " +:+ description)).
  set (g1 := fun p_type : string =>
               match Graph.assoc p_type Fanout.MEMORY_TO_UPDATE with
               | Some description => Return ("`" +:+ p_type +:+ "`: " +:+ description)
               | None => Raise (mk_exn KeyError ("'" +:+ p_type +:+ "'"))
               end).
  set (f2 := fun t : string =>
               let* key := Fanout.table_get Reflection.MEMORY_TO_UPDATE_KEYS t in
               let* instructions :=
                 Fanout.table_get Fanout.MEMORY_TO_UPDATE_INSTRUCTIONS t in
               ret (Reflection.mk_ReflectionState (Fanout.mm_messages state)
                      (Fanout.mm_feedback state) key (Fanout.mm_assistant_key state)
                      instructions)).
  set (g2 := fun t : string =>
               match Graph.assoc t Reflection.MEMORY_TO_UPDATE_KEYS with
               | Some key =>
                   match Graph.assoc t Fanout.MEMORY_TO_UPDATE_INSTRUCTIONS with
                   | Some instructions =>
                       Return (Reflection.mk_ReflectionState (Fanout.mm_messages state)
                                 (Fanout.mm_feedback state) key
                                 (Fanout.mm_assistant_key state) instructions)
                   | None => Raise (mk_exn KeyError ("'" +:+ t +:+ "'"))
                   end
               | None => Raise (mk_exn KeyError ("'" +:+ t +:+ "'"))
               end).
  assert (Hf1 : forall x w0, f1 x w0 = (g1 x, w0)).
  { intros x w0. subst f1 g1. cbn beta. unfold bind. rewrite table_get_run.
    now destruct (Graph.assoc x Fanout.MEMORY_TO_UPDATE). }
  assert (Hf2 : forall x w0, f2 x w0 = (g2 x, w0)).
  { intros x w0. subst f2 g2. cbn beta. unfold bind. rewrite table_get_run.
    destruct (Graph.assoc x Reflection.MEMORY_TO_UPDATE_KEYS); [|reflexivity].
    rewrite table_get_run.
    now destruct (Graph.assoc x Fanout.MEMORY_TO_UPDATE_INSTRUCTIONS). }
  assert (Hg1 : forall e x, g1 x = Raise e -> exn_class_of e = KeyError).
  { intros e x. subst g1. cbn beta.
    destruct (Graph.assoc x Fanout.MEMORY_TO_UPDATE); [discriminate|].
    now intros [= <-]. }
  assert (Hg2 : forall e x, g2 x = Raise e -> exn_class_of e = KeyError).
  { intros e x. subst g2. cbn beta.
    destruct (Graph.assoc x Reflection.MEMORY_TO_UPDATE_KEYS);
      [destruct (Graph.assoc x Fanout.MEMORY_TO_UPDATE_INSTRUCTIONS)|];
      try discriminate; now intros [= <-]. }
  set (request_of := fun lines : list string =>
         mk_request "CHOOSE_MEMORY_PROMPT"
           [ ("trajectory",
              Reflection.get_trajectory_clean pretty_repr (Fanout.mm_messages state));
             ("feedback", Fanout.mm_feedback state);
             ("types_of_prompts", String.concat (String "010" EmptyString) lines) ]
           ["MemoryToUpdate"]).
  assert (E : run
              = match Fanout.for_each f1 (Fanout.prompt_types state) w with
                | (Return lines, w1) =>
                    let w2 := mk_World (console w1) (slept w1)
                                (requests w1 ++ [request_of lines])%list (store w1) in
                    match reflection_model (length (requests w1)) (request_of lines) with
                    | Return types => Fanout.for_each f2 types w2
                    | Raise e => (Raise e, w2)
                    end
                | (Raise e, w1) => (Raise e, w1)
                end).
  { subst run. unfold Fanout.determine_what_to_update.
    fold f1. fold f2. unfold bind at 1.
    destruct (Fanout.for_each f1 (Fanout.prompt_types state) w) as [[lines|e1] w1];
      [|reflexivity].
    unfold bind, ainvoke. fold (request_of lines).
    now destruct (reflection_model (length (requests w1)) (request_of lines)). }
  clearbody run. subst run.
  destruct (for_each_pure f1 g1 (Fanout.prompt_types state) w Hf1)
    as (Hw1 & Hret1 & Hall1 & Hraise1).
  destruct (Fanout.for_each f1 (Fanout.prompt_types state) w) as [[lines|e1] w1];
    cbn [fst snd] in *; subst w1.
  2:{ split; [reflexivity|]. split.
      - intros _. exists e1. split; [reflexivity|].
        destruct (Hraise1 e1 eq_refl) as (x & _ & Hx). eapply Hg1, Hx.
      - intros Hknown. exfalso.
        destruct Hall1 as [ys Hys]; [|discriminate].
        eapply Forall_impl; [exact Hknown|]. intros p Hp. subst g1. cbn beta.
        destruct (known_memory_type p Hp) as ([d ->] & _). eauto. }
  specialize (Hret1 lines eq_refl).
  assert (Hreq : request_of lines = req).
  { subst req request_of. unfold choose_request. cbn beta. do 6 f_equal.
    eapply Forall2_returns_map; [|exact Hret1]. intros x y. subst g1. cbn beta.
    destruct (Graph.assoc x Fanout.MEMORY_TO_UPDATE); [|discriminate].
    now intros [= <-]. }
  rewrite Hreq. clear Hreq. cbv zeta.
  set (w2 := mk_World (console w) (slept w) (requests w ++ [req])%list (store w)).
  assert (Hunknown1 : (exists p, p ∈ Fanout.prompt_types state /\ p ∉ memory_types)
                      -> False).
  { intros (p & Hin & Hout).
    destruct (Forall2_returns_all g1 _ _ p Hret1 Hin) as [y Hy].
    subst g1. cbn beta in Hy.
    destruct (unknown_memory_type p Hout) as (Hnone & _). rewrite Hnone in Hy.
    discriminate. }
  destruct (reflection_model (length (requests w)) req) as [types|e].
  2:{ cbn [fst snd store requests]. split; [reflexivity|].
      split; [intros H; destruct (Hunknown1 H)|]. intros _.
      split; [reflexivity|]. split; [now intros e' [= <-] | discriminate]. }
  destruct (for_each_pure f2 g2 types w2 Hf2) as (Hw2 & Hret2 & Hall2 & Hraise2).
  rewrite Hw2. cbn [store requests w2].
  split; [reflexivity|].
  split; [intros H; destruct (Hunknown1 H)|]. intros _.
  split; [reflexivity|]. split; [discriminate|].
  intros types' [= <-]. split.
  - intros Hknown. destruct Hall2 as [tasks Htasks].
    { eapply Forall_impl; [exact Hknown|]. intros t Ht. subst g2. cbn beta.
      destruct (known_memory_type t Ht) as (_ & (key & -> & _) & (text & ->)). eauto. }
    exists tasks. split; [exact Htasks|].
    specialize (Hret2 tasks Htasks).
    clear Htasks Hraise2 Hw2.
    induction Hret2 as [|t task types tasks Htask _ IH]; [constructor|].
    apply Forall_cons in Hknown as [Ht Hknown].
    constructor; [|apply IH; exact Hknown].
    subst g2. cbn beta in Htask.
    destruct (known_memory_type t Ht) as (_ & (key & Hkey & Hin) & (text & Htext)).
    rewrite Hkey, Htext in Htask. injection Htask as <-.
    unfold task_for.
    cbn [Reflection.prompt_key Reflection.instructions Reflection.r_messages
         Reflection.feedback Reflection.assistant_key].
    auto 10.
  - intros (t & Hin & Hout).
    destruct (fst (Fanout.for_each f2 types w2)) as [tasks|e] eqn:Hrun.
    + exfalso. destruct (Forall2_returns_all g2 _ _ t (Hret2 tasks eq_refl) Hin)
        as [y Hy].
      subst g2. cbn beta in Hy.
      destruct (unknown_memory_type t Hout) as (_ & Hnone & _). rewrite Hnone in Hy.
      discriminate.
    + exists e. split; [reflexivity|].
      destruct (Hraise2 e eq_refl) as (x & _ & Hx). eapply Hg2, Hx.
Qed.

Lemma fanout_tasks_witness :
  let state :=
    Fanout.mk_MultiMemoryInput [] ["tone"; "calendar"] "shorter invites, please"
                               "assistant-1" in
  exists tasks,
    fst (Fanout.determine_what_to_update (fun _ _ => Return ["calendar"])
           (fun _ => "") state empty_world) = Return tasks
    /\ Forall2 (task_for state) ["calendar"] tasks.
Proof.
  intros state.
  destruct (fanout_tasks (fun _ _ => Return ["calendar"]) (fun _ => "") state
              empty_world) as (_ & _ & H).
  destruct H as (_ & _ & H).
  { repeat constructor. }
  destruct (H ["calendar"] eq_refl) as [Hok _]. apply Hok.
  repeat constructor.
Defined.

(** ** The other nodes of the graph *)

(** X12. [initialize_state_node] fails exactly when the state has no
    email, with a [ValueError], and touches nothing. Otherwise it keeps
    the email, takes the log or an empty one, and is idempotent. The
    decision it fills in when the state has no [triage] key routes to
    [mark_as_read_node] for every email; a [triage] key that holds [None]
    is kept as it is, and [route_after_triage] then fails with an
    [AttributeError] unless the pre-filter fires. *)
Theorem initialization_defaults (state : Nodes.InputState) (w : World) :
  (Nodes.in_email state = None ->
   Nodes.initialize_state_node state w
   = (Raise (mk_exn ValueError "Email must be provided in the initial state"), w))
  /\ (forall e, Nodes.in_email state = Some e ->
      exists s,
        Nodes.initialize_state_node state w = (Return s, w)
        /\ email s = e
        /\ messages s = default [] (Nodes.in_messages state)
        /\ Nodes.initialize_state_node
             (Nodes.mk_InputState (Some (email s)) (Some (messages s)) (Some (triage s)))
             w = (Return s, w)
        /\ (Nodes.in_triage state = None ->
            forall w1, result_of (Graph.route_after_triage s) w1
                       = Return "mark_as_read_node")
        /\ (Nodes.in_triage state = Some None ->
            forall w1,
              result_of (Graph.route_after_triage s) w1
              = if prefilter_fires e then Return "mark_as_read_node"
                else Raise (mk_exn AttributeError
                              "'NoneType' object has no attribute 'response'"))).
Proof.
  unfold Nodes.initialize_state_node. split.
  - intros ->. reflexivity.
  - intros e ->. unfold bind, ret. eexists. split; [reflexivity|].
    cbn [email messages triage Nodes.in_email Nodes.in_messages Nodes.in_triage].
    split; [reflexivity|]. split; [now destruct (Nodes.in_messages state) as [[|m ms]|]|].
    split.
    { destruct (Nodes.in_messages state) as [[|m ms]|]; reflexivity. }
    split.
    + intros -> w1. rewrite route_after_triage_result. cbn [email triage response].
      now destruct (prefilter_fires e).
    + intros -> w1. rewrite route_after_triage_result. reflexivity.
Qed.

Lemma initialization_defaults_witness :
  exists s,
    Nodes.initialize_state_node (Nodes.mk_InputState (Some digest_email) None None)
      empty_world = (Return s, empty_world)
    /\ messages s = []
    /\ result_of (Graph.route_after_triage s) empty_world = Return "mark_as_read_node".
Proof.
  destruct (initialization_defaults
              (Nodes.mk_InputState (Some digest_email) None None) empty_world)
    as [_ H].
  destruct (H digest_email eq_refl) as (s & Hrun & _ & Hlog & _ & Hroute & _).
  exists s. split; [exact Hrun|]. split; [exact Hlog|]. apply Hroute. reflexivity.
Defined.

Lemma remove_char_absent (c : ascii) (s : string) :
  Py.str_in (String c EmptyString) (Nodes.remove_char c s) = false.
Proof.
  induction s as [|a s IH]; [reflexivity|].
  cbn [Nodes.remove_char]. destruct (Ascii.eqb a c) eqn:Hac; [exact IH|].
  cbn [Py.str_in Py.startswith]. rewrite IH, Ascii.eqb_sym, Hac. reflexivity.
Qed.

Lemma remove_char_fixed (c : ascii) (s : string) :
  Py.str_in (String c EmptyString) s = false -> Nodes.remove_char c s = s.
Proof.
  induction s as [|a s IH]; [reflexivity|].
  cbn [Py.str_in Py.startswith Nodes.remove_char]. intros H.
  apply orb_false_iff in H as [Hhead Htail].
  rewrite andb_true_r, Ascii.eqb_sym in Hhead. rewrite Hhead. now rewrite IH.
Qed.

Lemma set_last_last {A : Type} (l : list A) (x : A) :
  last l = Some x -> Nodes.set_last l x = l.
Proof.
  unfold Nodes.set_last. destruct l as [|a l]; [reflexivity|]. revert a.
  induction l as [|b l IH]; intros a Hlast.
  - cbn in *. congruence.
  - change (last (a :: b :: l)) with (last (b :: l)) in Hlast.
    change (removelast (a :: b :: l)) with (a :: removelast (b :: l)).
    cbn [app]. now rewrite (IH b Hlast).
Qed.

(** X13. Whenever [take_action] answers [bad_tool_name], the node of that
    name succeeds and touches nothing outside the state. It returns the
    last message with its first tool call renamed, followed by a
    [ToolMessage] that answers that call and quotes the name as the model
    wrote it. The renamed call keeps its arguments and its id, and its
    name holds no colon. The rename is done in place: the log of the
    state has the same length and differs in its last message only, and
    not at all when the name had no colon. *)
Theorem bad_tool_name_repairs (state : State) (w w1 : World) :
  result_of (Graph.take_action state) w1 = Return "bad_tool_name" ->
  exists mid content tc rest,
    last (messages state) = Some (AIMessage mid content (tc :: rest))
    /\ let renamed :=
         mk_tool_call (Nodes.remove_char ":" (tc_name tc)) (tc_args tc) (tc_id tc) in
       let repaired := AIMessage mid content (renamed :: rest) in
       Nodes.bad_tool_name state w
       = (Return
            (mk_State (email state) (triage state)
                      (removelast (messages state) ++ [repaired])%list,
             mk_Update None None
               (Some [repaired;
                      ToolMessage None
                        ("Could not find tool with name `" +:+ tc_name tc
                         +:+ "`. Make sure you are calling one of the allowed tools!")
                        (tc_id tc)])
               None),
          w)
       /\ Py.str_in ":" (tc_name renamed) = false
       /\ length (removelast (messages state) ++ [repaired])%list
          = length (messages state)
       /\ (Py.str_in ":" (tc_name tc) = false ->
           (removelast (messages state) ++ [repaired])%list = messages state).
Proof.
  unfold result_of. rewrite take_action_run. cbn [fst].
  destruct (last (messages state)) as [prediction|] eqn:Hlast; [|discriminate].
  unfold first_tool_name.
  destruct prediction as [mid content|mid content id|mid content [|tc rest]|mid];
    cbn [tool_calls_attr]; try discriminate.
  intros Hname. exists mid, content, tc, rest. split; [reflexivity|]. cbv zeta.
  assert (Hne : messages state <> []) by (intros E; rewrite E in Hlast; discriminate).
  split; [|split; [|split]].
  - unfold Nodes.bad_tool_name, last_item. rewrite Hlast.
    unfold bind, ret, Rewrite.first_tool_call, first_item. cbn [tool_calls_attr].
    unfold Nodes.set_last. destruct (messages state); [now destruct Hne | reflexivity].
  - apply remove_char_absent.
  - destruct (messages state) as [|m ms]; [now destruct Hne|].
    rewrite length_app, removelast_firstn_len, length_take. cbn [length]. lia.
  - intros Hcolon. rewrite (remove_char_fixed _ _ Hcolon).
    pose proof (set_last_last (messages state) _ Hlast) as Hsame.
    unfold Nodes.set_last in Hsame.
    destruct (messages state) as [|m ms]; [now destruct Hne|].
    destruct tc. exact Hsame.
Qed.

Lemma bad_tool_name_repairs_witness :
  let call := mk_tool_call "functions:Question"
                {[ "content" := VStr "Do you want to attend?" ]} "call-3" in
  let state := mk_State business_email None [AIMessage (Some "m1") "" [call]] in
  exists state' update,
    Nodes.bad_tool_name state empty_world = (Return (state', update), empty_world)
    /\ first_tool_name <$> last (messages state') = Some (Some "functionsQuestion").
Proof.
  intros call state.
  destruct (bad_tool_name_repairs state empty_world empty_world eq_refl)
    as (mid & content & tc & rest & Hlast & Hrun & _).
  injection Hlast as <- <- <- <-.
  eexists _, _. split; [exact Hrun | reflexivity].
Defined.

(** ** Delivery *)

(** X14. [send_cal_invite_node] reports a failed delivery instead of
    raising. When the log ends with a message that carries a tool call and
    the configuration has an [email], the node always returns exactly one
    [ToolMessage], answering that call: with every argument present its
    text is "Sent calendar invite!" when the delivery returns (whatever it
    returns) and the text of the error after "Got the following error when
    sending a calendar invite: " when it raises; with an argument missing
    the delivery is not attempted and the text reports the missing key.
    With that message at the end of the log, the run resumes at
    [draft_response]. *)
Theorem calendar_errors_are_reported
    (send_calendar_invite : pyval -> pyval -> pyval -> pyval -> string -> M bool)
    (state : State) (config : RunnableConfig) (w : World)
    (mid : option string) (content : string) (tc : tool_call) (rest : list tool_call)
    (address : string) :
  last (messages state) = Some (AIMessage mid content (tc :: rest)) ->
  prompt_config config !! "email" = Some address ->
  exists text w',
    Nodes.send_cal_invite_node send_calendar_invite state config w
    = (Return (mk_Update None None (Some [ToolMessage None text (tc_id tc)]) None), w')
    /\ (forall emails title start_time end_time,
          tc_args tc !! "emails" = Some emails ->
          tc_args tc !! "title" = Some title ->
          tc_args tc !! "start_time" = Some start_time ->
          tc_args tc !! "end_time" = Some end_time ->
          let delivery :=
            send_calendar_invite emails title start_time end_time address w in
          w' = snd delivery
          /\ text = match fst delivery with
                    | Return _ => "Sent calendar invite!"
                    | Raise e =>
                        "Got the following error when sending a calendar invite: "
                        +:+ exn_str e
                    end)
    /\ (forall key, key ∈ ["emails"; "title"; "start_time"; "end_time"] ->
          tc_args tc !! key = None ->
          w' = w
          /\ exists missing,
               missing ∈ ["emails"; "title"; "start_time"; "end_time"]
               /\ text = "Got the following error when sending a calendar invite: '"
                         +:+ missing +:+ "'")
    /\ (forall state' w1,
          last (messages state') = Some (ToolMessage None text (tc_id tc)) ->
          Graph.enter_after_human state' w1 = (Return "draft_response", w1)).
Proof.
  intros Hlast Hemail.
  assert (Hresume : forall text state' w1,
            last (messages state') = Some (ToolMessage None text (tc_id tc)) ->
            Graph.enter_after_human state' w1 = (Return "draft_response", w1)).
  { intros text state' w1 Htail. rewrite enter_after_human_run, Htail. reflexivity. }
  assert (Hin : forall key, key ∈ ["emails"; "title"; "start_time"; "end_time"] ->
            tc_args tc !! key = None ->
            tc_args tc !! "emails" = None \/ tc_args tc !! "title" = None
            \/ tc_args tc !! "start_time" = None \/ tc_args tc !! "end_time" = None).
  { intros key Hkey Hnone.
    repeat (apply elem_of_cons in Hkey as [-> | Hkey]); auto. inversion Hkey. }
  cbv [Nodes.send_cal_invite_node bind ret raise try_except last_item
       Rewrite.first_tool_call first_item getitem Nodes.arg].
  rewrite Hlast. cbn [tool_calls_attr]. rewrite Hemail.
  destruct (tc_args tc !! "emails") as [emails|] eqn:H1.
  2:{ eexists _, _. split; [reflexivity|].
      split; [discriminate|]. split; [|apply Hresume].
      intros key _ _. split; [reflexivity|]. exists "emails".
      split; [repeat constructor | reflexivity]. }
  destruct (tc_args tc !! "title") as [title|] eqn:H2.
  2:{ eexists _, _. split; [reflexivity|].
      split; [discriminate|]. split; [|apply Hresume].
      intros key _ _. split; [reflexivity|]. exists "title".
      split; [repeat constructor | reflexivity]. }
  destruct (tc_args tc !! "start_time") as [start_time|] eqn:H3.
  2:{ eexists _, _. split; [reflexivity|].
      split; [discriminate|]. split; [|apply Hresume].
      intros key _ _. split; [reflexivity|]. exists "start_time".
      split; [repeat constructor | reflexivity]. }
  destruct (tc_args tc !! "end_time") as [end_time|] eqn:H4.
  2:{ eexists _, _. split; [reflexivity|].
      split; [discriminate|]. split; [|apply Hresume].
      intros key _ _. split; [reflexivity|]. exists "end_time".
      split; [repeat constructor | reflexivity]. }
  destruct (send_calendar_invite emails title start_time end_time address w)
    as [[b|e] w'] eqn:Hsend.
  - eexists _, w'. split; [reflexivity|]. split; [|split; [|apply Hresume]].
    + intros ? ? ? ? [= <-] [= <-] [= <-] [= <-]. cbv zeta. rewrite Hsend. auto.
    + intros key Hkey Hnone. exfalso.
      destruct (Hin key Hkey Hnone) as [H | [H | [H | H]]]; discriminate.
  - eexists _, w'. split; [reflexivity|]. split; [|split; [|apply Hresume]].
    + intros ? ? ? ? [= <-] [= <-] [= <-] [= <-]. cbv zeta. rewrite Hsend. auto.
    + intros key Hkey Hnone. exfalso.
      destruct (Hin key Hkey Hnone) as [H | [H | [H | H]]]; discriminate.
Qed.

Lemma calendar_errors_are_reported_witness :
  let call := mk_tool_call "SendCalendarInvite"
                {[ "emails" := VList ["a@corp.example"]; "title" := VStr "Sync";
                   "start_time" := VStr "2024-05-02T10:00:00";
                   "end_time" := VStr "2024-05-02T10:30:00" ]} "call-4" in
  let state := mk_State business_email None [AIMessage (Some "m1") "" [call]] in
  let config := mk_RunnableConfig None {[ "email" := "me@example.com" ]} in
  let refused (_ _ _ _ : pyval) (_ : string) : M bool :=
    raise (mk_exn OtherException "HttpError 403") in
  fst (Nodes.send_cal_invite_node refused state config empty_world)
  = Return (mk_Update None None
              (Some [ToolMessage None
                       "Got the following error when sending a calendar invite: HttpError 403"
                       "call-4"]) None).
Proof.
  intros call state config refused.
  destruct (calendar_errors_are_reported refused state config empty_world
              (Some "m1") "" call [] "me@example.com" eq_refl eq_refl)
    as (text & w' & Hrun & Hsent & _).
  destruct (Hsent _ _ _ _ eq_refl eq_refl eq_refl eq_refl) as [_ ->] in Hrun.
  rewrite Hrun. reflexivity.
Defined.

(** X15. [send_email_node] has no such guard. With a tool call at the end
    of the log, an [email] in the configuration, the arguments
    [new_recipients] and [content] and an [id] on the email, it decodes
    recipients given as a string and calls the delivery once; an error of
    the decoding is raised before anything is delivered, and an error of
    the delivery is raised as it is. On success it hands back the email
    and the log unchanged. When the configured [email], an argument or the
    [id] is missing it fails with a [KeyError] and nothing is delivered. *)
Theorem email_errors_propagate
    (send_email : string -> pyval -> string -> pyval -> M unit)
    (json_loads : string -> outcome pyval)
    (state : State) (config : RunnableConfig) (w : World)
    (mid : option string) (content : string) (tc : tool_call) (rest : list tool_call) :
  last (messages state) = Some (AIMessage mid content (tc :: rest)) ->
  let run := Nodes.send_email_node send_email json_loads state config w in
  (forall address recipients id body,
     prompt_config config !! "email" = Some address ->
     tc_args tc !! "new_recipients" = Some recipients ->
     email state !! "id" = Some id ->
     tc_args tc !! "content" = Some body ->
     let decoded := match recipients with
                    | VStr s => json_loads s
                    | v => Return v
                    end in
     (forall e, decoded = Raise e -> run = (Raise e, w))
     /\ (forall to, decoded = Return to ->
           let delivery := send_email id body address to w in
           snd run = snd delivery
           /\ (forall e, fst delivery = Raise e -> fst run = Raise e)
           /\ (fst delivery = Return tt ->
               fst run = Return (mk_Update (Some (email state)) None
                                           (Some (messages state)) None))))
  /\ (prompt_config config !! "email" = None
      \/ tc_args tc !! "new_recipients" = None
      \/ (email state !! "id" = None
          /\ forall s, tc_args tc !! "new_recipients" <> Some (VStr s))
      \/ (tc_args tc !! "content" = None
          /\ forall s, tc_args tc !! "new_recipients" <> Some (VStr s)) ->
      exists e, run = (Raise e, w) /\ exn_class_of e = KeyError).
Proof.
  intros Hlast run.
  assert (Hrun : run = Nodes.send_email_node send_email json_loads state config w)
    by reflexivity.
  clearbody run.
  cbv [Nodes.send_email_node bind ret raise last_item Rewrite.first_tool_call
       first_item getitem Nodes.arg] in Hrun.
  rewrite Hlast in Hrun. cbn [tool_calls_attr] in Hrun.
  assert (Hdeliver : forall address id body to,
            prompt_config config !! "email" = Some address ->
            email state !! "id" = Some id ->
            tc_args tc !! "content" = Some body ->
            forall run' : outcome Update * World,
              run' = (let (o, w') := send_email id body address to w in
                      match o with
                      | Return _ =>
                          (Return (mk_Update (Some (email state)) None
                                             (Some (messages state)) None), w')
                      | Raise e => (Raise e, w')
                      end) ->
              let delivery := send_email id body address to w in
              snd run' = snd delivery
              /\ (forall e, fst delivery = Raise e -> fst run' = Raise e)
              /\ (fst delivery = Return tt ->
                  fst run' = Return (mk_Update (Some (email state)) None
                                               (Some (messages state)) None))).
  { intros address id body to _ _ _ run' ->. cbv zeta.
    destruct (send_email id body address to w) as [[[]|e] w'];
      cbn [fst snd]; repeat split; try discriminate;
      try (intros ? [= <-]); reflexivity. }
  split.
  - intros address recipients id body Hemail Hrec Hid Hbody decoded.
    rewrite Hemail in Hrun. cbv beta iota in Hrun.
    rewrite Hrec in Hrun. cbv beta iota in Hrun.
    destruct recipients as [s|b|l]; subst decoded; cbv beta iota in Hrun.
    + destruct (json_loads s) as [to|e]; cbv beta iota in Hrun.
      * rewrite Hid in Hrun. cbv beta iota in Hrun.
        rewrite Hbody in Hrun. cbv beta iota in Hrun.
        split; [discriminate|]. intros to' [= <-]. now eapply Hdeliver.
      * split; [now intros e' [= <-] | discriminate].
    + rewrite Hid in Hrun. cbv beta iota in Hrun.
      rewrite Hbody in Hrun. cbv beta iota in Hrun.
      split; [discriminate|]. intros to' [= <-]. now eapply Hdeliver.
    + rewrite Hid in Hrun. cbv beta iota in Hrun.
      rewrite Hbody in Hrun. cbv beta iota in Hrun.
      split; [discriminate|]. intros to' [= <-]. now eapply Hdeliver.
  - intros Hmissing.
    destruct (prompt_config config !! "email") as [address|] eqn:Hemail;
      cbv beta iota in Hrun.
    2:{ eexists. split; [exact Hrun | reflexivity]. }
    destruct (tc_args tc !! "new_recipients") as [recipients|] eqn:Hrec;
      cbv beta iota in Hrun.
    2:{ eexists. split; [exact Hrun | reflexivity]. }
    destruct Hmissing as [H | [H | [[Hid Hstr] | [Hbody Hstr]]]]; try discriminate.
    + destruct recipients as [s|b|l]; [now destruct (Hstr s)| |];
        cbv beta iota in Hrun; rewrite Hid in Hrun; cbv beta iota in Hrun;
        eexists; (split; [exact Hrun | reflexivity]).
    + destruct recipients as [s|b|l]; [now destruct (Hstr s)| |];
        cbv beta iota in Hrun;
        (destruct (email state !! "id") as [id|]; cbv beta iota in Hrun;
         [rewrite Hbody in Hrun; cbv beta iota in Hrun|];
         eexists; (split; [exact Hrun | reflexivity])).
Qed.

Lemma email_errors_propagate_witness :
  let config := mk_RunnableConfig None {[ "email" := "me@example.com" ]} in
  let bounced (_ : string) (_ : pyval) (_ : string) (_ : pyval) : M unit :=
    raise (mk_exn OtherException "HttpError 500") in
  fst (Nodes.send_email_node bounced (fun _ => Return (VList [])) drafted_state config
         empty_world)
  = Raise (mk_exn OtherException "HttpError 500").
Proof.
  intros config bounced.
  destruct (email_errors_propagate bounced (fun _ => Return (VList [])) drafted_state
              config empty_world _ _ _ _ eq_refl) as [H _].
  destruct (H "me@example.com" (VList ["hr@corp.example"]) "msg-2"
              (VStr "Dear recruiter, I am interested.")
              eq_refl eq_refl eq_refl eq_refl) as [_ Hd].
  destruct (Hd _ eq_refl) as (_ & He & _). apply He. reflexivity.
Defined.

(** ** The Gmail agent node and the shape of the graph *)

(** X16. [gmail_agent_node] never fails on a missing field: for every
    email and configuration it sends exactly one request, offering the two
    Gmail tools, and touches nothing else; an error of the model is raised
    as it is, and an answer becomes the only message of the update. The
    graph never executes what the model asks for: the node leads to
    [human_node], and with an answer at the end of the log whose first
    tool call, if any, names one of the two Gmail tools, the run resumes
    at [draft_response]. *)
Theorem gmail_agent_answer_is_not_executed
    (llm : nat -> request -> outcome message) (state : State)
    (config : RunnableConfig) (w : World) :
  let run := GmailAgent.gmail_agent_node llm state config w in
  exists req,
    requests (snd run) = (requests w ++ [req])%list
    /\ tools req = ["draft_gmail_message"; "search_gmail_drafts"]
    /\ store (snd run) = store w /\ slept (snd run) = slept w
    /\ console (snd run) = console w
    /\ (forall e, llm (length (requests w)) req = Raise e -> fst run = Raise e)
    /\ (forall response, llm (length (requests w)) req = Return response ->
          fst run = Return (mk_Update None None (Some [response]) None)
          /\ Graph.follow_edges 1 "gmail_agent_node" = ["human_node"]
          /\ ((forall name, first_tool_name response = Some name ->
                 name ∈ ["draft_gmail_message"; "search_gmail_drafts"]) ->
              forall state' w1,
                last (messages state') = Some response ->
                Graph.enter_after_human state' w1 = (Return "draft_response", w1))).
Proof.
  cbv zeta. unfold GmailAgent.gmail_agent_node, bind, ainvoke, ret.
  match goal with
  | |- context [llm ?n ?r] => exists r; destruct (llm n r) as [response|e]
  end; cbn [fst snd requests store slept console tools];
    do 5 (split; [reflexivity|]); (split; [intros e0 Heq | intros response0 Heq]).
  - discriminate Heq.
  - injection Heq as <-. split; [reflexivity|]. split; [reflexivity|].
    intros Hnames state' w1 Htail.
    rewrite enter_after_human_run, Htail.
    destruct (Graph.is_tool_or_human response); [reflexivity|].
    destruct (first_tool_name response) as [name|]; [|reflexivity].
    specialize (Hnames name eq_refl).
    repeat (apply elem_of_cons in Hnames as [-> | Hnames]);
      [reflexivity | reflexivity | inversion Hnames].
  - now injection Heq as <-.
  - discriminate Heq.
Qed.

Lemma gmail_agent_answer_is_not_executed_witness :
  let answer :=
    AIMessage (Some "run-4") ""
      [ mk_tool_call "draft_gmail_message"
          {[ "content" := VStr "See you then."; "subject" := VStr "Re: Role discussion";
             "to" := VList ["recruiter@corp.example"] ]} "call-5" ] in
  let state := mk_State business_email (Some (mk_RespondTo "reply" "email")) [] in
  fst (GmailAgent.gmail_agent_node (fun _ _ => Return answer) state sample_config
         empty_world)
  = Return (mk_Update None None (Some [answer]) None)
  /\ Graph.enter_after_human (mk_State business_email (triage state) [answer])
       empty_world
     = (Return "draft_response", empty_world).
Proof.
  intros answer state.
  destruct (gmail_agent_answer_is_not_executed (fun _ _ => Return answer) state
              sample_config empty_world)
    as (req & _ & _ & _ & _ & _ & _ & Hanswer).
  destruct (Hanswer answer eq_refl) as (Hrun & _ & Hresume).
  split; [exact Hrun|]. apply Hresume; [|reflexivity].
  intros name [= <-]. repeat constructor.
Defined.

Lemma lower_char_idempotent (c : ascii) :
  Py.lower_char (Py.lower_char c) = Py.lower_char c.
Proof. destruct c as [[] [] [] [] [] [] [] []]; reflexivity. Qed.

Lemma lower_idempotent (s : string) : Py.lower (Py.lower s) = Py.lower s.
Proof.
  induction s as [|c s IH]; [reflexivity|].
  cbn [Py.lower]. now rewrite lower_char_idempotent, IH.
Qed.

(** X17. When the triage routing chooses the Gmail agent. The answer of
    [route_after_triage] is [gmail_agent_node] exactly when the pre-filter
    does not fire, the decision is "email", and the lower-cased body or
    subject contains "draft", "gmail", "save email", "prepare email" or
    "write email". The sixth keyword of the source, "email drafts", never
    decides anything, as it contains "draft". *)
Theorem gmail_agent_is_chosen_iff (state : State) (w : World) :
  let keywords := ["draft"; "gmail"; "save email"; "prepare email"; "write email"] in
  result_of (Graph.route_after_triage state) w = Return "gmail_agent_node"
  <-> prefilter_fires (email state) = false
      /\ (exists t, triage state = Some t /\ response t = "email")
      /\ (Py.any_in keywords (content_of (email state)) = true
          \/ Py.any_in keywords (subject_of (email state)) = true).
Proof.
  cbv zeta.
  assert (Hsix : forall s,
            Py.any_in ["draft"; "gmail"; "email drafts"; "save email"; "prepare email";
                       "write email"] s
            = Py.any_in ["draft"; "gmail"; "save email"; "prepare email"; "write email"]
                        s).
  { intros s. unfold Py.any_in. cbn [existsb].
    destruct (Py.str_in "email drafts" s) eqn:Hed; [|reflexivity].
    now rewrite (str_in_trans "draft" "email drafts" s eq_refl Hed). }
  rewrite route_after_triage_result.
  destruct (prefilter_fires (email state)).
  { split; [discriminate | intros [H _]; discriminate]. }
  destruct (triage state) as [t|] eqn:Ht.
  2:{ split; [discriminate | intros (_ & (t & Ht' & _) & _); discriminate]. }
  destruct (String.eqb (response t) "email") eqn:Heq.
  - unfold Graph.should_use_gmail_agent. rewrite Ht, Heq.
    rewrite !lower_idempotent, !Hsix.
    fold (content_of (email state)). fold (subject_of (email state)).
    apply String.eqb_eq in Heq.
    destruct (Py.any_in _ (content_of (email state))),
      (Py.any_in _ (subject_of (email state))); cbn [orb];
      (split;
       [ intros H;
         first [ discriminate H
               | split; [reflexivity|]; split; [eauto|];
                 first [left; reflexivity | right; reflexivity] ]
       | intros (_ & _ & [H|H]); first [discriminate H | reflexivity] ]).
  - apply String.eqb_neq in Heq. split.
    + repeat match goal with
             | |- context [if ?b then _ else _] => destruct b
             end; discriminate.
    + intros (_ & (t' & [= <-] & Hr) & _). now destruct Heq.
Qed.

(** X18. The graph has no dangling route. For every registered node the
    next node is fixed by an edge or chosen by a routing function, and
    whatever the state, every answer is a registered node, or the end of
    the run, which only [mark_as_read_node] leads to. *)
Theorem successors_are_nodes (node : string) (state : State) (w : World) :
  node ∈ Nodes.nodes ->
  ((exists target, Graph.assoc node Graph.edges = Some target)
   \/ (exists route, Graph.assoc node Graph.conditional_edges = Some route))
  /\ (forall next, result_of (Graph.successor node state) w = Return next ->
        next ∈ Nodes.nodes \/ (node = "mark_as_read_node" /\ next = Graph.END)).
Proof.
  unfold Nodes.nodes. intros Hnode.
  assert (Hin : forall next : string,
            In next ["initialize"; "human_node"; "triage_input"; "draft_response";
                     "gmail_agent_node"; "send_message"; "rewrite"; "mark_as_read_node";
                     "send_email_draft"; "send_email_node"; "bad_tool_name"; "notify";
                     "send_cal_invite_node"; "send_cal_invite"; "find_meeting_time"] ->
            next ∈ ["initialize"; "human_node"; "triage_input"; "draft_response";
                    "gmail_agent_node"; "send_message"; "rewrite"; "mark_as_read_node";
                    "send_email_draft"; "send_email_node"; "bad_tool_name"; "notify";
                    "send_cal_invite_node"; "send_cal_invite"; "find_meeting_time"]
            \/ (node = "mark_as_read_node" /\ next = Graph.END)).
  { intros next H. left. now apply list_elem_of_In. }
  repeat (apply elem_of_cons in Hnode as [-> | Hnode]); try (now inversion Hnode);
    (split;
     [ first [ left; eexists; reflexivity | right; eexists; reflexivity ] | ]);
    intros next; unfold result_of;
    first
      [ change (Graph.successor "triage_input" state w)
          with (Graph.route_after_triage state w);
        pose proof (route_after_triage_result state w) as Hr;
        unfold result_of in Hr; rewrite Hr; clear Hr;
        unfold Graph.should_use_gmail_agent;
        repeat match goal with
               | |- context [if ?b then _ else _] => destruct b
               | |- context [match triage state with _ => _ end] =>
                   destruct (triage state)
               end;
        intros [= <-]; apply Hin; cbn; tauto
      | change (Graph.successor "draft_response" state w)
          with (Graph.take_action state w);
        rewrite take_action_run; cbn [fst];
        destruct (last (messages state)) as [m|]; [|discriminate];
        destruct (first_tool_name m) as [name|];
        repeat match goal with
               | |- context [if ?b then _ else _] => destruct b
               end;
        intros [= <-]; apply Hin; cbn; tauto
      | change (Graph.successor "human_node" state w)
          with (Graph.enter_after_human state w);
        rewrite enter_after_human_run; cbn [fst];
        destruct (last (messages state)) as [m|];
        [ destruct (Graph.is_tool_or_human m);
          [|destruct (first_tool_name m) as [name|]]
        | destruct (triage state) as [t|]; [|discriminate] ];
        repeat match goal with
               | |- context [if ?b then _ else _] => destruct b
               end;
        intros [= <-]; apply Hin; cbn; tauto
      | intros [= <-]; apply Hin; cbn; tauto
      | intros [= <-]; right; split; reflexivity ].
Qed.

Lemma successors_are_nodes_witness :
  result_of (Graph.successor "draft_response" drafted_state) empty_world
  = Return "rewrite"
  /\ "rewrite" ∈ Nodes.nodes.
Proof.
  assert (Hnext : result_of (Graph.successor "draft_response" drafted_state) empty_world
                  = Return "rewrite") by reflexivity.
  split; [exact Hnext|].
  destruct (successors_are_nodes "draft_response" drafted_state empty_world)
    as [_ H].
  { unfold Nodes.nodes. apply list_elem_of_In. cbn. tauto. }
  destruct (H "rewrite" Hnext) as [Hin | [Hno _]]; [exact Hin | discriminate Hno].
Defined.

(** ** Missing configuration, and the greeting of the fallback reply *)

(** X19. [draft_response] reads its configuration key by key, between its
    writes. When the first preference has neither a stored text nor a
    configured default the stage fails with the [KeyError] of
    ['schedule_preferences'] and the world is as it was. When the three
    preferences are configured but [name] is missing, it fails with the
    [KeyError] of ['name'] after it has seeded the store: the defaults of
    the preferences that had no stored text are written, and no request
    was sent. *)
Theorem draft_response_missing_configuration
    (llm : nat -> request -> outcome message) (state : State)
    (config : RunnableConfig) (w : World) :
  (stored_data (store w) (namespace_of config) "schedule_preferences" = None ->
   prompt_config config !! "schedule_preferences" = None ->
   DraftResponse.draft_response llm state config w
   = (Raise (mk_exn KeyError "'schedule_preferences'"), w))
  /\ (has_keys (prompt_config config)
        ["schedule_preferences"; "background_preferences"; "response_preferences"]
      = true ->
      prompt_config config !! "name" = None ->
      DraftResponse.draft_response llm state config w
      = (Raise (mk_exn KeyError "'name'"),
         with_store w (draft_store config (store w)))).
Proof.
  split.
  - intros Hstored Hconfig.
    unfold DraftResponse.draft_response, get_config_async.
    unfold bind at 1. unfold ret at 1. unfold bind at 1.
    unfold DraftResponse.load_preference, bind at 1, store_get.
    unfold stored_data in Hstored. rewrite Hstored.
    unfold bind at 1, getitem. rewrite Hconfig. reflexivity.
  - intros Hkeys Hname.
    assert (Hc : forall k, k ∈ ["schedule_preferences"; "background_preferences";
                                "response_preferences"] ->
                 prompt_config config !! k
                 = Some (get_or_empty (prompt_config config) k)).
    { intros k Hk. eapply has_keys_lookup; eassumption. }
    cbv [DraftResponse.draft_response bind get_config_async ret].
    rewrite load_preference_run by (apply Hc; repeat constructor).
    rewrite load_preference_run by (apply Hc; repeat constructor).
    rewrite load_preference_run by (apply Hc; repeat constructor).
    unfold getitem at 1. rewrite Hname. reflexivity.
Qed.

Lemma draft_response_missing_configuration_witness :
  let config :=
    mk_RunnableConfig (Some "assistant-1")
      {[ "schedule_preferences" := "mornings"; "background_preferences" := "final year";
         "response_preferences" := "short" ]} in
  let run := DraftResponse.draft_response prose_then_question
               (mk_State business_email None []) config empty_world in
  fst run = Raise (mk_exn KeyError "'name'")
  /\ stored_data (store (snd run)) "assistant-1" "schedule_preferences" = Some "mornings"
  /\ requests (snd run) = [].
Proof.
  intros config run.
  destruct (draft_response_missing_configuration prose_then_question
              (mk_State business_email None []) config empty_world) as [_ H].
  subst run. rewrite (H eq_refl eq_refl). repeat split.
Defined.

Lemma split_nonempty (sep : ascii) (s : string) : Py.split sep s <> [].
Proof.
  destruct s as [|c r]; cbn [Py.split]; [discriminate|].
  destruct (Ascii.eqb c sep); [discriminate|].
  destruct (Py.split sep r); discriminate.
Qed.

Lemma split_without_separator (sep : ascii) (s : string) :
  Py.str_in (String sep EmptyString) s = false -> Py.split sep s = [s].
Proof.
  induction s as [|c r IH]; [reflexivity|].
  cbn [Py.str_in Py.startswith Py.split]. intros H.
  apply orb_false_iff in H as [Hhead Htail].
  rewrite andb_true_r, Ascii.eqb_sym in Hhead. rewrite Hhead, (IH Htail). reflexivity.
Qed.

(** X20. The greeting of the fallback reply. [generate_personal_response]
    never uses its fallback name "there": the sender's address always
    splits into at least one part, so the reply opens with "Hi ", the
    capitalized first part of the address before the first "@" and ".",
    and a comma. For an address with neither "@" nor "." that part is the
    whole address, and for an email without a sender the reply opens with
    "Hi ,". Without a [name] in the configuration the function fails with
    the [KeyError] of ['name']. *)
Theorem greeting_never_falls_back (pc email : gmap string string) :
  (pc !! "name" = None ->
   personal_response pc email = Raise (mk_exn KeyError "'name'"))
  /\ (forall name, pc !! "name" = Some name ->
      exists local_part domains first others body,
        Py.split "@" (get_or_empty email "from_email") = local_part :: domains
        /\ Py.split "." local_part = first :: others
        /\ personal_response pc email
           = Return ("Hi " +:+ Py.capitalize first +:+ "," +:+ body)
        /\ (Py.str_in "@" (get_or_empty email "from_email") = false ->
            Py.str_in "." (get_or_empty email "from_email") = false ->
            first = get_or_empty email "from_email")
        /\ (email !! "from_email" = None -> Py.capitalize first = "")).
Proof.
  unfold personal_response, DraftResponse.generate_personal_response.
  split.
  - intros Hname. destruct (Py.any_in _ _); unfold bind, getitem; now rewrite Hname.
  - intros name Hname.
    destruct (Py.split "@" (get_or_empty email "from_email")) as [|local_part domains]
      eqn:Hat; [now destruct (split_nonempty _ _ Hat)|].
    destruct (Py.split "." local_part) as [|first others] eqn:Hdot;
      [now destruct (split_nonempty _ _ Hdot)|].
    exists local_part, domains, first, others.
    assert (Hplain : Py.str_in "@" (get_or_empty email "from_email") = false ->
                     Py.str_in "." (get_or_empty email "from_email") = false ->
                     first = get_or_empty email "from_email").
    { intros Hno_at Hno_dot. rewrite (split_without_separator _ _ Hno_at) in Hat.
      injection Hat as <- <-. rewrite (split_without_separator _ _ Hno_dot) in Hdot.
      now injection Hdot as <- <-. }
    assert (Hnone : email !! "from_email" = None -> Py.capitalize first = "").
    { intros Hmissing. rewrite Hplain; unfold get_or_empty; rewrite Hmissing;
        reflexivity. }
    destruct (Py.any_in _ _); unfold bind, getitem; rewrite Hname;
      eexists; (split; [first [reflexivity | exact Hat]|]);
      (split; [first [reflexivity | exact Hdot]|]);
      (split; [reflexivity|]); (split; [exact Hplain | exact Hnone]).
Qed.

Lemma greeting_never_falls_back_witness :
  exists body,
    personal_response (prompt_config sample_config)
      {[ "page_content" := "hi, lunch on friday?" ]}
    = Return ("Hi ," +:+ body).
Proof.
  destruct (greeting_never_falls_back (prompt_config sample_config)
              {[ "page_content" := "hi, lunch on friday?" ]}) as [_ H].
  destruct (H "Aryan" eq_refl)
    as (local_part & domains & first & others & body & _ & _ & Hrun & _ & Hnone).
  exists body. rewrite Hrun, (Hnone eq_refl). reflexivity.
Defined.

(** ** Searching the drafts *)

Lemma matching_agrees (get1 get2 : string -> outcome GmailDrafts.payload)
    (b64decode : string -> outcome string) (query : string) (ids : list string) :
  (forall id, id ∈ ids -> get1 id = get2 id) ->
  GmailDrafts.matching get1 b64decode query ids
  = GmailDrafts.matching get2 b64decode query ids.
Proof.
  induction ids as [|id rest IH]; intros Hsame; [reflexivity|].
  cbn [GmailDrafts.matching]. unfold GmailDrafts.examine.
  rewrite (Hsame id) by now left.
  rewrite IH by (intros id' Hin; apply Hsame; now right). reflexivity.
Qed.

Lemma slice_list_nothing {A : Type} (n : Z) (l : list A) :
  n = 0 \/ n <= - Z.of_nat (length l) -> GmailDrafts.slice_list n l = [].
Proof.
  unfold GmailDrafts.slice_list. intros [-> | Hn]; [reflexivity|].
  destruct (0 <=? n) eqn:Hpos.
  - apply Z.leb_le in Hpos. assert (n = 0) as -> by lia. reflexivity.
  - replace (length l - Z.to_nat (- n))%nat with 0%nat by lia. reflexivity.
Qed.

(** X21. [search_gmail_drafts] bounds the drafts it reads, not the matches
    it reports. With no draft in the listing the answer is "No drafts
    found." and no draft is read. Otherwise only the drafts of
    [drafts[:max_results]] are read: the answer is the same for any two
    services that agree on those drafts, so a matching draft further down
    the listing is never reported, and an unreadable one never fails the
    search. With [max_results] 0, or negative and at least as large as the
    listing, the answer is "No drafts found matching ..." whatever the
    drafts hold. *)
Theorem search_reads_the_first_drafts_only
    (drafts_list : outcome (option (list string)))
    (get1 get2 : string -> outcome GmailDrafts.payload)
    (b64decode : string -> outcome string) (query : string) (max_results : Z) :
  (drafts_list = Return None \/ drafts_list = Return (Some []) ->
   GmailDrafts.search_gmail_drafts drafts_list get1 b64decode query max_results
   = Return "No drafts found.")
  /\ (forall ids, drafts_list = Return (Some ids) ->
        (forall id, id ∈ GmailDrafts.slice_list max_results ids -> get1 id = get2 id) ->
        GmailDrafts.search_gmail_drafts drafts_list get1 b64decode query max_results
        = GmailDrafts.search_gmail_drafts drafts_list get2 b64decode query max_results)
  /\ (forall ids, drafts_list = Return (Some ids) -> ids <> [] ->
        max_results = 0 \/ max_results <= - Z.of_nat (length ids) ->
        GmailDrafts.search_gmail_drafts drafts_list get1 b64decode query max_results
        = Return ("No drafts found matching '" +:+ query +:+ "'.")).
Proof.
  unfold GmailDrafts.search_gmail_drafts. split; [|split].
  - intros [-> | ->]; reflexivity.
  - intros ids -> Hsame. change (default [] (Some ids)) with ids.
    destruct ids as [|first others]; [reflexivity|]. cbv beta iota.
    now rewrite (matching_agrees get1 get2 b64decode query _ Hsame).
  - intros ids -> Hne Hn. change (default [] (Some ids)) with ids.
    destruct ids as [|first others]; [now destruct Hne|]. cbv beta iota.
    now rewrite (slice_list_nothing max_results (first :: others) Hn).
Qed.

Lemma search_reads_the_first_drafts_only_witness :
  let note := GmailDrafts.mk_payload [("Subject", "Lunch on Friday")] None None in
  let get1 (id : string) : outcome GmailDrafts.payload :=
    if String.eqb id "d3" then Raise (mk_exn OtherException "HttpError 404")
    else Return note in
  let get2 (id : string) : outcome GmailDrafts.payload :=
    if String.eqb id "d3"
    then Return (GmailDrafts.mk_payload [("Subject", "Thesis draft")] None None)
    else Return note in
  GmailDrafts.search_gmail_drafts (Return (Some ["d1"; "d2"; "d3"])) get1
    (fun data => Return data) "thesis" 2
  = GmailDrafts.search_gmail_drafts (Return (Some ["d1"; "d2"; "d3"])) get2
      (fun data => Return data) "thesis" 2
  /\ GmailDrafts.search_gmail_drafts (Return (Some ["d1"; "d2"; "d3"])) get2
       (fun data => Return data) "thesis" 2
     = Return "No drafts found matching 'thesis'.".
Proof.
  intros note get1 get2.
  destruct (search_reads_the_first_drafts_only (Return (Some ["d1"; "d2"; "d3"]))
              get1 get2 (fun data => Return data) "thesis" 2) as (_ & Hsame & _).
  split; [|reflexivity].
  apply (Hsame ["d1"; "d2"; "d3"] eq_refl).
  intros id Hid. cbn in Hid.
  repeat (apply elem_of_cons in Hid as [-> | Hid]); [reflexivity | reflexivity |].
  inversion Hid.
Defined.

(** ** From the rewritten draft to the delivery *)

Lemma send_email_node_run
    (send_email : string -> pyval -> string -> pyval -> M unit)
    (json_loads : string -> outcome pyval)
    (state : State) (config : RunnableConfig) (w : World)
    (mid : option string) (content : string) (tc : tool_call) (rest : list tool_call)
    (address id : string) (body : pyval) (recipients : list string) :
  last (messages state) = Some (AIMessage mid content (tc :: rest)) ->
  prompt_config config !! "email" = Some address ->
  tc_args tc !! "new_recipients" = Some (VList recipients) ->
  email state !! "id" = Some id ->
  tc_args tc !! "content" = Some body ->
  Nodes.send_email_node send_email json_loads state config w
  = match send_email id body address (VList recipients) w with
    | (Return _, w') =>
        (Return (mk_Update (Some (email state)) None (Some (messages state)) None), w')
    | (Raise e, w') => (Raise e, w')
    end.
Proof.
  intros Hlast Hemail Hrec Hid Hbody.
  cbv [Nodes.send_email_node bind ret raise last_item Rewrite.first_tool_call
       first_item getitem Nodes.arg].
  rewrite Hlast. cbn [tool_calls_attr]. rewrite Hemail, Hrec. cbv beta iota.
  rewrite Hid. cbv beta iota. rewrite Hbody. cbv beta iota.
  now destruct (send_email id body address (VList recipients) w) as [[[]|e] w'].
Qed.

(** X22. What is delivered is the rewritten text. When [rewrite] gets a
    valid answer for a draft, the message it returns carries the tool name
    of the draft, so with it at the end of the log the resume routing
    answers as it would for the draft itself, [send_email_node] for a
    [ResponseEmailDraft]; and [send_email_node] then calls the delivery
    once, with the id of the email, the rewritten text as content, the
    configured address, and the recipients of the original draft. *)
Theorem rewritten_text_is_delivered
    (llm : nat -> request -> outcome message)
    (send_email : string -> pyval -> string -> pyval -> M unit)
    (json_loads : string -> outcome pyval)
    (state : State) (config : RunnableConfig) (w : World) (prev : message)
    (tc : tool_call) (rest : list tool_call) (draft : pyval) (response : message)
    (text address id : string) (recipients : list string) :
  rewrite_ready state config = true ->
  last (messages state) = Some prev ->
  tool_calls_attr prev = Some (tc :: rest) ->
  tc_args tc !! "content" = Some draft ->
  llm (length (requests w)) (rewrite_request state config draft (store w))
  = Return response ->
  rewritten_text response = Some text ->
  prompt_config config !! "email" = Some address ->
  email state !! "id" = Some id ->
  tc_args tc !! "new_recipients" = Some (VList recipients) ->
  exists m,
    fst (Rewrite.rewrite llm state config w)
    = Return (mk_Update None None (Some [m]) None)
    /\ first_tool_name m = Some (tc_name tc)
    /\ forall state' w1,
         email state' = email state ->
         last (messages state') = Some m ->
         (tc_name tc = "ResponseEmailDraft" ->
          Graph.enter_after_human state' w1 = (Return "send_email_node", w1))
         /\ Nodes.send_email_node send_email json_loads state' config w1
            = match send_email id (VStr text) address (VList recipients) w1 with
              | (Return _, w') =>
                  (Return (mk_Update (Some (email state')) None
                                     (Some (messages state')) None), w')
              | (Raise e, w') => (Raise e, w')
              end.
Proof.
  intros Hready Hlast Htc Hdraft Hanswer Htext Hemail Hid Hrec.
  rewrite (rewrite_run llm state config w prev tc rest draft Hready Hlast Htc Hdraft).
  cbv zeta. rewrite Hanswer. unfold rewritten_text in Htext.
  destruct (tool_calls_attr response) as [[|answer others]|]; try discriminate.
  destruct (tc_args answer !! "rewritten_content") as [[text'|b|l]|]; try discriminate.
  injection Htext as ->. cbn [fst]. unfold rewrite_update, rewritten_call.
  eexists. split; [reflexivity|]. split; [reflexivity|].
  intros state' w1 Hsame Htail. split.
  - intros Hname. rewrite enter_after_human_run, Htail. cbn. now rewrite Hname.
  - apply (send_email_node_run send_email json_loads state' config w1 _ _ _ _
             address id (VStr text) recipients Htail Hemail).
    + cbn [tc_args]. rewrite lookup_insert_ne by discriminate. exact Hrec.
    + now rewrite Hsame.
    + cbn [tc_args]. apply lookup_insert_eq.
Qed.

Lemma rewritten_text_is_delivered_witness :
  let config :=
    mk_RunnableConfig (Some "assistant-1")
      (<["email" := "me@example.com"]> (prompt_config sample_config)) in
  exists m,
    fst (Rewrite.rewrite rewrite_answer drafted_state config empty_world)
    = Return (mk_Update None None (Some [m]) None)
    /\ Graph.enter_after_human (mk_State business_email None [m]) empty_world
       = (Return "send_email_node", empty_world).
Proof.
  intros config.
  destruct (rewritten_text_is_delivered rewrite_answer (fun _ _ _ _ => ret tt)
              (fun _ => Return (VList [])) drafted_state config empty_world
              _ _ _ _ _ "Hi, count me in!" "me@example.com" "msg-2" ["hr@corp.example"]
              eq_refl eq_refl eq_refl eq_refl eq_refl eq_refl eq_refl eq_refl eq_refl)
    as (m & Hrun & _ & Hnext).
  exists m. split; [exact Hrun|].
  apply (Hnext (mk_State business_email None [m]) empty_world eq_refl eq_refl).
  reflexivity.
Defined.
